(** * Staggered race over redundant Langflow flows

    Shallow embedding of
    [ui-for-langflow1-5-14/test-api-langflow-interactive-alwaynewSession-parallel-withFallback.py]:

    - [extract_message_from_response]  (lines 23-27)
    - [call_single_flow_with_delay]    (lines 30-97), the worker
    - [call_langflow_staggered_race]   (lines 100-207), scheduler and retry loop
    - [main]                           (lines 210-299), the interactive loop

    Modelling choices.

    - Python values that come back from [response.json()] are the inductive
      [Py.value]; a Python [str] is the list of its code points.
    - Durations and clock readings are rationals ([Q]).  The driver only ever
      passes integers for [stagger_delay] and [retry_delay], and the worker
      adds multiples of [0.5] to them, for which binary floating point is
      exact.
    - Everything the program gets from outside is an explicit environment:
      what [winner_event.is_set()] answers at the k-th poll of a worker, what
      [time.time()] and [uuid.uuid4()] return at their k-th call, what
      [requests.post] does, and the order in which [as_completed] yields the
      futures.  The answers of [is_set()] are not tied to what the scheduler
      does with the event, so the environments include every interleaving
      of the threads (and more), and a theorem for all environments holds
      for all interleavings.
    - Every effect is appended to a trace, so that statements such as "the
      backend is never invoked" are statements about the trace.
    - [FLOW_IDS], a constant of the program, is a parameter here; the
      configured list is [configured_FLOW_IDS].
    - The [while] loop of the worker runs on fuel; [wait_loop_spec] shows
      that the fuel given by [call_single_flow_with_delay] always suffices.
    - In the worker and the race, [print] is not modelled (their console
      output is not part of the logic), and neither is an asynchronous
      [KeyboardInterrupt].  In [main] both are: what [main] shows is
      recorded, the answer of a backend may fail to print, and Ctrl-C can
      arrive at [input()] and at every point of a query where the state of
      [main] differs, the running race included. *)

From Stdlib Require Import ZArith NArith QArith Qminmax Qround.
From Stdlib Require Import List String Ascii Bool Lia Lqa.
Import ListNotations.

Local Open Scope Q_scope.
#[local] Set Warnings "-register-all".

(* ===================================================================== *)
(** ** The Python run time the program relies on *)
(* ===================================================================== *)

Module Py.

(** A [str] is a sequence of Unicode code points. *)
Definition str := list N.

(** A program literal (ASCII) as a [str]. *)
Definition u (s : string) : str := map N_of_ascii (list_ascii_of_string s).

Definition str_eqb (a b : str) : bool :=
  if list_eq_dec N.eq_dec a b then true else false.

(** [str.isspace] on one code point (CPython's [_PyUnicode_IsWhitespace]). *)
Definition isspace (c : N) : bool :=
  (  ((9 <=? c) && (c <=? 13))
  || ((28 <=? c) && (c <=? 32))
  || (c =? 133) || (c =? 160) || (c =? 5760)
  || ((8192 <=? c) && (c <=? 8202))
  || (c =? 8232) || (c =? 8233) || (c =? 8239) || (c =? 8287)
  || (c =? 12288))%N.

Fixpoint lstrip (s : str) : str :=
  match s with
  | [] => []
  | c :: r => if isspace c then lstrip r else s
  end.

Definition rstrip (s : str) : str := rev (lstrip (rev s)).

(** [s.strip()] *)
Definition strip (s : str) : str := rstrip (lstrip s).

(** A Python [float]: a finite double is a dyadic rational [m * 2^e]. *)
Inductive float :=
| Finite (m e : Z)
| Inf (negative : bool)
| NaN.

(** What [json.loads] can produce. *)
Inductive value :=
| VNone
| VBool (b : bool)
| VInt (z : Z)
| VFloat (f : float)
| VStr (s : str)
| VList (l : list value)
| VDict (d : list (str * value)).

(** The exceptions of the program.  All of them derive from [Exception]. *)
Inductive exc :=
| KeyError
| IndexError
| TypeError
| AttributeError
| Timeout                      (* requests.exceptions.Timeout *)
| ConnectionError              (* requests.exceptions.ConnectionError *)
| HTTPError                    (* raise_for_status *)
| JSONDecodeError              (* response.json() *)
| ValueError                   (* ThreadPoolExecutor(max_workers=0) *)
| OtherException (msg : string)
(* Exception(f"All flows failed after {max_retries} attempts. Total flows
   tried: {len(FLOW_IDS)} x {max_retries} = {len(FLOW_IDS) * max_retries}") *)
| AllFlowsFailed (max_retries : Z) (flows : Z) (total : Z).

(** The result of evaluating an expression or running a statement. *)
Inductive res (A : Type) :=
| Ok (a : A)
| Raised (e : exc)
| OutOfFuel.
Arguments Ok {A} a.
Arguments Raised {A} e.
Arguments OutOfFuel {A}.

(** [bool(v)] *)
Definition truthy (v : value) : bool :=
  match v with
  | VNone => false
  | VBool b => b
  | VInt z => negb (z =? 0)%Z
  | VFloat (Finite m _) => negb (m =? 0)%Z
  | VFloat _ => true
  | VStr s => match s with [] => false | _ => true end
  | VList l => match l with [] => false | _ => true end
  | VDict d => match d with [] => false | _ => true end
  end.

(** A subscript is a string literal or the integer literal [0]. *)
Inductive key :=
| KStr (k : string)
| KZero.

Fixpoint dict_get (d : list (str * value)) (k : str) : option value :=
  match d with
  | [] => None
  | (k', v) :: r => if str_eqb k' k then Some v else dict_get r k
  end.

(** [v[k]].  A decoded JSON object has only string keys, so an integer
    subscript of a dict is a [KeyError]. *)
Definition getitem (v : value) (k : key) : res value :=
  match v, k with
  | VDict d, KStr s =>
      match dict_get d (u s) with
      | Some x => Ok x
      | None => Raised KeyError
      end
  | VDict _, KZero => Raised KeyError
  | VList l, KZero =>
      match l with
      | x :: _ => Ok x
      | [] => Raised IndexError
      end
  | VList _, KStr _ => Raised TypeError
  | VStr s, KZero =>
      match s with
      | c :: _ => Ok (VStr [c])
      | [] => Raised IndexError
      end
  | VStr _, KStr _ => Raised TypeError
  | _, _ => Raised TypeError
  end.

(** [v and v.strip()], as a truth value.  Only a [str] has [strip]. *)
Definition and_strip (v : value) : res bool :=
  if truthy v then
    match v with
    | VStr s => Ok (truthy (VStr (strip s)))
    | _ => Raised AttributeError
    end
  else Ok false.

End Py.

Import Py.

(* ===================================================================== *)
(** ** A monad for effectful code: environment, state, exceptions *)
(* ===================================================================== *)

Definition M (E W A : Type) : Type := E -> W -> res A * W.

Definition ret {E W A} (a : A) : M E W A := fun _ w => (Ok a, w).

Definition bind {E W A B} (c : M E W A) (k : A -> M E W B) : M E W B :=
  fun e w =>
    match c e w with
    | (Ok a, w') => k a e w'
    | (Raised x, w') => (Raised x, w')
    | (OutOfFuel, w') => (OutOfFuel, w')
    end.

Definition raise {E W A} (x : exc) : M E W A := fun _ w => (Raised x, w).

Definition lift {E W A} (r : res A) : M E W A := fun _ w => (r, w).

(** [try: body  except ...: handler].  [h x = None] when no clause matches
    [x], which then propagates. *)
Definition try_except {E W A} (body : M E W A) (h : exc -> option (M E W A))
  : M E W A :=
  fun e w =>
    match body e w with
    | (Raised x, w') =>
        match h x with
        | Some k => k e w'
        | None => (Raised x, w')
        end
    | r => r
    end.

Declare Scope py_scope.
Delimit Scope py_scope with py.
Notation "x <- c ;; k" := (bind c (fun x => k))
  (at level 61, c at next level, right associativity) : py_scope.
Notation "c ;;; k" := (bind c (fun _ => k))
  (at level 61, right associativity) : py_scope.
Local Open Scope py_scope.

(** The same, without state: for pure expressions that may raise. *)
Definition rbind {A B} (r : res A) (k : A -> res B) : res B :=
  match r with
  | Ok a => k a
  | Raised x => Raised x
  | OutOfFuel => OutOfFuel
  end.

Definition rcatch {A} (r : res A) (h : exc -> option (res A)) : res A :=
  match r with
  | Raised x => match h x with Some r' => r' | None => Raised x end
  | _ => r
  end.

(* ===================================================================== *)
(** ** [extract_message_from_response] *)
(* ===================================================================== *)

(** [response_data["outputs"][0]["outputs"][0]["results"]["message"]["text"]] *)
Definition message_path : list key :=
  [KStr "outputs"; KZero; KStr "outputs"; KZero;
   KStr "results"; KStr "message"; KStr "text"].

Fixpoint subscripts (v : value) (path : list key) : res value :=
  match path with
  | [] => Ok v
  | k :: rest => rbind (getitem v k) (fun v' => subscripts v' rest)
  end.

Definition extract_message_from_response (response_data : value) : res value :=
  rcatch (subscripts response_data message_path)
         (fun x => match x with
                   | KeyError | IndexError | TypeError => Some (Ok (VStr []))
                   | _ => None
                   end).

(* ===================================================================== *)
(** ** Effects, environments and thread states *)
(* ===================================================================== *)

(** A [threading.Event] object is named by its allocation number. *)
Definition Event := nat.

(** The tuple a worker returns:
    [(success, flow_id, message, elapsed, cancelled)]. *)
Record outcome := Outcome {
  o_success : bool;
  o_flow_id : string;
  o_message : value;
  o_elapsed : Q;
  o_cancelled : bool
}.

(** One entry of [all_results]. *)
Record result_entry := ResultEntry {
  r_flow_id : string;
  r_success : bool;
  r_message : value;
  r_elapsed : Q;
  r_delay : Q;
  r_total_time : Q
}.

Inductive effect :=
| EIsSet (ev : Event) (b : bool)       (* winner_event.is_set() answered b *)
| ESleep (d : Q)                       (* time.sleep(d) *)
| ETime (t : Q)                        (* time.time() answered t *)
| EPost (url : string) (input_value : str) (session_id : N)
                                       (* requests.post(url, json=payload, ...) *)
| ENewEvent (ev : Event)               (* threading.Event() *)
| ESet (ev : Event)                    (* winner_event.set() *)
| EUuid4 (v : N)                       (* uuid.uuid4() answered v *)
| ESubmit (idx : nat) (flow_id : string) (session_id : N) (delay : Q)
          (ev : Event)                 (* executor.submit(...) *)
| EAppend (r : result_entry)           (* all_results.append(r) *)
| EShutdown                            (* leaving the [with] block *)
| EReport (attempt : Z) (success_count total : nat).
                                       (* "Attempt n failed: k/m succeeded" *)

(** What [requests.post] does for one call. *)
Inductive http_result :=
| PostRaises (x : exc)
| Response (status_ok : bool) (body : option value).
  (* [status_ok = false]: [raise_for_status] raises;
     [body = None]: the body is not JSON and [response.json()] raises *)

(** The outside world as one worker thread meets it. *)
Record ThreadEnv := {
  te_is_set : nat -> bool;     (* answer of the k-th [is_set()] poll *)
  te_time : nat -> Q;          (* answer of the k-th [time.time()] *)
  te_http : http_result
}.

Record Thread := {
  th_polls : nat;              (* polls made so far *)
  th_clock : nat;              (* [time.time()] calls made so far *)
  th_trace : list effect
}.

Definition Worker := M ThreadEnv Thread.

Definition thread_start : Thread :=
  {| th_polls := 0; th_clock := 0; th_trace := [] |}.

Definition th_emit (e : effect) (w : Thread) : Thread :=
  {| th_polls := th_polls w; th_clock := th_clock w;
     th_trace := th_trace w ++ [e] |}.

(** [winner_event.is_set()] in a worker: the flag belongs to another thread,
    so the answer is the environment's. *)
Definition is_set (ev : Event) : Worker bool :=
  fun env w =>
    let b := te_is_set env (th_polls w) in
    (Ok b, {| th_polls := S (th_polls w); th_clock := th_clock w;
              th_trace := th_trace w ++ [EIsSet ev b] |}).

Definition th_sleep (d : Q) : Worker unit :=
  fun _ w => (Ok tt, th_emit (ESleep d) w).

Definition th_time : Worker Q :=
  fun env w =>
    let t := te_time env (th_clock w) in
    (Ok t, {| th_polls := th_polls w; th_clock := S (th_clock w);
              th_trace := th_trace w ++ [ETime t] |}).

Definition BASE_URL : string := "http://localhost:7860/api/v1/run".

(** [requests.post(url, json=payload, headers=headers)]: the payload's
    variable parts are [input_value] and [session_id]. *)
Definition requests_post (url : string) (input_value : str) (session_id : N)
  : Worker (bool * option value) :=
  fun env w =>
    let w' := th_emit (EPost url input_value session_id) w in
    match te_http env with
    | PostRaises x => (Raised x, w')
    | Response ok body => (Ok (ok, body), w')
    end.

Definition raise_for_status (response : bool * option value) : Worker unit :=
  if fst response then ret tt else raise HTTPError.

Definition response_json (response : bool * option value) : Worker value :=
  match snd response with
  | Some v => ret v
  | None => raise JSONDecodeError
  end.

(* ===================================================================== *)
(** ** [call_single_flow_with_delay] *)
(* ===================================================================== *)

Definition Qltb (x y : Q) : bool := negb (Qle_bool y x).

Inductive wait_outcome := Cancelled | Elapsed.

(** The polling loop of lines 45-53, [waited] being the loop variable.
    [winner_event and winner_event.is_set()] is false for [None]. *)
Fixpoint wait_loop (fuel : nat) (winner_event : option Event)
    (delay_seconds waited : Q) : Worker wait_outcome :=
  match fuel with
  | O => fun _ w => (OutOfFuel, w)
  | S fuel' =>
      if Qltb waited delay_seconds then
        b <- match winner_event with
             | Some ev => is_set ev
             | None => ret false
             end ;;
        if b then ret Cancelled
        else
          th_sleep (Qmin (1#2) (delay_seconds - waited)) ;;;
          wait_loop fuel' winner_event delay_seconds (waited + (1#2))
      else ret Elapsed
  end.

(** Number of turns of the loop when nothing cancels it. *)
Definition poll_count (delay_seconds : Q) : nat :=
  Z.to_nat (Qceiling (delay_seconds * 2)).

(** Lines 55-97: the request itself and the classification of its result.
    Whatever the [try] body raises is caught by one of the two [except]
    clauses, which build the same tuple. *)
Definition send_request (flow_id : string) (input_message : str)
    (session_id : N) : Worker outcome :=
  let url := (BASE_URL ++ "/" ++ flow_id)%string in
  start_time <- th_time ;;
  try_except
    (response <- requests_post url input_message session_id ;;
     raise_for_status response ;;;
     now <- th_time ;;
     let elapsed := now - start_time in
     response_data <- response_json response ;;
     message_text <- lift (extract_message_from_response response_data) ;;
     usable_text <- lift (and_strip message_text) ;;
     if usable_text
     then ret (Outcome true flow_id message_text elapsed false)
     else ret (Outcome false flow_id (VStr []) elapsed false))
    (fun x =>
       match x with
       | Timeout =>
           Some (now <- th_time ;;
                 ret (Outcome false flow_id (VStr []) (now - start_time) false))
       | _ =>
           Some (now <- th_time ;;
                 ret (Outcome false flow_id (VStr []) (now - start_time) false))
       end).

Definition call_single_flow_with_delay (flow_id : string) (input_message : str)
    (session_id : N) (delay_seconds : Q) (winner_event : option Event)
  : Worker outcome :=
  started <- (if Qltb 0 delay_seconds
              then wait_loop (S (poll_count delay_seconds)) winner_event
                             delay_seconds 0
              else ret Elapsed) ;;
  match started with
  | Cancelled => ret (Outcome false flow_id (VStr []) 0 true)
  | Elapsed => send_request flow_id input_message session_id
  end.

(* ===================================================================== *)
(** ** The main thread: scheduler and retry loop *)
(* ===================================================================== *)

(** A finished [Future] together with its entry in the [futures] dict,
    [futures[future] = (flow_id, delay)]. *)
Record Future := {
  f_flow_id : string;
  f_delay : Q;
  f_result : res outcome;        (* what [future.result()] gives or raises *)
  f_trace : list effect          (* what the worker thread did *)
}.

(** The outside world as the main thread meets it. *)
Record MainEnv := {
  me_time : nat -> Q;                  (* answer of the k-th [time.time()] *)
  me_uuid4 : nat -> N;                 (* answer of the k-th [uuid.uuid4()] *)
  me_thread : Z -> nat -> ThreadEnv;   (* the worker at position idx of attempt n *)
  me_order : Z -> list nat             (* positions in the order in which
                                          [as_completed] yields them in attempt n *)
}.

Record Main := {
  mw_clock : nat;                      (* [time.time()] calls made so far *)
  mw_uuids : nat;                      (* [uuid.uuid4()] calls made so far *)
  mw_events : list bool;               (* the flags of the Event objects *)
  mw_threads : list (Z * nat * list effect);
                                       (* trace of every worker started *)
  mw_trace : list effect
}.

Definition Sched := M MainEnv Main.

Definition main_start : Main :=
  {| mw_clock := 0; mw_uuids := 0; mw_events := []; mw_threads := [];
     mw_trace := [] |}.

Definition emit (e : effect) : Sched unit :=
  fun _ w =>
    (Ok tt, {| mw_clock := mw_clock w; mw_uuids := mw_uuids w;
               mw_events := mw_events w; mw_threads := mw_threads w;
               mw_trace := mw_trace w ++ [e] |}).

Definition time_time : Sched Q :=
  fun env w =>
    let t := me_time env (mw_clock w) in
    (Ok t, {| mw_clock := S (mw_clock w); mw_uuids := mw_uuids w;
              mw_events := mw_events w; mw_threads := mw_threads w;
              mw_trace := mw_trace w ++ [ETime t] |}).

Definition uuid4 : Sched N :=
  fun env w =>
    let v := me_uuid4 env (mw_uuids w) in
    (Ok v, {| mw_clock := mw_clock w; mw_uuids := S (mw_uuids w);
              mw_events := mw_events w; mw_threads := mw_threads w;
              mw_trace := mw_trace w ++ [EUuid4 v] |}).

Definition sleep (d : Q) : Sched unit := emit (ESleep d).

(** [threading.Event()]: a new object, flag clear. *)
Definition Event_new : Sched Event :=
  fun _ w =>
    let ev := List.length (mw_events w) in
    (Ok ev, {| mw_clock := mw_clock w; mw_uuids := mw_uuids w;
               mw_events := mw_events w ++ [false];
               mw_threads := mw_threads w;
               mw_trace := mw_trace w ++ [ENewEvent ev] |}).

Fixpoint set_flag (flags : list bool) (ev : Event) : list bool :=
  match flags, ev with
  | [], _ => []
  | _ :: r, O => true :: r
  | b :: r, S n => b :: set_flag r n
  end.

(** [ev.set()] *)
Definition Event_set (ev : Event) : Sched unit :=
  fun _ w =>
    (Ok tt, {| mw_clock := mw_clock w; mw_uuids := mw_uuids w;
               mw_events := set_flag (mw_events w) ev;
               mw_threads := mw_threads w;
               mw_trace := mw_trace w ++ [ESet ev] |}).

(** [ThreadPoolExecutor(max_workers=n)]: the constructor rejects [n <= 0]. *)
Definition ThreadPoolExecutor (max_workers : nat) : Sched unit :=
  match max_workers with
  | O => raise ValueError
  | S _ => ret tt
  end.

(** The flag of [ev] in a state of the main thread. *)
Definition flag (w : Main) (ev : Event) : bool := nth ev (mw_events w) false.

(** How the loop over [as_completed] is left. *)
Inductive loop_exit :=
| Returned (message : value) (flow_id : string) (overall_elapsed : Q)
| Fallthrough (all_results : list result_entry).

Section Race.

(** The configured flows, in stagger order. *)
Variable FLOW_IDS : list string.

Variable input_message : str.
Variables (stagger_delay : Q) (max_retries : Z) (retry_delay : Q).

(** [delay = idx * stagger_delay] *)
Definition stagger (idx : nat) : Q := inject_Z (Z.of_nat idx) * stagger_delay.

(** The future of the worker at position [idx] of attempt [attempt]: the
    worker runs in its own thread, against its own part of the environment. *)
Definition future_of (env : MainEnv) (attempt : Z) (idx : nat)
    (flow_id : string) (session_id : N) (delay : Q) (winner_event : Event)
  : Future :=
  let run :=
    call_single_flow_with_delay flow_id input_message session_id delay
      (Some winner_event) (me_thread env attempt idx) thread_start in
  {| f_flow_id := flow_id; f_delay := delay; f_result := fst run;
     f_trace := th_trace (snd run) |}.

(** [executor.submit(call_single_flow_with_delay, flow_id, input_message,
    session_id, delay, winner_event)] *)
Definition submit (attempt : Z) (idx : nat) (flow_id : string)
    (session_id : N) (delay : Q) (winner_event : Event) : Sched Future :=
  fun env w =>
    let future :=
      future_of env attempt idx flow_id session_id delay winner_event in
    (Ok future,
     {| mw_clock := mw_clock w; mw_uuids := mw_uuids w;
        mw_events := mw_events w;
        mw_threads := mw_threads w ++ [(attempt, idx, f_trace future)];
        mw_trace := mw_trace w
                    ++ [ESubmit idx flow_id session_id delay winner_event] |}).

(** [for idx, flow_id in enumerate(FLOW_IDS): ...] of lines 130-141. *)
Fixpoint submit_all (attempt : Z) (flows : list string) (idx : nat)
    (session_id : N) (winner_event : Event) : Sched (list Future) :=
  match flows with
  | [] => ret []
  | flow_id :: rest =>
      let delay := stagger idx in
      future <- submit attempt idx flow_id session_id delay winner_event ;;
      futures <- submit_all attempt rest (S idx) session_id winner_event ;;
      ret (future :: futures)
  end.

(** The futures in the order given by a list of positions. *)
Definition in_order (order : list nat) (futures : list Future) : list Future :=
  flat_map (fun i => match nth_error futures i with
                     | Some f => [f]
                     | None => []
                     end) order.

(** [as_completed(futures)]: the futures in the order of the environment. *)
Definition as_completed (attempt : Z) (futures : list Future)
  : Sched (list Future) :=
  fun env w => (Ok (in_order (me_order env attempt) futures), w).

(** The futures that the submissions of one attempt create, the effects of
    submitting them and the threads they start, by position. *)
Fixpoint futures_from (env : MainEnv) (attempt : Z) (flows : list string)
    (idx : nat) (session_id : N) (winner_event : Event) : list Future :=
  match flows with
  | [] => []
  | flow_id :: rest =>
      future_of env attempt idx flow_id session_id (stagger idx) winner_event
      :: futures_from env attempt rest (S idx) session_id winner_event
  end.

Fixpoint submissions (flows : list string) (idx : nat) (session_id : N)
    (winner_event : Event) : list effect :=
  match flows with
  | [] => []
  | flow_id :: rest =>
      ESubmit idx flow_id session_id (stagger idx) winner_event
      :: submissions rest (S idx) session_id winner_event
  end.

Fixpoint started (env : MainEnv) (attempt : Z) (flows : list string)
    (idx : nat) (session_id : N) (winner_event : Event)
  : list (Z * nat * list effect) :=
  match flows with
  | [] => []
  | flow_id :: rest =>
      (attempt, idx,
       f_trace (future_of env attempt idx flow_id session_id (stagger idx)
                          winner_event))
      :: started env attempt rest (S idx) session_id winner_event
  end.

(** The effects with which every attempt begins. *)
Definition opening (env : MainEnv) (w : Main) (session_id : N) : list effect :=
  ETime (me_time env (mw_clock w))
  :: ENewEvent (List.length (mw_events w))
  :: submissions FLOW_IDS 0 session_id (List.length (mw_events w)).

(** The futures of one attempt in the order in which the loop meets them. *)
Definition completed_of (env : MainEnv) (attempt : Z) (session_id : N)
    (winner_event : Event) : list Future :=
  in_order (me_order env attempt)
           (futures_from env attempt FLOW_IDS 0 session_id winner_event).

(** The loop of lines 144-177. *)
Fixpoint observe (completed : list Future) (overall_start : Q)
    (winner_event : Event) (all_results : list result_entry)
    (winner_found : bool) : Sched loop_exit :=
  match completed with
  | [] => ret (Fallthrough all_results)
  | future :: rest =>
      o <- lift (f_result future) ;;
      let delay := f_delay future in
      if o_cancelled o then
        observe rest overall_start winner_event all_results winner_found
      else
        let entry :=
          ResultEntry (o_flow_id o) (o_success o) (o_message o) (o_elapsed o)
                      delay (o_elapsed o + delay) in
        emit (EAppend entry) ;;;
        let all_results := all_results ++ [entry] in
        if o_success o && negb winner_found then
          Event_set winner_event ;;;
          now <- time_time ;;
          let overall_elapsed := now - overall_start in
          sleep (1#2) ;;;
          ret (Returned (o_message o) (o_flow_id o) overall_elapsed)
        else
          observe rest overall_start winner_event all_results winner_found
  end.

(** [with ThreadPoolExecutor(...) as executor: body].  However the body is
    left, the executor is shut down, which joins the worker threads. *)
Definition with_executor {A} (body : Sched A) : Sched A :=
  fun env w =>
    let '(r, w') := body env w in
    (r, snd (emit EShutdown env w')).

(** Lines 122-177: one attempt, up to the end of the [with] block. *)
Definition run_attempt (attempt : Z) (session_id : N) : Sched loop_exit :=
  overall_start <- time_time ;;
  winner_event <- Event_new ;;
  ThreadPoolExecutor (List.length FLOW_IDS) ;;;
  with_executor
    (futures <- submit_all attempt FLOW_IDS 0 session_id winner_event ;;
     completed <- as_completed attempt futures ;;
     observe completed overall_start winner_event [] false).

Definition success_count (all_results : list result_entry) : nat :=
  List.length (filter r_success all_results).

(** Lines 179-202: what follows a [with] block that was not left by
    [return].  The value is the [session_id] of the next turn. *)
Definition after_failure (attempt : Z) (session_id : N)
    (all_results : list result_entry) : Sched N :=
  now <- time_time ;;
  emit (EReport attempt (success_count all_results) (List.length all_results)) ;;;
  if (attempt <? max_retries)%Z then
    sleep retry_delay ;;;
    uuid4
  else ret session_id.

(** [for attempt in range(1, max_retries + 1): ...] followed by the
    [raise] of lines 204-207. *)
Fixpoint retry_loop (attempts : list Z) (session_id : N)
  : Sched (value * string * Q) :=
  match attempts with
  | [] =>
      raise (AllFlowsFailed max_retries (Z.of_nat (List.length FLOW_IDS))
                            (Z.of_nat (List.length FLOW_IDS) * max_retries))
  | attempt :: rest =>
      exit <- run_attempt attempt session_id ;;
      match exit with
      | Returned message flow_id overall_elapsed =>
          ret (message, flow_id, overall_elapsed)
      | Fallthrough all_results =>
          session_id' <- after_failure attempt session_id all_results ;;
          retry_loop rest session_id'
      end
  end.

(** [range(1, max_retries + 1)] *)
Definition attempt_range : list Z :=
  map Z.of_nat (seq 1 (Z.to_nat max_retries)).

Definition call_langflow_staggered_race : Sched (value * string * Q) :=
  session_id <- uuid4 ;;
  retry_loop attempt_range session_id.

End Race.

(** The flows configured in the repository. *)
Definition configured_FLOW_IDS : list string :=
  [ "d29ded11-0b13-4f7b-9616-bf789ac308c1";
    "ef7a48a6-d502-408c-b945-2285f204addc";
    "ad4f9e7b-a7fd-4272-a169-31e51a001cc1" ]%string.

(* ===================================================================== *)
(** ** Observations on outcomes and traces *)
(* ===================================================================== *)

(** The text a reply carries, as the worker extracts it. *)
Definition reply_text (h : http_result) : value :=
  match h with
  | Response true (Some data) =>
      match extract_message_from_response data with
      | Ok v => v
      | _ => VStr []
      end
  | _ => VStr []
  end.

(** A reply is usable when the transport succeeded, the body is JSON and the
    extracted text passes [message_text and message_text.strip()]. *)
Definition usable (h : http_result) : bool :=
  match h with
  | Response true (Some _) =>
      match and_strip (reply_text h) with
      | Ok b => b
      | _ => false
      end
  | _ => false
  end.

Definition is_post (e : effect) : bool :=
  match e with EPost _ _ _ => true | _ => false end.

Definition is_poll (e : effect) : bool :=
  match e with EIsSet _ _ => true | _ => false end.

Definition is_set_call (e : effect) : bool :=
  match e with ESet _ => true | _ => false end.

Definition is_new_event (e : effect) : bool :=
  match e with ENewEvent _ => true | _ => false end.

Definition is_sleep (e : effect) : bool :=
  match e with ESleep _ => true | _ => false end.

Definition is_append (e : effect) : bool :=
  match e with EAppend _ => true | _ => false end.

Definition count (p : effect -> bool) (tr : list effect) : nat :=
  List.length (filter p tr).

(** The entries appended to [all_results], in order. *)
Definition appended (tr : list effect) : list result_entry :=
  flat_map (fun e => match e with EAppend r => [r] | _ => [] end) tr.

(** What a worker thread may do: poll, sleep at most half a second at a
    time, read the clock, post.  It has no way to write to the event. *)
Definition worker_effect (e : effect) : Prop :=
  match e with
  | EIsSet _ _ | ETime _ | EPost _ _ _ => True
  | ESleep d => 0 < d /\ d <= 1#2
  | _ => False
  end.

(** What the polling loop does: poll, sleep at most half a second. *)
Definition waiting (e : effect) : Prop :=
  match e with
  | EIsSet _ _ => True
  | ESleep d => 0 < d /\ d <= 1#2
  | _ => False
  end.

Definition clock_reading (e : effect) : Prop := exists t, e = ETime t.

(** A poll that found the event set. *)
Definition saw_signal (e : effect) : bool :=
  match e with EIsSet _ b => b | _ => false end.

(** The exceptions that [extract_message_from_response] catches. *)
Definition lookup_error (x : exc) : Prop :=
  x = KeyError \/ x = IndexError \/ x = TypeError.

(** The state of the main thread after more effects, nothing else changed. *)
Definition extend (w : Main) (tr : list effect) : Main :=
  {| mw_clock := mw_clock w; mw_uuids := mw_uuids w;
     mw_events := mw_events w; mw_threads := mw_threads w;
     mw_trace := mw_trace w ++ tr |}.

(** Every request of an attempt fails or brings nothing usable. *)
Definition all_fail (flows : list string) (env : MainEnv) (attempt : Z) : Prop :=
  forall idx, (idx < List.length flows)%nat ->
    usable (te_http (me_thread env attempt idx)) = false.

(** An effect of the main thread that neither touches an event nor records
    a success. *)
Definition quiet (e : effect) : Prop :=
  match e with
  | ESubmit _ _ _ _ _ | EShutdown => True
  | EAppend r => r_success r = false
  | _ => False
  end.

(** The text has a character that is not white space. *)
Definition has_text (text : value) : bool :=
  match text with
  | VStr s => existsb (fun c => negb (isspace c)) s
  | _ => false
  end.

(** A response body that carries [text] where the program looks for it. *)
Definition body_with (text : value) : value :=
  VDict [(u "outputs",
     VList [VDict [(u "outputs",
        VList [VDict [(u "results",
           VDict [(u "message", VDict [(u "text", text)])])]])]])].

(** A thread environment with a clock that shows the number of its call. *)
Definition thread_env (polls : nat -> bool) (reply : http_result) : ThreadEnv :=
  {| te_is_set := polls;
     te_time := fun k => inject_Z (Z.of_nat k);
     te_http := reply |}.

(** A main-thread environment whose clock and [uuid4] show the number of
    their call. *)
Definition main_env (replies : Z -> nat -> http_result)
    (polls : Z -> nat -> nat -> bool) (order : Z -> list nat) : MainEnv :=
  {| me_time := fun k => inject_Z (Z.of_nat k);
     me_uuid4 := fun k => N.of_nat k;
     me_thread := fun attempt idx =>
                    thread_env (polls attempt idx) (replies attempt idx);
     me_order := order |}.

Definition good_reply (text : string) : http_result :=
  Response true (Some (body_with (VStr (u text)))).

(** The effects that follow the first [set()] of a trace. *)
Fixpoint after_set (tr : list effect) : list effect :=
  match tr with
  | [] => []
  | ESet _ :: rest => rest
  | _ :: rest => after_set rest
  end.

(** An event that is set [T] seconds after the worker started, as the
    worker's polls see it when every sleep lasts exactly as long as asked:
    the k-th poll (from 0) happens after [k] sleeps of half a second. *)
Definition signal_at (T : Q) : nat -> bool :=
  fun k => Qle_bool T (inject_Z (Z.of_nat k) * (1#2)).

(** The entry recorded for a finished worker (lines 152-159). *)
Definition entry_of (f : Future) (o : outcome) : result_entry :=
  ResultEntry (o_flow_id o) (o_success o) (o_message o) (o_elapsed o)
              (f_delay f) (o_elapsed o + f_delay f).

(** A future the scheduler passes over: cancelled, or not a success. *)
Definition passed_over (f : Future) : Prop :=
  exists o, f_result f = Ok o /\ (o_cancelled o = true \/ o_success o = false).

(** The entries of the futures of a list that were not cancelled. *)
Definition entries_of (fs : list Future) : list result_entry :=
  flat_map (fun f => match f_result f with
                     | Ok o => if o_cancelled o then [] else [entry_of f o]
                     | _ => []
                     end) fs.

(** Total time asked of [time.sleep] in a trace. *)
Definition slept (tr : list effect) : Q :=
  fold_right (fun e acc => match e with ESleep d => d + acc | _ => acc end) 0 tr.

(** The submissions of a trace: position, flow, session id, delay. *)
Definition submitted (tr : list effect) : list (nat * string * N * Q) :=
  flat_map (fun e => match e with
                     | ESubmit idx flow_id sid delay _ => [(idx, flow_id, sid, delay)]
                     | _ => []
                     end) tr.

Definition is_uuid4 (e : effect) : bool :=
  match e with EUuid4 _ => true | _ => false end.

(** A failure report of the loop: it counts no success, and its attempt
    number is one of the loop's. *)
Definition report_of (attempts : list Z) (e : effect) : Prop :=
  match e with
  | EReport attempt successes _ => successes = 0%nat /\ In attempt attempts
  | _ => True
  end.

(* ===================================================================== *)
(** ** The driver: [main] *)
(* ===================================================================== *)

(** ['exit', 'quit', 'q', 'ออก'] and ['config', 'c', 'ตั้งค่า'] *)
Definition exit_words : list str :=
  [u "exit"; u "quit"; u "q"; [3629; 3629; 3585]%N].

Definition config_words : list str :=
  [u "config"; u "c"; [3605; 3633; 3657; 3591; 3588; 3656; 3634]%N].

(** [s in words] *)
Definition str_in (s : str) (words : list str) : bool :=
  existsb (str_eqb s) words.

(** What one call of [input()] meets: a line, or Ctrl-C.  At the end of the
    input, [input()] raises [EOFError]. *)
Inductive console :=
| Line (s : str)
| CtrlC.

Definition EOFError : exc := OtherException "EOFError".
Definition ZeroDivisionError : exc := OtherException "ZeroDivisionError".

(** [a / b] *)
Definition py_div (a b : Q) : res Q :=
  if Qeq_bool b 0 then Raised ZeroDivisionError else Ok (a / b).

(** The [stats] dict. *)
Record Stats := {
  total_queries : nat;
  successful_queries : nat;
  total_time : Q
}.

(** What [main] shows, as far as its logic goes. *)
Inductive shown :=
| SAnswer (message : value)
| SFinalError (x : exc)
| SStatistics (total successful : nat) (success_rate avg_time : Q)
| SConfigUpdated (stagger_delay : Z)
| SConfigInvalid
| SEmptyWarning
| SGoodbye.

(** One call of [call_langflow_staggered_race] by [main]. *)
Record RaceCall := {
  rc_input : str;
  rc_stagger_delay : Z;
  rc_max_retries : Z;
  rc_retry_delay : Q
}.

(** The local state of [main], with a record of what it showed and of the
    races it ran. *)
Record Driver := {
  d_stagger_delay : Z;
  d_stats : Stats;
  d_shown : list shown;
  d_races : list RaceCall
}.

Definition show (x : shown) (st : Driver) : Driver :=
  {| d_stagger_delay := d_stagger_delay st; d_stats := d_stats st;
     d_shown := d_shown st ++ [x]; d_races := d_races st |}.

Definition KeyboardInterrupt : exc := OtherException "KeyboardInterrupt".
Definition UnicodeEncodeError : exc := OtherException "UnicodeEncodeError".

(** [isinstance(x, Exception)]: [KeyboardInterrupt] is a [BaseException]
    only, so [except Exception] lets it pass. *)
Definition is_Exception (x : exc) : bool :=
  match x with
  | OtherException name => negb (String.eqb name "KeyboardInterrupt")
  | _ => true
  end.

(** Where Ctrl-C can arrive in the course of one query, lines 272-295.
    Python raises [KeyboardInterrupt] in the main thread between two
    statements, or in a call that waits. *)
Inductive moment :=
| BeforeCount          (* before line 272 *)
| BeforeRace           (* after line 272, before the race is called *)
| DuringRace           (* lines 276-281, while the race runs *)
| AfterRace            (* the race has returned, before line 283 *)
| BeforeTime           (* after line 283, before line 284 *)
| BeforeAnswer         (* after line 284, before line 286 *)
| BeforeFinalError.    (* in the handler, before line 290 *)

Definition moment_eqb (a b : moment) : bool :=
  match a, b with
  | BeforeCount, BeforeCount | BeforeRace, BeforeRace
  | DuringRace, DuringRace | AfterRace, AfterRace
  | BeforeTime, BeforeTime | BeforeAnswer, BeforeAnswer
  | BeforeFinalError, BeforeFinalError => true
  | _, _ => false
  end.

(** The statements of one query: they read the moment at which Ctrl-C is
    to arrive, if it is, and change the state of [main]. *)
Definition Query := M (option moment) Driver.

(** A point of the query at which a pending Ctrl-C is raised. *)
Definition checkpoint (m : moment) : Query unit :=
  fun pending st =>
    match pending with
    | Some m' =>
        if moment_eqb m m' then (Raised KeyboardInterrupt, st) else (Ok tt, st)
    | None => (Ok tt, st)
    end.

(** [stats[...] += ...] *)
Definition update_stats (f : Stats -> Stats) : Query unit :=
  fun _ st =>
    (Ok tt,
     {| d_stagger_delay := d_stagger_delay st; d_stats := f (d_stats st);
        d_shown := d_shown st; d_races := d_races st |}).

(** [print(...)] of one of the program's own texts. *)
Definition print (x : shown) : Query unit := fun _ st => (Ok tt, show x st).

Section Main.

Variable FLOW_IDS : list string.

(** [str.lower] and [int(...)] of the Python run time; [py_int s = None]
    when [int(s)] raises [ValueError]. *)
Variable lower : str -> str.
Variable py_int : str -> option Z.

(** The outside world of the n-th query of the session (from 0).  Every
    query starts with fresh counters. *)
Variable race_env : nat -> MainEnv.

(** The moment at which Ctrl-C arrives during the n-th query, if it does. *)
Variable interrupt : nat -> option moment.

(** Whether the console can show an answer.  The answer is data of a
    backend: [print] raises [UnicodeEncodeError] for a text that the
    encoding of the console does not have (a lone surrogate under UTF-8,
    for one).  The texts of the program itself are taken to print: a
    console that cannot show them stops [main] at line 213. *)
Variable printable : value -> bool.

(** Lines 243-252: the statistics, shown when a query was made. *)
Definition show_statistics (st : Driver) : res Driver :=
  let stats := d_stats st in
  if (0 <? total_queries stats)%nat then
    rbind (py_div (inject_Z (Z.of_nat (successful_queries stats)))
                  (inject_Z (Z.of_nat (total_queries stats))))
      (fun ratio =>
         let success_rate := ratio * 100 in
         rbind (py_div (total_time stats)
                       (inject_Z (Z.of_nat (total_queries stats))))
           (fun avg_time =>
              Ok (show (SStatistics (total_queries stats)
                          (successful_queries stats) success_rate avg_time)
                       st)))
  else Ok st.

(** Lines 273-281: the clock is read and the race is called, with the
    stagger delay of the moment, three attempts and a cool-down of two
    seconds.  Ctrl-C while the race runs leaves it as
    [KeyboardInterrupt], which nothing in the race catches. *)
Definition race_call (user_input : str) : Query (value * string * Q) :=
  fun pending st =>
    let query := List.length (d_races st) in
    let call := {| rc_input := user_input;
                   rc_stagger_delay := d_stagger_delay st;
                   rc_max_retries := 3; rc_retry_delay := 2 |} in
    let st' :=
      {| d_stagger_delay := d_stagger_delay st; d_stats := d_stats st;
         d_shown := d_shown st; d_races := d_races st ++ [call] |} in
    let race :=
      (query_start <- time_time ;;
       call_langflow_staggered_race FLOW_IDS (rc_input call)
         (inject_Z (rc_stagger_delay call)) (rc_max_retries call)
         (rc_retry_delay call)) in
    match pending with
    | Some DuringRace => (Raised KeyboardInterrupt, st')
    | _ => (fst (race (race_env query) main_start), st')
    end.

(** Line 286: [print(f"... {message}")]. *)
Definition print_answer (message : value) : Query unit :=
  if printable message then print (SAnswer message)
  else raise UnicodeEncodeError.

(** Lines 271-295: one query. *)
Definition run_query (user_input : str) : Query unit :=
  checkpoint BeforeCount ;;;
  update_stats (fun stats =>
    {| total_queries := S (total_queries stats);
       successful_queries := successful_queries stats;
       total_time := total_time stats |}) ;;;
  checkpoint BeforeRace ;;;
  try_except
    (result <- race_call user_input ;;
     let '(message, winner_flow, elapsed) := result in
     checkpoint AfterRace ;;;
     update_stats (fun stats =>
       {| total_queries := total_queries stats;
          successful_queries := S (successful_queries stats);
          total_time := total_time stats |}) ;;;
     checkpoint BeforeTime ;;;
     update_stats (fun stats =>
       {| total_queries := total_queries stats;
          successful_queries := successful_queries stats;
          total_time := total_time stats + elapsed |}) ;;;
     checkpoint BeforeAnswer ;;;
     print_answer message)
    (fun e =>
       if is_Exception e                             (* except Exception as e *)
       then Some (checkpoint BeforeFinalError ;;; print (SFinalError e))
       else None).

(** Lines 238-299: the [while True] loop, over what the calls of [input()]
    meet.  [break] and the end of the input end it; so does
    [KeyboardInterrupt], wherever in the body of the loop it arrives.
    Outside a query, Ctrl-C leaves the counters as Ctrl-C at the next
    [input()] does, and is not told apart from it. *)
Fixpoint main_loop (inputs : list console) (st : Driver) : res unit * Driver :=
  match inputs with
  | [] => (Raised EOFError, st)
  | CtrlC :: _ => (Ok tt, show SGoodbye st)
  | Line raw :: rest =>
      let user_input := strip raw in
      if str_in (lower user_input) exit_words then
        match show_statistics st with
        | Ok st' => (Ok tt, show SGoodbye st')
        | Raised x => (Raised x, st)
        | OutOfFuel => (OutOfFuel, st)
        end
      else if str_in (lower user_input) config_words then
        match rest with
        | [] => (Raised EOFError, st)
        | CtrlC :: _ => (Ok tt, show SGoodbye st)
        | Line raw' :: rest' =>
            let new_delay := strip raw' in
            if truthy (VStr new_delay) then
              match py_int new_delay with
              | Some z =>
                  main_loop rest'
                    (show (SConfigUpdated z)
                       {| d_stagger_delay := z; d_stats := d_stats st;
                          d_shown := d_shown st; d_races := d_races st |})
              | None => main_loop rest' (show SConfigInvalid st)
              end
            else main_loop rest' st
        end
      else if negb (truthy (VStr user_input)) then
        main_loop rest (show SEmptyWarning st)
      else
        match run_query user_input (interrupt (List.length (d_races st))) st with
        | (Ok _, st') => main_loop rest st'
        | (Raised x, st') =>
            if is_Exception x then (Raised x, st')
            else (Ok tt, show SGoodbye st')          (* except KeyboardInterrupt *)
        | (OutOfFuel, st') => (OutOfFuel, st')
        end
  end.

(** [main()], lines 224-299: the stagger delay starts at 7, the statistics
    at zero. *)
Definition main (inputs : list console) : res unit * Driver :=
  main_loop inputs
    {| d_stagger_delay := 7;
       d_stats := {| total_queries := 0; successful_queries := 0;
                     total_time := 0 |};
       d_shown := []; d_races := [] |}.

End Main.

Definition is_answer (x : shown) : bool :=
  match x with SAnswer _ => true | _ => false end.

Definition is_final_error (x : shown) : bool :=
  match x with SFinalError _ => true | _ => false end.

(** The answers and the final errors that a session has shown. *)
Definition answers (st : Driver) : nat :=
  List.length (filter is_answer (d_shown st)).

Definition final_errors (st : Driver) : nat :=
  List.length (filter is_final_error (d_shown st)).

(** Statistics that make sense: at least one query, no more successes than
    queries, a rate between 0 and 100. *)
Definition statistics_ok (x : shown) : Prop :=
  match x with
  | SStatistics total successful success_rate _ =>
      (0 < total)%nat /\ (successful <= total)%nat
      /\ 0 <= success_rate /\ success_rate <= 100
  | _ => True
  end.

(** A race that the session can have asked for: three attempts, a cool-down
    of two seconds, a stagger delay that is 7 or a number read by [config],
    and as query a line, stripped, that is neither empty nor a command. *)
Definition call_from (lower : str -> str) (py_int : str -> option Z)
    (inputs : list console) (c : RaceCall) : Prop :=
  rc_max_retries c = 3%Z
  /\ rc_retry_delay c = 2
  /\ (rc_stagger_delay c = 7%Z
      \/ exists raw, In (Line raw) inputs
           /\ py_int (strip raw) = Some (rc_stagger_delay c))
  /\ exists raw, In (Line raw) inputs
       /\ rc_input c = strip raw
       /\ rc_input c <> []
       /\ str_in (lower (rc_input c)) exit_words = false
       /\ str_in (lower (rc_input c)) config_words = false.

(** What [main] keeps true of its state, wherever it stops. *)
Definition session_ok (lower : str -> str) (py_int : str -> option Z)
    (inputs : list console) (st : Driver) : Prop :=
  (successful_queries (d_stats st) <= total_queries (d_stats st))%nat
  /\ (List.length (d_races st) <= total_queries (d_stats st))%nat
  /\ (answers st <= successful_queries (d_stats st))%nat
  /\ (answers st + final_errors st <= total_queries (d_stats st))%nat
  /\ Forall statistics_ok (d_shown st)
  /\ Forall (call_from lower py_int inputs) (d_races st)
  /\ (d_stagger_delay st = 7%Z
      \/ exists raw, In (Line raw) inputs
           /\ py_int (strip raw) = Some (d_stagger_delay st)).

(** What is true between two queries: every query so far has run its race
    and has shown an answer or a final error. *)
Definition all_counted (st : Driver) : Prop :=
  total_queries (d_stats st) = List.length (d_races st)
  /\ total_queries (d_stats st) = (answers st + final_errors st)%nat.

(** Every success counted so far was shown as an answer. *)
Definition all_shown (st : Driver) : Prop :=
  successful_queries (d_stats st) = answers st.

(* ===================================================================== *)
(** ** Lemmas *)
(* ===================================================================== *)

(** *** Python strings *)

Lemma lstrip_nil_iff (s : str) : lstrip s = [] <-> forallb isspace s = true.
Proof.
  induction s as [|c r IH]; simpl.
  - tauto.
  - destruct (isspace c); simpl.
    + exact IH.
    + split; discriminate.
Qed.

Lemma lstrip_suffix (s : str) : exists p, s = p ++ lstrip s /\ forallb isspace p = true.
Proof.
  induction s as [|c r [p [E F]]]; simpl.
  - exists []. auto.
  - destruct (isspace c) eqn:Hc.
    + exists (c :: p). simpl. rewrite Hc, F. split; [f_equal; exact E | reflexivity].
    + exists []. auto.
Qed.

Lemma forallb_rev {A} (p : A -> bool) (l : list A) :
  forallb p (rev l) = forallb p l.
Proof.
  induction l as [|a l IH]; simpl; [reflexivity|].
  rewrite forallb_app, IH. simpl. rewrite andb_true_r. apply andb_comm.
Qed.

Lemma strip_nil_iff (s : str) : strip s = [] <-> forallb isspace s = true.
Proof.
  unfold strip, rstrip.
  destruct (lstrip_suffix s) as [p [E F]].
  split.
  - intros H.
    assert (H' : lstrip (rev (lstrip s)) = []).
    { destruct (lstrip (rev (lstrip s))) as [|c0 l0]; [reflexivity|].
      simpl in H. destruct (rev l0); discriminate. }
    apply lstrip_nil_iff in H'. rewrite forallb_rev in H'.
    rewrite E, forallb_app, F, H'. reflexivity.
  - intros H. apply lstrip_nil_iff in H. rewrite H. simpl. reflexivity.
Qed.

(** [s.strip()] is truthy exactly when [s] has a character that is not
    white space. *)
Lemma strip_truthy (s : str) :
  truthy (VStr (strip s)) = existsb (fun c => negb (isspace c)) s.
Proof.
  destruct (existsb (fun c => negb (isspace c)) s) eqn:E.
  - simpl. destruct (strip s) eqn:S; [|reflexivity].
    apply strip_nil_iff in S.
    apply existsb_exists in E. destruct E as [c [Hin Hc]].
    rewrite forallb_forall in S. rewrite (S c Hin) in Hc. discriminate.
  - assert (F : forallb isspace s = true).
    { apply forallb_forall. intros c Hin.
      destruct (isspace c) eqn:Hc; [reflexivity|].
      assert (X : existsb (fun c => negb (isspace c)) s = true).
      { apply existsb_exists. exists c. rewrite Hc. auto. }
      congruence. }
    apply strip_nil_iff in F. rewrite F. reflexivity.
Qed.

(** *** [extract_message_from_response] never raises *)


Lemma getitem_cases (v : value) (k : key) :
  (exists v', getitem v k = Ok v') \/ (exists x, getitem v k = Raised x /\ lookup_error x).
Proof.
  unfold lookup_error.
  destruct v, k; simpl; eauto 6.
  - destruct s; eauto 6.
  - destruct l; eauto 6.
  - destruct (dict_get d (u k)); eauto 6.
Qed.

Lemma subscripts_cases (path : list key) : forall v,
  (exists v', subscripts v path = Ok v')
  \/ (exists x, subscripts v path = Raised x /\ lookup_error x).
Proof.
  induction path as [|k rest IH]; intros v; simpl.
  - eauto.
  - destruct (getitem_cases v k) as [[v' E]|[x [E L]]]; rewrite E; simpl.
    + apply IH.
    + eauto.
Qed.

Lemma extract_total (data : value) :
  exists text, extract_message_from_response data = Ok text.
Proof.
  unfold extract_message_from_response.
  destruct (subscripts_cases message_path data) as [[v' E]|[x [E L]]];
    rewrite E; simpl.
  - eauto.
  - destruct L as [L|[L|L]]; subst x; eauto.
Qed.

(** *** The request *)


Ltac run_worker :=
  unfold send_request, try_except, bind, ret, raise, lift, th_time,
    requests_post, raise_for_status, response_json, th_emit; simpl.

Ltac trace_shape :=
  repeat split; simpl; rewrite <- ?app_assoc; simpl; try reflexivity;
  repeat constructor; unfold clock_reading; eauto.

Lemma send_request_spec flow_id input sid (env : ThreadEnv) (w : Thread) :
  exists o w' tr,
    send_request flow_id input sid env w = (Ok o, w')
    /\ th_polls w' = th_polls w
    /\ th_trace w' =
         th_trace w ++ ETime (te_time env (th_clock w))
                    :: EPost (BASE_URL ++ "/" ++ flow_id) input sid :: tr
    /\ Forall clock_reading tr
    /\ o_cancelled o = false
    /\ o_flow_id o = flow_id
    /\ o_success o = usable (te_http env)
    /\ o_message o = (if usable (te_http env) then reply_text (te_http env)
                      else VStr []).
Proof.
  unfold usable, reply_text.
  destruct (te_http env) as [x | ok body] eqn:H.
  - run_worker. rewrite H.
    destruct x; do 3 eexists; trace_shape.
  - destruct ok.
    + destruct body as [data|].
      * destruct (extract_total data) as [text E].
        run_worker. rewrite H. simpl. rewrite E.
        destruct (and_strip text) as [b| x |] eqn:A.
        -- destruct b; do 3 eexists; trace_shape.
        -- unfold and_strip in A.
           destruct (truthy text); [|discriminate].
           destruct text; inversion A; subst x; do 3 eexists; trace_shape.
        -- unfold and_strip in A.
           destruct (truthy text); [|discriminate].
           destruct text; discriminate.
      * run_worker. rewrite H. simpl. do 3 eexists; trace_shape.
    + run_worker. rewrite H. simpl. do 3 eexists; trace_shape.
Qed.


(** *** The polling loop *)

Lemma Qltb_true (x y : Q) : Qltb x y = true <-> x < y.
Proof.
  unfold Qltb. rewrite negb_true_iff.
  split; intros H.
  - apply Qnot_le_lt. intros L. apply Qle_bool_iff in L. congruence.
  - destruct (Qle_bool y x) eqn:E; [|reflexivity].
    apply Qle_bool_iff in E. lra.
Qed.

Lemma Qltb_false (x y : Q) : Qltb x y = false <-> y <= x.
Proof.
  unfold Qltb. rewrite negb_false_iff. apply Qle_bool_iff.
Qed.

Lemma inject_succ (n : nat) :
  inject_Z (Z.of_nat (S n)) == inject_Z (Z.of_nat n) + 1.
Proof.
  rewrite Nat2Z.inj_succ. unfold Z.succ. rewrite inject_Z_plus. reflexivity.
Qed.

Lemma short_sleep (delay waited : Q) :
  waited < delay ->
  0 < Qmin (1#2) (delay - waited) /\ Qmin (1#2) (delay - waited) <= 1#2.
Proof.
  intros H. split.
  - apply Q.min_glb_lt; lra.
  - apply Q.le_min_l.
Qed.

Lemma wait_loop_eq (n : nat) ev delay waited :
  wait_loop (S n) ev delay waited =
  (if Qltb waited delay then
     b <- match ev with Some e => is_set e | None => ret false end ;;
     if b then ret Cancelled
     else th_sleep (Qmin (1#2) (delay - waited)) ;;;
          wait_loop n ev delay (waited + (1#2))
   else ret Elapsed).
Proof. reflexivity. Qed.

#[local] Arguments wait_loop : simpl never.

Lemma wait_loop_spec : forall (n : nat) ev delay waited (env : ThreadEnv) w,
  (delay - waited) * 2 <= inject_Z (Z.of_nat n) ->
  exists r w' tr,
    wait_loop (S n) ev delay waited env w = (Ok r, w')
    /\ th_clock w' = th_clock w
    /\ th_trace w' = th_trace w ++ tr
    /\ Forall waiting tr
    /\ (r = Cancelled <-> exists id, In (EIsSet id true) tr)
    /\ (ev = None -> r = Elapsed /\ count is_poll tr = 0%nat).
Proof.
  induction n as [|m IH]; intros ev delay waited env w B.
  - assert (F : Qltb waited delay = false).
    { apply Qltb_false. change (inject_Z (Z.of_nat 0)) with 0 in B. lra. }
    rewrite wait_loop_eq, F. exists Elapsed, w, []. unfold ret.
    rewrite app_nil_r. repeat split; auto; try discriminate.
    intros [id []].
  - rewrite wait_loop_eq.
    destruct (Qltb waited delay) eqn:L.
    + apply Qltb_true in L.
      assert (B' : (delay - (waited + (1#2))) * 2 <= inject_Z (Z.of_nat m)).
      { rewrite inject_succ in B. lra. }
      destruct ev as [e|].
      * unfold bind at 1. unfold is_set at 1.
        destruct (te_is_set env (th_polls w)) eqn:P.
        -- exists Cancelled. do 2 eexists. unfold ret.
           split; [reflexivity|]. simpl.
           repeat split; auto.
           ++ repeat constructor.
           ++ intros _. exists e. simpl. auto.
           ++ discriminate.
           ++ discriminate.
        -- unfold bind, th_sleep, th_emit. simpl.
           destruct (IH (Some e) delay (waited + (1#2)) env
                       {| th_polls := S (th_polls w); th_clock := th_clock w;
                          th_trace := (th_trace w ++ [EIsSet e false])
                                      ++ [ESleep (Qmin (1#2) (delay - waited))] |} B')
             as (r & w' & tr & E & C & T & F & K & _).
           rewrite E. exists r, w'.
           exists (EIsSet e false :: ESleep (Qmin (1#2) (delay - waited)) :: tr).
           simpl in C, T.
           split; [reflexivity|]. split; [exact C|].
           split; [rewrite T, <- !app_assoc; reflexivity|].
           split; [constructor; [exact I | constructor; [apply short_sleep; exact L | exact F]]|].
           split; [|discriminate].
           rewrite K. split; intros [id H]; exists id.
           ++ simpl. auto.
           ++ simpl in H. destruct H as [H|[H|H]]; [discriminate|discriminate|exact H].
      * unfold bind, ret, th_sleep, th_emit. simpl.
        destruct (IH None delay (waited + (1#2)) env
                    {| th_polls := th_polls w; th_clock := th_clock w;
                       th_trace := th_trace w
                                   ++ [ESleep (Qmin (1#2) (delay - waited))] |} B')
          as (r & w' & tr & E & C & T & F & K & N).
        rewrite E. exists r, w'.
        exists (ESleep (Qmin (1#2) (delay - waited)) :: tr).
        simpl in C, T. destruct (N eq_refl) as [N1 N2].
        split; [reflexivity|]. split; [exact C|].
        split; [rewrite T, <- !app_assoc; reflexivity|].
        split; [constructor; [apply short_sleep; exact L | exact F]|].
        split.
        -- rewrite K. split; intros [id H]; exists id.
           ++ simpl. auto.
           ++ simpl in H. destruct H as [H|H]; [discriminate|exact H].
        -- intros _. split; [exact N1|]. unfold count in *. simpl. exact N2.
    + exists Elapsed, w, []. unfold ret.
      rewrite app_nil_r. repeat split; auto; try discriminate.
      intros [id []].
Qed.

(** When no poll that the loop makes sees the signal, the wait runs to its
    end. *)
Lemma wait_loop_unseen : forall (n : nat) ev delay waited (env : ThreadEnv) w,
  (delay - waited) * 2 <= inject_Z (Z.of_nat n) ->
  (forall k : nat,
      inject_Z (Z.of_nat k) * (1#2) + waited < delay ->
      te_is_set env (th_polls w + k) = false) ->
  fst (wait_loop (S n) ev delay waited env w) = Ok Elapsed.
Proof.
  induction n as [|m IH]; intros ev delay waited env w B U.
  - assert (F : Qltb waited delay = false).
    { apply Qltb_false. change (inject_Z (Z.of_nat 0)) with 0 in B. lra. }
    rewrite wait_loop_eq, F. reflexivity.
  - rewrite wait_loop_eq.
    destruct (Qltb waited delay) eqn:L; [|reflexivity].
    apply Qltb_true in L.
    assert (B' : (delay - (waited + (1#2))) * 2 <= inject_Z (Z.of_nat m)).
    { rewrite inject_succ in B. lra. }
    destruct ev as [e|].
    + unfold bind at 1. unfold is_set at 1.
      assert (P : te_is_set env (th_polls w) = false).
      { rewrite <- (Nat.add_0_r (th_polls w)). apply U. change (inject_Z (Z.of_nat 0)) with 0. lra. }
      rewrite P. unfold bind, th_sleep, th_emit. simpl.
      apply IH; [exact B'|]. simpl. intros k Hk.
      replace (S (th_polls w + k)) with (th_polls w + S k)%nat by lia.
      apply U. rewrite inject_succ. lra.
    + unfold bind, ret, th_sleep, th_emit. simpl.
      apply IH; [exact B'|]. simpl. intros k Hk.
      apply U. lra.
Qed.

Lemma poll_count_enough (delay : Q) :
  0 < delay -> (delay - 0) * 2 <= inject_Z (Z.of_nat (poll_count delay)).
Proof.
  intros H. unfold poll_count.
  pose proof (Qle_ceiling (delay * 2)) as C.
  rewrite Z2Nat.id.
  - lra.
  - destruct (Z_lt_le_dec (Qceiling (delay * 2)) 0) as [N|N]; [|exact N].
    exfalso. assert (inject_Z (Qceiling (delay * 2)) < 0).
    { rewrite <- (Zlt_Qlt _ 0). exact N. }
    lra.
Qed.


(** *** Counting in traces *)

Lemma count_app (p : effect -> bool) (a b : list effect) :
  count p (a ++ b) = (count p a + count p b)%nat.
Proof. unfold count. rewrite filter_app, length_app. reflexivity. Qed.

Lemma waiting_is_worker_effect (tr : list effect) :
  Forall waiting tr -> Forall worker_effect tr.
Proof.
  apply Forall_impl. intros [] H; simpl in *; auto.
Qed.

Lemma clock_is_worker_effect (tr : list effect) :
  Forall clock_reading tr -> Forall worker_effect tr.
Proof.
  apply Forall_impl. intros e [t ->]. exact I.
Qed.

Lemma waiting_no_post (tr : list effect) :
  Forall waiting tr -> count is_post tr = 0%nat.
Proof.
  unfold count. induction 1 as [|e tr H _ IH]; [reflexivity|].
  destruct e; simpl in *; auto; contradiction.
Qed.

Lemma clock_counts (p : effect -> bool) (tr : list effect) :
  (forall t, p (ETime t) = false) ->
  Forall clock_reading tr -> count p tr = 0%nat /\ existsb p tr = false.
Proof.
  intros P. unfold count. induction 1 as [|e tr [t ->] _ [IH1 IH2]]; [auto|].
  simpl. rewrite P. auto.
Qed.

Lemma seen_iff (tr : list effect) :
  existsb saw_signal tr = true <-> exists id, In (EIsSet id true) tr.
Proof.
  rewrite existsb_exists. split.
  - intros [e [Hin S]]. destruct e; try discriminate. simpl in S. subst b. eauto.
  - intros [id H]. exists (EIsSet id true). auto.
Qed.

(** *** The worker as a whole *)

Lemma worker_spec flow_id input sid delay ev (env : ThreadEnv) (w : Thread) :
  exists o w' tr,
    call_single_flow_with_delay flow_id input sid delay ev env w = (Ok o, w')
    /\ th_trace w' = th_trace w ++ tr
    /\ Forall worker_effect tr
    /\ o_flow_id o = flow_id
    /\ o_cancelled o = existsb saw_signal tr
    /\ count is_post tr = (if o_cancelled o then 0 else 1)%nat
    /\ o_success o = negb (o_cancelled o) && usable (te_http env)
    /\ o_message o = (if o_success o then reply_text (te_http env) else VStr []).
Proof.
  unfold call_single_flow_with_delay.
  destruct (Qltb 0 delay) eqn:D.
  - apply Qltb_true in D.
    destruct (wait_loop_spec (poll_count delay) ev delay 0 env w
                (poll_count_enough delay D))
      as (r & w1 & tr & E & _ & T & F & K & _).
    unfold bind at 1. rewrite E.
    destruct r.
    + exists (Outcome false flow_id (VStr []) 0 true), w1, tr. unfold ret.
      simpl. split; [reflexivity|]. split; [exact T|].
      split; [apply waiting_is_worker_effect; exact F|].
      split; [reflexivity|].
      split; [symmetry; apply seen_iff, K; reflexivity|].
      split; [apply waiting_no_post; exact F|]. auto.
    + destruct (send_request_spec flow_id input sid env w1)
        as (o & w2 & tr2 & E2 & _ & T2 & F2 & C2 & I2 & S2 & M2).
      rewrite E2. exists o, w2.
      exists (tr ++ ETime (te_time env (th_clock w1))
                 :: EPost (BASE_URL ++ "/" ++ flow_id) input sid :: tr2).
      assert (N : existsb saw_signal tr = false).
      { destruct (existsb saw_signal tr) eqn:X; [|reflexivity].
        apply seen_iff, K in X. discriminate. }
      split; [reflexivity|].
      split; [rewrite T2, T, <- app_assoc; reflexivity|].
      split.
      { apply Forall_app. split; [apply waiting_is_worker_effect; exact F|].
        repeat constructor. apply clock_is_worker_effect; exact F2. }
      split; [exact I2|].
      split.
      { rewrite existsb_app, N. simpl.
        rewrite (proj2 (clock_counts saw_signal tr2 (fun _ => eq_refl) F2)).
        exact C2. }
      split.
      { rewrite C2, count_app, (waiting_no_post tr F). unfold count. simpl.
        f_equal. apply (clock_counts is_post tr2 (fun _ => eq_refl) F2). }
      rewrite S2, C2. simpl. split; [reflexivity|].
      rewrite M2. reflexivity.
  - unfold bind at 1. unfold ret at 1.
    destruct (send_request_spec flow_id input sid env w)
      as (o & w2 & tr2 & E2 & _ & T2 & F2 & C2 & I2 & S2 & M2).
    rewrite E2. exists o, w2.
    exists (ETime (te_time env (th_clock w))
              :: EPost (BASE_URL ++ "/" ++ flow_id) input sid :: tr2).
    split; [reflexivity|]. split; [exact T2|].
    split; [repeat constructor; apply clock_is_worker_effect; exact F2|].
    split; [exact I2|].
    split.
    { simpl. rewrite (proj2 (clock_counts saw_signal tr2 (fun _ => eq_refl) F2)).
      exact C2. }
    split.
    { rewrite C2. unfold count. simpl.
      f_equal. apply (clock_counts is_post tr2 (fun _ => eq_refl) F2). }
    rewrite S2, C2. simpl. split; [reflexivity|].
    rewrite M2. reflexivity.
Qed.


(** *** The loop over the completed futures *)

Lemma extend_nil (w : Main) : extend w [] = w.
Proof. destruct w. unfold extend. simpl. rewrite app_nil_r. reflexivity. Qed.

Lemma extend_extend (w : Main) (a b : list effect) :
  extend (extend w a) b = extend w (a ++ b).
Proof. unfold extend. simpl. rewrite app_assoc. reflexivity. Qed.

Lemma emit_eq (e : effect) (env : MainEnv) (w : Main) :
  emit e env w = (Ok tt, extend w [e]).
Proof. reflexivity. Qed.

Section Observe.

Variables (overall_start : Q) (winner_event : Event) (env : MainEnv).

Lemma observe_passed_over : forall (fs : list Future) acc (w : Main),
  Forall passed_over fs ->
  observe fs overall_start winner_event acc false env w =
  (Ok (Fallthrough (acc ++ entries_of fs)),
   extend w (map EAppend (entries_of fs))).
Proof.
  induction fs as [|f rest IH]; intros acc w P.
  - simpl. unfold ret. rewrite app_nil_r, extend_nil. reflexivity.
  - inversion P as [|? ? [o [R C]] P']; subst.
    unfold entries_of in *. simpl. unfold bind at 1, lift at 1. rewrite R.
    destruct (o_cancelled o) eqn:X.
    + simpl. apply IH. exact P'.
    + destruct C as [C|C]; [discriminate|].
      unfold bind at 1. rewrite emit_eq, C. simpl.
      rewrite IH by exact P'.
      rewrite extend_extend, <- app_assoc. unfold entry_of. rewrite C.
      reflexivity.
Qed.

Lemma observe_first_success : forall (pre : list Future) f post o acc (w : Main),
  Forall passed_over pre ->
  f_result f = Ok o -> o_cancelled o = false -> o_success o = true ->
  observe (pre ++ f :: post) overall_start winner_event acc false env w =
  (Ok (Returned (o_message o) (o_flow_id o)
                (me_time env (mw_clock w) - overall_start)),
   {| mw_clock := S (mw_clock w); mw_uuids := mw_uuids w;
      mw_events := set_flag (mw_events w) winner_event;
      mw_threads := mw_threads w;
      mw_trace := mw_trace w
                  ++ map EAppend (entries_of pre)
                  ++ [EAppend (entry_of f o); ESet winner_event;
                      ETime (me_time env (mw_clock w)); ESleep (1#2)] |}).
Proof.
  induction pre as [|g rest IH]; intros f post o acc w P R X S.
  - simpl. unfold bind at 1, lift at 1. rewrite R, X.
    unfold bind at 1. rewrite emit_eq, S. simpl.
    unfold bind, Event_set, time_time, sleep, emit, ret, extend. simpl.
    rewrite <- !app_assoc. unfold entry_of. rewrite S. reflexivity.
  - inversion P as [|? ? [o' [R' C]] P']; subst.
    unfold entries_of in *. simpl. unfold bind at 1, lift at 1. rewrite R'.
    destruct (o_cancelled o') eqn:X'.
    + simpl. apply IH; assumption.
    + destruct C as [C|C]; [discriminate|].
      unfold bind at 1. rewrite emit_eq, C. simpl.
      rewrite (IH f post o _ _ P' R X S). unfold extend. simpl.
      rewrite <- !app_assoc. unfold entry_of. rewrite C. reflexivity.
Qed.

End Observe.

(** Either no future of a list is a success, or there is a first one. *)
Lemma first_success (fs : list Future) :
  Forall (fun f => exists o, f_result f = Ok o) fs ->
  Forall passed_over fs
  \/ exists pre f post o,
       fs = pre ++ f :: post /\ Forall passed_over pre
       /\ f_result f = Ok o /\ o_cancelled o = false /\ o_success o = true.
Proof.
  induction 1 as [|f rest [o R] _ IH].
  - left. constructor.
  - destruct (o_cancelled o) eqn:X.
    + destruct IH as [IH|(pre & g & post & o' & E & P & R' & X' & S')].
      * left. constructor; [exists o; auto | exact IH].
      * right. exists (f :: pre), g, post, o'. subst rest.
        repeat split; auto. constructor; [exists o; auto | exact P].
    + destruct (o_success o) eqn:S.
      * right. exists [], f, rest, o. repeat split; auto.
      * destruct IH as [IH|(pre & g & post & o' & E & P & R' & X' & S')].
        -- left. constructor; [exists o; auto | exact IH].
        -- right. exists (f :: pre), g, post, o'. subst rest.
           repeat split; auto. constructor; [exists o; auto | exact P].
Qed.

(** *** One attempt *)

Lemma set_flag_last (flags : list bool) :
  set_flag (flags ++ [false]) (List.length flags) = flags ++ [true].
Proof.
  induction flags as [|b r IH]; simpl; [reflexivity|]. rewrite IH. reflexivity.
Qed.

Lemma in_order_In (order : list nat) (futures : list Future) (f : Future) :
  In f (in_order order futures) -> In f futures.
Proof.
  unfold in_order. rewrite in_flat_map. intros [i [_ H]].
  destruct (nth_error futures i) as [g|] eqn:E; [|contradiction].
  destruct H as [<-|[]]. eapply nth_error_In. exact E.
Qed.

Section RaceFacts.

Variable FLOW_IDS : list string.
Hypothesis flows_configured : FLOW_IDS <> [].
Variable input_message : str.
Variables (stagger_delay : Q) (max_retries : Z) (retry_delay : Q).

Lemma submit_all_spec : forall flows attempt idx sid ev (env : MainEnv) (w : Main),
  submit_all input_message stagger_delay attempt flows idx sid ev env w =
  (Ok (futures_from input_message stagger_delay env attempt flows idx sid ev),
   {| mw_clock := mw_clock w; mw_uuids := mw_uuids w;
      mw_events := mw_events w;
      mw_threads := mw_threads w ++ started input_message stagger_delay env attempt flows idx sid ev;
      mw_trace := mw_trace w ++ submissions stagger_delay flows idx sid ev |}).
Proof.
  induction flows as [|flow_id rest IH]; intros attempt idx sid ev env w.
  - simpl. unfold ret. rewrite !app_nil_r. destruct w; reflexivity.
  - cbn [submit_all futures_from started submissions].
    unfold bind at 1. unfold submit at 1. cbn beta iota zeta.
    unfold bind at 1. rewrite IH. unfold ret.
    cbn [mw_clock mw_uuids mw_events mw_threads mw_trace].
    rewrite <- !app_assoc. reflexivity.
Qed.

Lemma executor_ok (env : MainEnv) (w : Main) :
  ThreadPoolExecutor (List.length FLOW_IDS) env w = (Ok tt, w).
Proof.
  destruct FLOW_IDS; [contradiction|]. reflexivity.
Qed.

(** Every future holds an outcome: the worker returned. *)
Lemma future_of_ok env attempt idx flow_id sid delay ev :
  exists o,
    f_result (future_of input_message env attempt idx flow_id sid delay ev) = Ok o
    /\ o_flow_id o = flow_id
    /\ o_success o =
         negb (o_cancelled o) && usable (te_http (me_thread env attempt idx)).
Proof.
  unfold future_of. simpl.
  destruct (worker_spec flow_id input_message sid delay (Some ev)
              (me_thread env attempt idx) thread_start)
    as (o & w' & tr & E & _ & _ & I & _ & _ & S & _).
  rewrite E. exists o. auto.
Qed.

Lemma futures_from_ok : forall flows env attempt idx sid ev,
  Forall (fun f => exists o, f_result f = Ok o)
         (futures_from input_message stagger_delay env attempt flows idx sid ev).
Proof.
  induction flows as [|flow_id rest IH]; intros; simpl; constructor.
  - destruct (future_of_ok env attempt idx flow_id sid (stagger stagger_delay idx) ev)
      as (o & R & _). exists o. exact R.
  - apply IH.
Qed.

Lemma completed_of_ok env attempt sid ev :
  Forall (fun f => exists o, f_result f = Ok o) (completed_of FLOW_IDS input_message stagger_delay env attempt sid ev).
Proof.
  apply Forall_forall. intros f H. apply in_order_In in H.
  pose proof (futures_from_ok FLOW_IDS env attempt 0 sid ev) as F.
  rewrite Forall_forall in F. apply F. exact H.
Qed.

Lemma run_attempt_no_success attempt sid (env : MainEnv) (w : Main) :
  let ev := List.length (mw_events w) in
  let fs := completed_of FLOW_IDS input_message stagger_delay env attempt sid ev in
  Forall passed_over fs ->
  run_attempt FLOW_IDS input_message stagger_delay attempt sid env w =
  (Ok (Fallthrough (entries_of fs)),
   {| mw_clock := S (mw_clock w); mw_uuids := mw_uuids w;
      mw_events := mw_events w ++ [false];
      mw_threads := mw_threads w ++ started input_message stagger_delay env attempt FLOW_IDS 0 sid ev;
      mw_trace := mw_trace w ++ opening FLOW_IDS stagger_delay env w sid
                  ++ map EAppend (entries_of fs) ++ [EShutdown] |}).
Proof.
  intros ev fs P.
  unfold run_attempt, with_executor.
  unfold bind at 1, time_time at 1. unfold bind at 1, Event_new at 1.
  cbn [mw_events mw_clock mw_uuids mw_threads mw_trace].
  unfold bind at 1. rewrite executor_ok.
  unfold bind at 1. rewrite submit_all_spec.
  unfold bind at 1, as_completed at 1.
  fold (completed_of FLOW_IDS input_message stagger_delay env attempt sid ev). fold fs.
  rewrite (observe_passed_over _ _ _ fs [] _ P).
  unfold extend, emit, opening. simpl. fold ev.
  rewrite <- !app_assoc. reflexivity.
Qed.

Lemma run_attempt_first_success attempt sid (env : MainEnv) (w : Main)
    pre f post o :
  let ev := List.length (mw_events w) in
  completed_of FLOW_IDS input_message stagger_delay env attempt sid ev = pre ++ f :: post ->
  Forall passed_over pre ->
  f_result f = Ok o -> o_cancelled o = false -> o_success o = true ->
  run_attempt FLOW_IDS input_message stagger_delay attempt sid env w =
  (Ok (Returned (o_message o) (o_flow_id o)
                (me_time env (S (mw_clock w)) - me_time env (mw_clock w))),
   {| mw_clock := S (S (mw_clock w)); mw_uuids := mw_uuids w;
      mw_events := mw_events w ++ [true];
      mw_threads := mw_threads w ++ started input_message stagger_delay env attempt FLOW_IDS 0 sid ev;
      mw_trace := mw_trace w ++ opening FLOW_IDS stagger_delay env w sid
                  ++ map EAppend (entries_of pre)
                  ++ [EAppend (entry_of f o); ESet ev;
                      ETime (me_time env (S (mw_clock w)));
                      ESleep (1#2); EShutdown] |}).
Proof.
  intros ev C P R X S.
  unfold run_attempt, with_executor.
  unfold bind at 1, time_time at 1. unfold bind at 1, Event_new at 1.
  cbn [mw_events mw_clock mw_uuids mw_threads mw_trace].
  unfold bind at 1. rewrite executor_ok.
  unfold bind at 1. rewrite submit_all_spec.
  unfold bind at 1, as_completed at 1.
  unfold completed_of in C. subst ev. rewrite C.
  rewrite (observe_first_success _ _ _ pre f post o [] _ P R X S).
  unfold emit, opening. simpl. rewrite set_flag_last.
  rewrite <- ?app_assoc. simpl. rewrite <- ?app_assoc. reflexivity.
Qed.

Lemma count_none (p : effect -> bool) (tr : list effect) :
  Forall (fun e => p e = false) tr -> count p tr = 0%nat.
Proof.
  unfold count. induction 1 as [|e tr H _ IH]; simpl; [reflexivity|].
  rewrite H. exact IH.
Qed.

Lemma count_appends (p : effect -> bool) (l : list result_entry) :
  (forall r, p (EAppend r) = false) -> count p (map EAppend l) = 0%nat.
Proof.
  intros H. apply count_none, Forall_forall. intros e Hin.
  apply in_map_iff in Hin. destruct Hin as [r [<- _]]. apply H.
Qed.

Lemma count_submissions (p : effect -> bool) : forall flows idx sid ev,
  (forall i f s d e, p (ESubmit i f s d e) = false) ->
  count p (submissions stagger_delay flows idx sid ev) = 0%nat.
Proof.
  intros flows idx sid ev H. apply count_none.
  revert idx. induction flows as [|f r IH]; intros idx; simpl; constructor.
  - apply H.
  - apply IH.
Qed.

Lemma started_length : forall flows env attempt idx sid ev,
  List.length (started input_message stagger_delay env attempt flows idx sid ev)
  = List.length flows.
Proof.
  induction flows as [|f r IH]; intros; simpl; [reflexivity|].
  rewrite IH. reflexivity.
Qed.

Lemma count_cons (p : effect -> bool) (e : effect) (tr : list effect) :
  count p (e :: tr) = ((if p e then 1 else 0) + count p tr)%nat.
Proof. unfold count. simpl. destruct (p e); reflexivity. Qed.

Lemma count_nil (p : effect -> bool) : count p [] = 0%nat.
Proof. reflexivity. Qed.

Ltac count_trace :=
  unfold opening;
  rewrite ?count_app, ?count_cons, ?count_nil, ?count_submissions,
    ?count_appends by reflexivity;
  reflexivity.

(** What every attempt does, whatever the environment: it ends normally,
    creates one event, and sets it exactly when it returns a result. *)
Lemma run_attempt_cases attempt sid (env : MainEnv) (w : Main) :
  exists exit w' tr,
    run_attempt FLOW_IDS input_message stagger_delay attempt sid env w
    = (Ok exit, w')
    /\ mw_trace w' = mw_trace w ++ tr
    /\ mw_uuids w' = mw_uuids w
    /\ List.length (mw_threads w')
       = (List.length (mw_threads w) + List.length FLOW_IDS)%nat
    /\ count is_new_event tr = 1%nat
    /\ count is_set_call tr
       = match exit with Returned _ _ _ => 1%nat | Fallthrough _ => 0%nat end
    /\ mw_events w'
       = mw_events w
         ++ [match exit with Returned _ _ _ => true | Fallthrough _ => false end].
Proof.
  pose (ev := List.length (mw_events w)).
  destruct (first_success _ (completed_of_ok env attempt sid ev))
    as [P|(pre & f & post & o & C & P & R & X & S)].
  - rewrite (run_attempt_no_success attempt sid env w P).
    do 3 eexists. split; [reflexivity|].
    cbn [mw_trace mw_uuids mw_threads mw_events].
    split; [reflexivity|]. split; [reflexivity|].
    split; [rewrite length_app, started_length; reflexivity|].
    split; [count_trace|]. split; [count_trace|reflexivity].
  - rewrite (run_attempt_first_success attempt sid env w pre f post o C P R X S).
    do 3 eexists. split; [reflexivity|].
    cbn [mw_trace mw_uuids mw_threads mw_events].
    split; [reflexivity|]. split; [reflexivity|].
    split; [rewrite length_app, started_length; reflexivity|].
    split; [count_trace|]. split; [count_trace|reflexivity].
Qed.

(** *** The retry loop *)

Lemma after_failure_eq attempt sid all (env : MainEnv) (w : Main) :
  after_failure max_retries retry_delay attempt sid all env w =
  (Ok (if (attempt <? max_retries)%Z then me_uuid4 env (mw_uuids w) else sid),
   {| mw_clock := S (mw_clock w);
      mw_uuids := (if (attempt <? max_retries)%Z
                   then S (mw_uuids w) else mw_uuids w);
      mw_events := mw_events w; mw_threads := mw_threads w;
      mw_trace := mw_trace w
                  ++ ETime (me_time env (mw_clock w))
                  :: EReport attempt (success_count all) (List.length all)
                  :: (if (attempt <? max_retries)%Z
                      then [ESleep retry_delay; EUuid4 (me_uuid4 env (mw_uuids w))]
                      else []) |}).
Proof.
  unfold after_failure, bind, time_time, emit, sleep, uuid4, ret.
  destruct (attempt <? max_retries)%Z; simpl;
    rewrite <- ?app_assoc; reflexivity.
Qed.

Lemma futures_from_In : forall flows env attempt idx sid ev f,
  In f (futures_from input_message stagger_delay env attempt flows idx sid ev) ->
  exists i flow_id,
    (idx <= i < idx + List.length flows)%nat
    /\ f = future_of input_message env attempt i flow_id sid
                     (stagger stagger_delay i) ev.
Proof.
  induction flows as [|flow_id rest IH]; intros env attempt idx sid ev f H.
  - destruct H.
  - destruct H as [<-|H].
    + exists idx, flow_id. simpl. split; [lia | reflexivity].
    + destruct (IH _ _ _ _ _ _ H) as (i & g & B & E).
      exists i, g. simpl. split; [lia | exact E].
Qed.

Lemma all_fail_passed_over env attempt sid ev :
  all_fail FLOW_IDS env attempt ->
  Forall passed_over
         (completed_of FLOW_IDS input_message stagger_delay env attempt sid ev).
Proof.
  intros A. apply Forall_forall. intros f H.
  apply in_order_In, futures_from_In in H.
  destruct H as (i & flow_id & B & ->).
  destruct (future_of_ok env attempt i flow_id sid (stagger stagger_delay i) ev)
    as (o & R & _ & S).
  exists o. split; [exact R|]. right.
  rewrite S, A by lia. apply andb_false_r.
Qed.

Lemma passed_over_no_success (fs : list Future) :
  Forall passed_over fs -> success_count (entries_of fs) = 0%nat.
Proof.
  unfold success_count, entries_of.
  induction 1 as [|f rest [o [R C]] _ IH]; [reflexivity|].
  simpl. rewrite R.
  destruct (o_cancelled o) eqn:X; simpl; [exact IH|].
  destruct C as [C|C]; [discriminate|]. unfold entry_of. simpl. rewrite C. exact IH.
Qed.

(** A turn of the loop in which no request brings a usable answer. *)
Lemma failed_turn attempt rest sid (env : MainEnv) (w : Main) :
  all_fail FLOW_IDS env attempt ->
  exists all w1 w2,
    run_attempt FLOW_IDS input_message stagger_delay attempt sid env w
    = (Ok (Fallthrough all), w1)
    /\ after_failure max_retries retry_delay attempt sid all env w1
       = (Ok (if (attempt <? max_retries)%Z
              then me_uuid4 env (mw_uuids w) else sid), w2)
    /\ retry_loop FLOW_IDS input_message stagger_delay max_retries retry_delay
                  (attempt :: rest) sid env w
       = retry_loop FLOW_IDS input_message stagger_delay max_retries retry_delay
                    rest
                    (if (attempt <? max_retries)%Z
                     then me_uuid4 env (mw_uuids w) else sid) env w2
    /\ mw_trace w2
       = mw_trace w1
         ++ ETime (me_time env (mw_clock w1))
         :: EReport attempt 0 (List.length all)
         :: (if (attempt <? max_retries)%Z
             then [ESleep retry_delay; EUuid4 (me_uuid4 env (mw_uuids w))]
             else [])
    /\ mw_uuids w2 = (if (attempt <? max_retries)%Z
                      then S (mw_uuids w) else mw_uuids w)
    /\ count is_new_event (mw_trace w2) = S (count is_new_event (mw_trace w))
    /\ List.length (mw_threads w2)
       = (List.length (mw_threads w) + List.length FLOW_IDS)%nat.
Proof.
  intros A.
  pose proof (all_fail_passed_over env attempt sid (List.length (mw_events w)) A) as P.
  pose proof (passed_over_no_success _ P) as Z.
  pose proof (run_attempt_no_success attempt sid env w P) as E.
  do 3 eexists. split; [exact E|].
  split; [rewrite after_failure_eq; reflexivity|].
  split.
  { cbn [retry_loop]. unfold bind at 1. rewrite E.
    unfold bind at 1. rewrite after_failure_eq. reflexivity. }
  cbn [mw_trace mw_uuids mw_threads mw_clock].
  split; [rewrite Z; reflexivity|]. split; [reflexivity|].
  split.
  - rewrite !count_app, !count_cons.
    destruct (attempt <? max_retries)%Z; unfold opening;
      rewrite ?count_app, ?count_cons, ?count_nil, ?count_submissions,
        ?count_appends by reflexivity; simpl; lia.
  - rewrite length_app, started_length. reflexivity.
Qed.

#[local] Abbreviation race_loop :=
  (retry_loop FLOW_IDS input_message stagger_delay max_retries retry_delay).

(** When no turn brings a usable answer, the loop runs through all its
    attempts and ends in the final [raise]. *)
Lemma retry_exhausted : forall attempts sid (env : MainEnv) (w : Main),
  (forall a, In a attempts -> all_fail FLOW_IDS env a) ->
  exists w',
    race_loop attempts sid env w
    = (Raised (AllFlowsFailed max_retries (Z.of_nat (List.length FLOW_IDS))
                 (Z.of_nat (List.length FLOW_IDS) * max_retries)), w')
    /\ count is_new_event (mw_trace w')
       = (count is_new_event (mw_trace w) + List.length attempts)%nat
    /\ List.length (mw_threads w')
       = (List.length (mw_threads w)
          + List.length attempts * List.length FLOW_IDS)%nat.
Proof.
  induction attempts as [|a rest IH]; intros sid env w A.
  - exists w. simpl. unfold raise. repeat split; lia.
  - destruct (failed_turn a rest sid env w (A a (or_introl eq_refl)))
      as (all & w1 & w2 & _ & _ & E & _ & _ & C & T).
    destruct (IH (if (a <? max_retries)%Z then me_uuid4 env (mw_uuids w) else sid)
                 env w2 (fun b H => A b (or_intror H)))
      as (w' & E' & C' & T').
    exists w'. rewrite E, E'. split; [reflexivity|].
    rewrite C', C, T', T. simpl. split; lia.
Qed.

(** After a run of failed attempts that are not the last one, the loop goes
    on with the most recent [uuid4()]. *)
Lemma retry_prefix : forall pre rest sid (env : MainEnv) (w : Main),
  (forall a, In a pre -> all_fail FLOW_IDS env a /\ (a < max_retries)%Z) ->
  exists w',
    race_loop (pre ++ rest) sid env w
    = race_loop rest
        (match pre with
         | [] => sid
         | _ => me_uuid4 env (mw_uuids w + List.length pre - 1)
         end) env w'
    /\ mw_uuids w' = (mw_uuids w + List.length pre)%nat.
Proof.
  induction pre as [|a pre' IH]; intros rest sid env w A.
  - exists w. simpl. split; [reflexivity | lia].
  - destruct (A a (or_introl eq_refl)) as [Fa La].
    apply Z.ltb_lt in La.
    destruct (failed_turn a (pre' ++ rest) sid env w Fa)
      as (all & w1 & w2 & _ & _ & E & _ & U & _ & _).
    rewrite La in E, U.
    destruct (IH rest (me_uuid4 env (mw_uuids w)) env w2
                 (fun b H => A b (or_intror H)))
      as (w' & E' & U').
    exists w'. simpl app. rewrite E, E'. split.
    + f_equal. destruct pre' as [|b pre'']; simpl.
      * f_equal. lia.
      * rewrite U. f_equal. lia.
    + rewrite U', U. simpl. lia.
Qed.

(** Whatever the environment, the loop ends with a result or with the final
    [raise], after at most as many attempts as it was given, and after at
    most one [set()]. *)
Lemma retry_loop_bound : forall attempts sid (env : MainEnv) (w : Main),
  exists r w',
    race_loop attempts sid env w = (r, w')
    /\ ((exists x, r = Ok x)
        \/ r = Raised (AllFlowsFailed max_retries
                         (Z.of_nat (List.length FLOW_IDS))
                         (Z.of_nat (List.length FLOW_IDS) * max_retries)))
    /\ (count is_new_event (mw_trace w')
        <= count is_new_event (mw_trace w) + List.length attempts)%nat
    /\ (count is_set_call (mw_trace w')
        <= count is_set_call (mw_trace w) + 1)%nat.
Proof.
  induction attempts as [|a rest IH]; intros sid env w.
  - do 2 eexists. simpl. unfold raise. split; [reflexivity|].
    split; [right; reflexivity|]. split; lia.
  - destruct (run_attempt_cases a sid env w)
      as (exit & w1 & tr & E & T & _ & _ & Cn & Cs & _).
    cbn [retry_loop]. unfold bind at 1. rewrite E.
    destruct exit as [m f el | all].
    + do 2 eexists. unfold ret. split; [reflexivity|].
      split; [left; eauto|].
      rewrite T, !count_app, Cn, Cs. simpl. split; lia.
    + unfold bind at 1. rewrite after_failure_eq.
      match goal with
      | |- context [race_loop rest ?s env ?w2] =>
          destruct (IH s env w2) as (r & w' & E' & R & Bn & Bs)
      end.
      exists r, w'. split; [exact E'|]. split; [exact R|].
      cbn [mw_trace] in Bn, Bs.
      rewrite T in Bn, Bs. rewrite !count_app, !count_cons in Bn, Bs.
      rewrite Cn in Bn. rewrite Cs in Bs.
      destruct (a <? max_retries)%Z;
        rewrite ?count_cons, ?count_nil in Bn, Bs; simpl in *; split; lia.
Qed.

End RaceFacts.

(** *** What an attempt submits *)

Lemma filter_none (p : effect -> bool) (tr : list effect) :
  Forall (fun e => p e = false) tr -> filter p tr = [].
Proof.
  induction 1 as [|e tr H _ IH]; simpl; [reflexivity|]. rewrite H. exact IH.
Qed.

Lemma waiting_posts (tr : list effect) :
  Forall waiting tr -> filter is_post tr = [].
Proof.
  intros F. apply filter_none. revert F. apply Forall_impl.
  intros [] H; simpl in *; auto; contradiction.
Qed.

Lemma clock_posts (tr : list effect) :
  Forall clock_reading tr -> filter is_post tr = [].
Proof.
  intros F. apply filter_none. revert F. apply Forall_impl.
  intros e [t ->]. reflexivity.
Qed.

(** The requests in the trace of one worker. *)
Lemma worker_posts flow_id input sid delay ev
    (env : ThreadEnv) (w : Thread) :
  exists o w' tr,
    call_single_flow_with_delay flow_id input sid delay ev env w = (Ok o, w')
    /\ th_trace w' = th_trace w ++ tr
    /\ filter is_post tr
       = (if o_cancelled o then []
          else [EPost (BASE_URL ++ "/" ++ flow_id) input sid]).
Proof.
  unfold call_single_flow_with_delay.
  destruct (Qltb 0 delay) eqn:D.
  - apply Qltb_true in D.
    destruct (wait_loop_spec (poll_count delay) ev delay 0 env w
                (poll_count_enough delay D))
      as (r & w1 & tr & E & _ & T & F & _ & _).
    unfold bind at 1. rewrite E. destruct r.
    + unfold ret. do 3 eexists. split; [reflexivity|]. split; [exact T|].
      simpl. apply waiting_posts. exact F.
    + destruct (send_request_spec flow_id input sid env w1)
        as (o & w2 & tr2 & E2 & _ & T2 & F2 & C2 & _).
      rewrite E2. exists o, w2. eexists. split; [reflexivity|].
      split; [rewrite T2, T, <- app_assoc; reflexivity|].
      rewrite C2, filter_app, (waiting_posts tr F). simpl.
      rewrite (clock_posts tr2 F2). reflexivity.
  - unfold bind at 1, ret at 1.
    destruct (send_request_spec flow_id input sid env w)
      as (o & w2 & tr2 & E2 & _ & T2 & F2 & C2 & _).
    rewrite E2. exists o, w2. eexists. split; [reflexivity|].
    split; [exact T2|].
    rewrite C2. simpl. rewrite (clock_posts tr2 F2). reflexivity.
Qed.

Lemma submitted_app (a b : list effect) :
  submitted (a ++ b) = submitted a ++ submitted b.
Proof. unfold submitted. apply flat_map_app. Qed.

Lemma submitted_appends (l : list result_entry) : submitted (map EAppend l) = [].
Proof. induction l as [|r l IH]; simpl; [reflexivity | exact IH]. Qed.

Lemma submitted_submissions d : forall flows idx sid ev,
  submitted (submissions d flows idx sid ev)
  = map (fun p => (fst p, snd p, sid, stagger d (fst p)))
        (combine (seq idx (List.length flows)) flows).
Proof.
  induction flows as [|f r IH]; intros; simpl; [reflexivity|].
  rewrite IH. reflexivity.
Qed.

Lemma started_posts input d : forall flows env attempt idx sid ev,
  Forall (fun th =>
            forall e, In e (filter is_post (snd th)) ->
              exists flow_id, In flow_id flows
                /\ e = EPost (BASE_URL ++ "/" ++ flow_id) input sid)
         (started input d env attempt flows idx sid ev).
Proof.
  induction flows as [|f r IH]; intros; simpl; constructor.
  - unfold future_of. cbn [snd f_trace].
    destruct (worker_posts f input sid (stagger d idx)
                (Some ev) (me_thread env attempt idx) thread_start)
      as (o & w' & tr & E & T & P).
    rewrite E. cbn [snd]. rewrite T. cbn [th_trace thread_start app].
    rewrite P. intros e H.
    destruct (o_cancelled o); [destruct H|].
    destruct H as [<-|[]]. exists f. split; [left; reflexivity | reflexivity].
  - specialize (IH env attempt (S idx) sid ev).
    revert IH. apply Forall_impl. intros th H e He.
    destruct (H e He) as (g & G & ->). exists g. split; [right; exact G | reflexivity].
Qed.

Lemma submitted_opening FLOW_IDS d (env : MainEnv) (w : Main) sid rest :
  submitted rest = [] ->
  submitted (opening FLOW_IDS d env w sid ++ rest)
  = map (fun p => (fst p, snd p, sid, stagger d (fst p)))
        (combine (seq 0 (List.length FLOW_IDS)) FLOW_IDS).
Proof.
  intros R. rewrite submitted_app, R, app_nil_r.
  unfold opening. cbn [submitted flat_map app].
  apply submitted_submissions.
Qed.

Lemma started_workers input d : forall flows env attempt idx sid ev,
  started input d env attempt flows idx sid ev
  = map (fun p =>
           (attempt, fst p,
            th_trace (snd (call_single_flow_with_delay (snd p) input sid
                             (stagger d (fst p)) (Some ev)
                             (me_thread env attempt (fst p)) thread_start))))
        (combine (seq idx (List.length flows)) flows).
Proof.
  induction flows as [|f r IH]; intros; simpl; [reflexivity|].
  rewrite IH. reflexivity.
Qed.

(** Every attempt ends, and has then submitted one worker per flow, in the
    order of the list. *)
Lemma run_attempt_submits FLOW_IDS input d attempt sid
    (env : MainEnv) (w : Main) :
  FLOW_IDS <> [] ->
  exists exit w' tr,
    run_attempt FLOW_IDS input d attempt sid env w = (Ok exit, w')
    /\ mw_trace w' = mw_trace w ++ tr
    /\ submitted tr
       = map (fun p => (fst p, snd p, sid, stagger d (fst p)))
             (combine (seq 0 (List.length FLOW_IDS)) FLOW_IDS)
    /\ mw_threads w'
       = mw_threads w
         ++ started input d env attempt FLOW_IDS 0 sid
                    (List.length (mw_events w)).
Proof.
  intros H.
  pose (ev := List.length (mw_events w)).
  destruct (first_success _ (completed_of_ok FLOW_IDS input d env attempt sid ev))
    as [P|(pre & f & post & o & C & P & R & X & Hs)].
  - rewrite (run_attempt_no_success FLOW_IDS H input d attempt sid env w P).
    do 3 eexists. split; [reflexivity|].
    cbn [mw_trace mw_threads]. split; [reflexivity|].
    split; [|reflexivity].
    apply submitted_opening.
    rewrite submitted_app, submitted_appends. reflexivity.
  - rewrite (run_attempt_first_success FLOW_IDS H input d attempt sid env w
               pre f post o C P R X Hs).
    do 3 eexists. split; [reflexivity|].
    cbn [mw_trace mw_threads]. split; [reflexivity|].
    split; [|reflexivity].
    apply submitted_opening.
    rewrite submitted_app, submitted_appends. reflexivity.
Qed.

(** The loop only adds to the trace. *)
Lemma retry_loop_extends FLOW_IDS input d max_retries retry_delay :
  FLOW_IDS <> [] ->
  forall attempts sid (env : MainEnv) (w : Main),
  exists tr,
    mw_trace (snd (retry_loop FLOW_IDS input d max_retries retry_delay
                     attempts sid env w))
    = mw_trace w ++ tr.
Proof.
  intros H. induction attempts as [|a rest IH]; intros sid env w.
  - exists []. simpl. rewrite app_nil_r. reflexivity.
  - destruct (run_attempt_cases FLOW_IDS H input d a sid env w)
      as (exit & w1 & tr & E & T & _).
    cbn [retry_loop]. unfold bind at 1. rewrite E.
    destruct exit as [m f el | all].
    + exists tr. exact T.
    + unfold bind at 1. rewrite after_failure_eq.
      match goal with
      | |- context [retry_loop _ _ _ _ _ rest ?s env ?w2] =>
          destruct (IH s env w2) as (tr' & E')
      end.
      rewrite E'. cbn [mw_trace]. rewrite T.
      eexists. rewrite <- !app_assoc. reflexivity.
Qed.


(* ===================================================================== *)
(** ** The worker: start delay, cancellation, classification *)
(* ===================================================================== *)

(** A signal that a poll of the loop sees cancels the worker. *)
Lemma wait_loop_seen : forall (n : nat) e delay waited (env : ThreadEnv) w (k : nat),
  (delay - waited) * 2 <= inject_Z (Z.of_nat n) ->
  inject_Z (Z.of_nat k) * (1#2) + waited < delay ->
  (forall j, (j < k)%nat -> te_is_set env (th_polls w + j) = false) ->
  te_is_set env (th_polls w + k) = true ->
  fst (wait_loop (S n) (Some e) delay waited env w) = Ok Cancelled.
Proof.
  induction n as [|m IH]; intros e delay waited env w k B K U T.
  - change (inject_Z (Z.of_nat 0)) with 0 in B.
    assert (0 <= inject_Z (Z.of_nat k)).
    { rewrite <- (Zle_Qle 0). lia. }
    lra.
  - rewrite wait_loop_eq.
    assert (L : Qltb waited delay = true).
    { apply Qltb_true.
      assert (0 <= inject_Z (Z.of_nat k)) by (rewrite <- (Zle_Qle 0); lia).
      lra. }
    rewrite L. unfold bind at 1. unfold is_set at 1.
    destruct k as [|k'].
    + rewrite Nat.add_0_r in T. rewrite T. reflexivity.
    + assert (P0 : te_is_set env (th_polls w) = false).
      { rewrite <- (Nat.add_0_r (th_polls w)). apply U. lia. }
      rewrite P0. unfold bind, th_sleep, th_emit. cbn beta iota.
      apply (IH e delay (waited + (1#2)) env _ k').
      * rewrite inject_succ in B. lra.
      * rewrite inject_succ in K. lra.
      * cbn [th_polls]. intros j Hj.
        replace (S (th_polls w) + j)%nat with (th_polls w + S j)%nat by lia.
        apply U. lia.
      * cbn [th_polls].
        replace (S (th_polls w) + k')%nat with (th_polls w + S k')%nat by lia.
        exact T.
Qed.

(** X7.  An event set no later than one of the worker's polls cancels it:
    the worker returns [(False, flow_id, "", 0, True)] and no request is
    sent. *)
Lemma signal_before_a_poll_cancels flow_id input sid delay e T (k : nat)
    (env : ThreadEnv) :
  te_is_set env = signal_at T ->
  T <= inject_Z (Z.of_nat k) * (1#2) ->
  inject_Z (Z.of_nat k) * (1#2) < delay ->
  exists o w',
    call_single_flow_with_delay flow_id input sid delay (Some e) env thread_start
    = (Ok o, w')
    /\ o = Outcome false flow_id (VStr []) 0 true
    /\ count is_post (th_trace w') = 0%nat.
Proof.
  intros Hs HT HK.
  assert (D : 0 < delay).
  { assert (0 <= inject_Z (Z.of_nat k)) by (rewrite <- (Zle_Qle 0); lia). lra. }
  (* the first poll that sees the signal *)
  assert (F : exists k0, (k0 <= k)%nat
                /\ te_is_set env k0 = true
                /\ forall j, (j < k0)%nat -> te_is_set env j = false).
  { assert (G : forall n, (forall j, (j < n)%nat -> te_is_set env j = false)
                   \/ exists k0, (k0 < n)%nat /\ te_is_set env k0 = true
                        /\ forall j, (j < k0)%nat -> te_is_set env j = false).
    { induction n as [|n [A|(k0 & L & A & B)]].
      - left. intros j H. lia.
      - destruct (te_is_set env n) eqn:X.
        + right. exists n. split; [lia|]. split; [exact X|exact A].
        + left. intros j H. destruct (Nat.eq_dec j n) as [->|]; [exact X|].
          apply A. lia.
      - right. exists k0. split; [lia|]. split; assumption. }
    destruct (G (S k)) as [A|(k0 & L & A & B)].
    - exfalso. specialize (A k (Nat.lt_succ_diag_r k)).
      rewrite Hs in A. unfold signal_at in A.
      apply Qle_bool_iff in HT. congruence.
    - exists k0. split; [lia|]. split; assumption. }
  destruct F as (k0 & L & A & B).
  assert (K0 : inject_Z (Z.of_nat k0) * (1#2) + 0 < delay).
  { assert (inject_Z (Z.of_nat k0) <= inject_Z (Z.of_nat k))
      by (rewrite <- Zle_Qle; lia).
    lra. }
  pose proof (wait_loop_seen (poll_count delay) e delay 0 env thread_start k0
                (poll_count_enough delay D) K0 B A) as W.
  unfold call_single_flow_with_delay.
  apply Qltb_true in D. rewrite D.
  destruct (wait_loop_spec (poll_count delay) (Some e) delay 0 env thread_start
              (poll_count_enough delay (proj1 (Qltb_true _ _) D)))
    as (r & w1 & tr & E & _ & Tr & Fw & _ & _).
  rewrite E in W. simpl in W. inversion W; subst r.
  unfold bind at 1. rewrite E. unfold ret.
  do 2 eexists. split; [reflexivity|]. split; [reflexivity|].
  rewrite Tr. simpl. apply waiting_no_post. exact Fw.
Qed.

(** An event set after the worker's last poll is not noticed: the loop ends
    without looking again, and the request is sent. *)
Lemma signal_after_last_poll_is_missed flow_id input sid delay ev T
    (env : ThreadEnv) :
  te_is_set env = signal_at T ->
  (forall k : nat, inject_Z (Z.of_nat k) * (1#2) < delay ->
                   inject_Z (Z.of_nat k) * (1#2) < T) ->
  exists o w',
    call_single_flow_with_delay flow_id input sid delay ev env thread_start
    = (Ok o, w')
    /\ o_cancelled o = false
    /\ count is_post (th_trace w') = 1%nat.
Proof.
  intros Hs L.
  destruct (worker_spec flow_id input sid delay ev env thread_start)
    as (o & w' & tr & E & Tr & _ & _ & C & P & _).
  exists o, w'. split; [exact E|].
  assert (X : o_cancelled o = false).
  { unfold call_single_flow_with_delay in E.
    destruct (Qltb 0 delay) eqn:D.
    - apply Qltb_true in D.
      assert (U : forall k : nat,
                 inject_Z (Z.of_nat k) * (1#2) + 0 < delay ->
                 te_is_set env (th_polls thread_start + k) = false).
      { intros k H. simpl. rewrite Hs. unfold signal_at.
        destruct (Qle_bool T (inject_Z (Z.of_nat k) * (1#2))) eqn:Q;
          [|reflexivity].
        apply Qle_bool_iff in Q. specialize (L k). lra. }
      pose proof (wait_loop_unseen (poll_count delay) ev delay 0 env thread_start
                    (poll_count_enough delay D) U) as W.
      unfold bind at 1 in E.
      destruct (wait_loop (S (poll_count delay)) ev delay 0 env thread_start)
        as [r w1]. simpl in W. subst r.
      destruct (send_request_spec flow_id input sid env w1)
        as (o2 & w2 & tr2 & E2 & _ & _ & _ & C2 & _).
      rewrite E2 in E. inversion E; subst. exact C2.
    - unfold bind at 1, ret at 1 in E.
      destruct (send_request_spec flow_id input sid env thread_start)
        as (o2 & w2 & tr2 & E2 & _ & _ & _ & C2 & _).
      rewrite E2 in E. inversion E; subst. exact C2. }
  split; [exact X|]. rewrite Tr. simpl. rewrite P, X. reflexivity.
Qed.

(** C2 (the code departs from the claim).  The claim: a worker whose start
    delay has not yet elapsed when the winner signal becomes set never
    invokes the backend.  Here the worker has a start delay of 7 seconds
    and the signal is set 6.75 seconds after the worker started.  The
    worker polled for the last time at 6.5 seconds, sleeps its last half
    second and leaves the loop without looking at the signal again: it is
    not cancelled and sends its request. *)
Theorem C2_signal_in_last_half_second flow_id input sid ev clock reply :
  let env := {| te_is_set := signal_at (27#4); te_time := clock;
                te_http := reply |} in
  let run :=
    call_single_flow_with_delay flow_id input sid 7 (Some ev) env thread_start in
  27#4 < 7
  /\ exists o, fst run = Ok o
       /\ o_cancelled o = false
       /\ count is_post (th_trace (snd run)) = 1%nat.
Proof.
  intros env run. split; [reflexivity|].
  destruct (signal_after_last_poll_is_missed flow_id input sid 7 (Some ev)
              (27#4) env eq_refl) as (o & w' & E & X & P).
  - intros k H.
    destruct (Z_lt_le_dec (Z.of_nat k) 14) as [L|L].
    + assert (inject_Z (Z.of_nat k) <= 13) by (rewrite <- (Zle_Qle _ 13); lia).
      lra.
    + assert (14 <= inject_Z (Z.of_nat k)) by (rewrite <- (Zle_Qle 14); lia).
      lra.
  - exists o. unfold run. rewrite E. auto.
Qed.

(** C10.  A worker whose start delay is zero or negative never consults the
    winner signal and sends exactly one request, whatever the state of the
    signal (the answers of [is_set] are arbitrary, it may be set from the
    start) and whether or not an event was passed at all. *)
Theorem C10_no_delay_no_poll flow_id input sid delay ev (env : ThreadEnv)
    (w : Thread) :
  delay <= 0 ->
  exists o w' tr,
    call_single_flow_with_delay flow_id input sid delay ev env w = (Ok o, w')
    /\ th_trace w' = th_trace w ++ tr
    /\ th_polls w' = th_polls w
    /\ count is_poll tr = 0%nat
    /\ count is_post tr = 1%nat
    /\ o_cancelled o = false.
Proof.
  intros D. apply Qltb_false in D.
  unfold call_single_flow_with_delay. rewrite D.
  unfold bind at 1, ret at 1.
  destruct (send_request_spec flow_id input sid env w)
    as (o & w' & tr & E & P & T & F & C & _).
  rewrite E. exists o, w'. eexists.
  split; [reflexivity|]. split; [exact T|]. split; [exact P|].
  rewrite !count_cons. simpl.
  rewrite (proj1 (clock_counts is_poll tr (fun _ => eq_refl) F)).
  rewrite (proj1 (clock_counts is_post tr (fun _ => eq_refl) F)).
  auto.
Qed.

Lemma C10_no_delay_no_poll_witness :
  0 <= 0
  /\ exists o w' tr,
       call_single_flow_with_delay "flow" (u "hi") 1%N 0 (Some 0%nat)
         (thread_env (fun _ => true) (Response true (Some (body_with (VStr (u "hello"))))))
         thread_start = (Ok o, w')
       /\ th_trace w' = th_trace thread_start ++ tr
       /\ th_polls w' = th_polls thread_start
       /\ count is_poll tr = 0%nat
       /\ count is_post tr = 1%nat
       /\ o_cancelled o = false.
Proof.
  split; [apply Qle_refl|].
  apply (C10_no_delay_no_poll "flow" (u "hi") 1%N 0 (Some 0%nat)
           (thread_env (fun _ => true)
              (Response true (Some (body_with (VStr (u "hello"))))))
           thread_start).
  apply Qle_refl.
Defined.

(** *** Classification of the answer *)

Lemma usable_has_text (data : value) :
  usable (Response true (Some data))
  = has_text (reply_text (Response true (Some data))).
Proof.
  unfold usable. generalize (reply_text (Response true (Some data))).
  intros text. unfold and_strip, has_text.
  destruct text as [| b | z | f | s | l | d]; try reflexivity.
  - destruct b; reflexivity.
  - simpl. destruct (z =? 0)%Z; reflexivity.
  - destruct f as [m e | |]; simpl; try reflexivity.
    destruct (m =? 0)%Z; reflexivity.
  - destruct s as [|c r]; [reflexivity|].
    change (truthy (VStr (strip (c :: r)))
            = existsb (fun c => negb (isspace c)) (c :: r)).
    apply strip_truthy.
  - destruct l; reflexivity.
  - destruct d; reflexivity.
Qed.

(** C9 (as amended).  When the transport succeeded and the body is JSON, a
    worker that was not cancelled reports success exactly when the
    extracted text is a string with a character that is not white space,
    and its payload is then that text, unstripped; otherwise it reports
    failure with the empty payload.  An empty text, a text of white space
    only, a text that is not a string and a body without the expected path
    all count as empty. *)
Theorem C9_usable_text_succeeds flow_id input sid delay ev (env : ThreadEnv)
    (w : Thread) data :
  te_http env = Response true (Some data) ->
  exists o w' text,
    call_single_flow_with_delay flow_id input sid delay ev env w = (Ok o, w')
    /\ extract_message_from_response data = Ok text
    /\ o_success o = negb (o_cancelled o) && has_text text
    /\ o_message o = (if o_success o then text else VStr []).
Proof.
  intros H.
  destruct (worker_spec flow_id input sid delay ev env w)
    as (o & w' & tr & E & _ & _ & _ & _ & _ & S & M).
  destruct (extract_total data) as [text X].
  exists o, w', text. split; [exact E|]. split; [exact X|].
  rewrite H in S, M. rewrite usable_has_text in S.
  unfold reply_text in S, M. rewrite X in S, M. auto.
Qed.

Lemma C9_usable_text_succeeds_witness :
  exists o w' text,
    call_single_flow_with_delay "flow" (u "hi") 1%N 0 None
      (thread_env (fun _ => false)
         (Response true (Some (body_with (VStr (u " hello "))))))
      thread_start = (Ok o, w')
    /\ extract_message_from_response (body_with (VStr (u " hello "))) = Ok text
    /\ o_success o = negb (o_cancelled o) && has_text text
    /\ o_message o = (if o_success o then text else VStr []).
Proof.
  apply (C9_usable_text_succeeds "flow" (u "hi") 1%N 0 None
           (thread_env (fun _ => false)
              (Response true (Some (body_with (VStr (u " hello "))))))
           thread_start (body_with (VStr (u " hello ")))).
  reflexivity.
Defined.

(** C9 as the specification states it fails: the body carries the text
    [" "], which is not empty, the transport succeeded, and the worker
    reports failure with the empty payload. *)
Lemma C9_blank_text_counterexample :
  let data := body_with (VStr (u " ")) in
  let run :=
    call_single_flow_with_delay "flow" (u "hi") 1%N 0 None
      (thread_env (fun _ => false) (Response true (Some data))) thread_start in
  extract_message_from_response data = Ok (VStr (u " "))
  /\ VStr (u " ") <> VStr []
  /\ exists o, fst run = Ok o
       /\ o_cancelled o = false
       /\ o_success o = false
       /\ o_message o = VStr [].
Proof.
  split; [reflexivity|]. split; [discriminate|].
  eexists. split; [reflexivity|]. auto.
Qed.

(* ===================================================================== *)
(** ** The stagger schedule *)
(* ===================================================================== *)

(** The delays of a schedule, by position. *)
Lemma schedule_delays (d : Q) (sid : N) : forall (flows : list string) idx,
  map snd (map (fun p : nat * string => (fst p, snd p, sid, stagger d (fst p)))
               (combine (seq idx (List.length flows)) flows))
  = map (stagger d) (seq idx (List.length flows)).
Proof.
  induction flows as [|f r IH]; intros; simpl; [reflexivity|].
  rewrite IH. reflexivity.
Qed.

Lemma schedule_nth (d : Q) (n i : nat) (di : Q) :
  nth_error (map (stagger d) (seq 0 n)) i = Some di ->
  di = inject_Z (Z.of_nat i) * d.
Proof.
  rewrite nth_error_map, nth_error_seq.
  destruct (i <? n)%nat; simpl; [|discriminate].
  intros E. injection E as <-. reflexivity.
Qed.

(** C3 (as amended).  Every attempt submits one worker per flow, in the
    order of [FLOW_IDS], and the start delay it hands to the worker at
    position [i] is [i * d]: in the submission and in the call the worker
    thread makes.  The schedule does not depend on the environment (no
    jitter, no randomness).  Position 0 has delay 0.  The delays are
    strictly increasing along the positions when [d] is positive; when [d]
    is zero or negative they are not: no delay is then greater than an
    earlier one.  (At least one flow is configured.) *)
Theorem C3_stagger_schedule FLOW_IDS input (d : Q) attempt sid
    (env : MainEnv) (w : Main) :
  FLOW_IDS <> [] ->
  exists exit w' tr,
    run_attempt FLOW_IDS input d attempt sid env w = (Ok exit, w')
    /\ mw_trace w' = mw_trace w ++ tr
    /\ submitted tr
       = map (fun p => (fst p, snd p, sid, inject_Z (Z.of_nat (fst p)) * d))
             (combine (seq 0 (List.length FLOW_IDS)) FLOW_IDS)
    /\ mw_threads w'
       = mw_threads w
         ++ map (fun p =>
                   (attempt, fst p,
                    th_trace
                      (snd (call_single_flow_with_delay (snd p) input sid
                              (inject_Z (Z.of_nat (fst p)) * d)
                              (Some (List.length (mw_events w)))
                              (me_thread env attempt (fst p)) thread_start))))
                (combine (seq 0 (List.length FLOW_IDS)) FLOW_IDS)
    /\ (exists d0, nth_error (map snd (submitted tr)) 0 = Some d0 /\ d0 == 0)
    /\ (0 < d ->
        forall i j di dj, (i < j)%nat ->
          nth_error (map snd (submitted tr)) i = Some di ->
          nth_error (map snd (submitted tr)) j = Some dj -> di < dj)
    /\ (d <= 0 ->
        forall i j di dj, (i < j)%nat ->
          nth_error (map snd (submitted tr)) i = Some di ->
          nth_error (map snd (submitted tr)) j = Some dj -> dj <= di).
Proof.
  intros H.
  destruct (run_attempt_submits FLOW_IDS input d attempt sid env w H)
    as (exit & w' & tr & E & T & S & Th).
  exists exit, w', tr.
  split; [exact E|]. split; [exact T|]. split; [exact S|].
  split; [rewrite Th, started_workers; reflexivity|].
  rewrite S, schedule_delays.
  assert (L : forall i j, (i < j)%nat ->
                inject_Z (Z.of_nat i) < inject_Z (Z.of_nat j)).
  { intros i j Hij. rewrite <- Zlt_Qlt. lia. }
  split; [|split].
  - destruct FLOW_IDS as [|f r]; [contradiction|].
    eexists. split; [reflexivity|].
    unfold stagger. change (inject_Z (Z.of_nat 0)) with 0. lra.
  - intros D i j di dj Hij Hi Hj.
    apply schedule_nth in Hi, Hj. subst. specialize (L i j Hij). nra.
  - intros D i j di dj Hij Hi Hj.
    apply schedule_nth in Hi, Hj. subst. specialize (L i j Hij). nra.
Qed.

Lemma C3_stagger_schedule_witness :
  let env := main_env (fun _ _ => good_reply "a") (fun _ _ _ => false)
                      (fun _ => [0; 1; 2]%nat) in
  configured_FLOW_IDS <> []
  /\ 0 < 7
  /\ exists exit w' tr,
       run_attempt configured_FLOW_IDS (u "hi") 7 1 0%N env main_start
       = (Ok exit, w')
       /\ mw_trace w' = mw_trace main_start ++ tr
       /\ map snd (submitted tr) = [0 * 7; 1 * 7; 2 * 7]
       /\ forall i j di dj, (i < j)%nat ->
            nth_error (map snd (submitted tr)) i = Some di ->
            nth_error (map snd (submitted tr)) j = Some dj -> di < dj.
Proof.
  intros env.
  assert (F : configured_FLOW_IDS <> []) by discriminate.
  assert (D : 0 < 7) by reflexivity.
  split; [exact F|]. split; [exact D|].
  destruct (C3_stagger_schedule configured_FLOW_IDS (u "hi") 7 1 0%N env
              main_start F) as (exit & w' & tr & E & T & S & _ & _ & I & _).
  exists exit, w', tr. split; [exact E|]. split; [exact T|].
  split; [rewrite S; reflexivity | exact (I D)].
Defined.

(** C3 as the specification states it fails: with a stagger interval of 0
    the workers at positions 0 and 1 of an attempt are submitted with the
    same delay, so the schedule is not strictly increasing. *)
Lemma C3_zero_interval_counterexample :
  ~ (forall FLOW_IDS input (d : Q) attempt sid (env : MainEnv) (w : Main)
            (i j : nat) (di dj : Q),
       FLOW_IDS <> [] -> (i < j)%nat ->
       let tr := mw_trace (snd (run_attempt FLOW_IDS input d attempt sid env w)) in
       nth_error (map snd (submitted tr)) i = Some di ->
       nth_error (map snd (submitted tr)) j = Some dj ->
       di < dj).
Proof.
  intros H.
  specialize (H configured_FLOW_IDS (u "hi") 0 1%Z 0%N
                (main_env (fun _ _ => good_reply "a") (fun _ _ _ => false)
                          (fun _ => [0; 1; 2]%nat))
                main_start 0%nat 1%nat (0 * 0) (1 * 0)).
  assert (C : 0 * 0 < 1 * 0).
  { apply H; [discriminate | lia | reflexivity | reflexivity]. }
  revert C. apply Qle_not_lt. discriminate.
Qed.

(* ===================================================================== *)
(** ** One attempt: the winner and the winner signal *)
(* ===================================================================== *)

Lemma flag_last (w : Main) (flags : list bool) (b : bool) :
  mw_events w = flags ++ [b] -> flag w (List.length flags) = b.
Proof.
  intros H. unfold flag. rewrite H. apply nth_middle.
Qed.

Lemma appended_app (a b : list effect) :
  appended (a ++ b) = appended a ++ appended b.
Proof. unfold appended. apply flat_map_app. Qed.

Lemma appended_appends (l : list result_entry) : appended (map EAppend l) = l.
Proof.
  induction l as [|r l IH]; simpl; [reflexivity|]. rewrite IH. reflexivity.
Qed.

Lemma appended_submissions d : forall flows idx sid ev,
  appended (submissions d flows idx sid ev) = [].
Proof.
  induction flows as [|f r IH]; intros; simpl; [reflexivity|]. apply IH.
Qed.

Lemma in_order_nil (order : list nat) : in_order order [] = [].
Proof.
  unfold in_order. induction order as [|i r IH]; [reflexivity|].
  simpl. destruct i; exact IH.
Qed.

(** An attempt in which a future completes has a flow to run. *)
Lemma completed_nonempty FLOW_IDS input d (env : MainEnv) attempt sid ev
    pre f post :
  completed_of FLOW_IDS input d env attempt sid ev = pre ++ f :: post ->
  FLOW_IDS <> [].
Proof.
  intros C ->. unfold completed_of in C. simpl in C.
  rewrite in_order_nil in C. destruct pre; discriminate.
Qed.

(** C1 (as amended).  In every attempt the scheduler takes the outcomes in
    completion order, and the first outcome that is not cancelled and has
    [ok = true] is the winner: the winner signal is set, and the result is
    fixed at once, without looking at any later outcome, as that outcome's
    payload, its backend and the time elapsed since the attempt started,
    read right after the signal was set.  The result is handed back after a
    grace sleep of half a second and the shutdown of the executor, not
    immediately.  No attempt sets the signal more than once. *)
Theorem C1_first_success_wins FLOW_IDS input d attempt sid
    (env : MainEnv) (w : Main) :
  let ev := List.length (mw_events w) in
  let run := run_attempt FLOW_IDS input d attempt sid env w in
  (exists tr,
      mw_trace (snd run) = mw_trace w ++ tr
      /\ (count is_set_call tr <= 1)%nat)
  /\ forall pre f post o,
       completed_of FLOW_IDS input d env attempt sid ev = pre ++ f :: post ->
       Forall passed_over pre ->
       f_result f = Ok o -> o_cancelled o = false -> o_success o = true ->
       fst run
       = Ok (Returned (o_message o) (o_flow_id o)
               (me_time env (S (mw_clock w)) - me_time env (mw_clock w)))
       /\ flag (snd run) ev = true
       /\ exists tr,
            mw_trace (snd run)
            = mw_trace w ++ tr
              ++ [EAppend (entry_of f o); ESet ev;
                  ETime (me_time env (S (mw_clock w)));
                  ESleep (1#2); EShutdown]
            /\ count is_set_call tr = 0%nat
            /\ appended tr = entries_of pre.
Proof.
  intros ev run. split.
  - destruct FLOW_IDS as [|flow_id rest] eqn:F.
    + exists [ETime (me_time env (mw_clock w)); ENewEvent ev].
      split; [|unfold count; simpl; lia].
      unfold run, run_attempt, bind, time_time, Event_new, ThreadPoolExecutor,
        raise. simpl. rewrite <- app_assoc. reflexivity.
    + assert (H : flow_id :: rest <> []) by discriminate.
      destruct (run_attempt_cases (flow_id :: rest) H input d attempt sid env w)
        as (exit & w' & tr & E & T & _ & _ & _ & Cs & _).
      exists tr. unfold run. rewrite E. simpl.
      split; [exact T|].
      rewrite Cs. destruct exit; lia.
  - intros pre f post o C P R X S.
    unfold run.
    rewrite (run_attempt_first_success FLOW_IDS
               (completed_nonempty _ _ _ _ _ _ _ _ _ _ C)
               input d attempt sid env w pre f post o C P R X S).
    cbn [fst snd mw_trace]. split; [reflexivity|].
    split; [apply flag_last; reflexivity|].
    exists (opening FLOW_IDS d env w sid ++ map EAppend (entries_of pre)).
    rewrite <- !app_assoc. split; [reflexivity|].
    split.
    + unfold opening.
      rewrite ?count_app, ?count_cons, ?count_nil, ?count_submissions,
        ?count_appends by reflexivity. reflexivity.
    + unfold opening. rewrite appended_app, appended_appends.
      simpl. rewrite appended_submissions. reflexivity.
Qed.

Lemma C1_first_success_wins_witness :
  let env := main_env (fun _ idx => match idx with
                                    | O => PostRaises Timeout
                                    | _ => good_reply "hello"
                                    end)
                      (fun _ _ _ => false) (fun _ => [0; 1]%nat) in
  fst (run_attempt ["A"; "B"]%string (u "hi") 0 1 0%N env main_start)
  = Ok (Returned (VStr (u "hello")) "B" (1 - 0)).
Proof.
  intros env.
  pose (fs := completed_of ["A"; "B"]%string (u "hi") 0 env 1 0%N 0%nat).
  destruct (C1_first_success_wins ["A"; "B"]%string (u "hi") 0 1 0%N env
              main_start) as [_ H].
  destruct (H (firstn 1 fs) (nth 1 fs (hd (Build_Future "" 0 OutOfFuel []) fs))
              (skipn 2 fs)
              (Outcome true "B" (VStr (u "hello")) (1 - 0) false))
    as [R _].
  - reflexivity.
  - repeat constructor.
    exists (Outcome false "A" (VStr []) (1 - 0) false).
    split; [reflexivity | right; reflexivity].
  - reflexivity.
  - reflexivity.
  - reflexivity.
  - exact R.
Defined.

(** C1 as the specification states it fails: the result is not returned
    immediately.  In this attempt the only worker succeeds; between the
    [set()] of the winner signal and the return the scheduler sleeps half a
    second. *)
Lemma C1_grace_sleep_counterexample :
  let env := main_env (fun _ _ => good_reply "hello") (fun _ _ _ => false)
                      (fun _ => [0]%nat) in
  let run := run_attempt ["A"]%string (u "hi") 7 1 0%N env main_start in
  fst run = Ok (Returned (VStr (u "hello")) "A" (1 - 0))
  /\ after_set (mw_trace (snd run)) = [ETime 1; ESleep (1#2); EShutdown].
Proof.
  split; reflexivity.
Qed.

(** C4 (as amended).  When several workers of one attempt complete with
    [ok = true], only the payload of the one that completes first is ever
    returned.  The outcomes recorded in the attempt's list are those of the
    workers that completed before it and were not cancelled, and its own:
    whatever completes later, a success included, is neither recorded nor
    surfaced, because the scheduler stops taking outcomes at the first
    success. *)
Theorem C4_first_success_only FLOW_IDS input d attempt sid
    (env : MainEnv) (w : Main) pre f post o :
  let ev := List.length (mw_events w) in
  let run := run_attempt FLOW_IDS input d attempt sid env w in
  completed_of FLOW_IDS input d env attempt sid ev = pre ++ f :: post ->
  Forall passed_over pre ->
  f_result f = Ok o -> o_cancelled o = false -> o_success o = true ->
  (exists elapsed,
      fst run = Ok (Returned (o_message o) (o_flow_id o) elapsed))
  /\ exists tr,
       mw_trace (snd run) = mw_trace w ++ tr
       /\ appended tr = entries_of pre ++ [entry_of f o].
Proof.
  intros ev run C P R X S. unfold run.
  rewrite (run_attempt_first_success FLOW_IDS
             (completed_nonempty _ _ _ _ _ _ _ _ _ _ C)
             input d attempt sid env w pre f post o C P R X S).
  cbn [fst snd mw_trace]. split; [eexists; reflexivity|].
  eexists. split; [reflexivity|].
  unfold opening. rewrite !appended_app, appended_appends.
  simpl. rewrite appended_submissions. reflexivity.
Qed.

Lemma C4_first_success_only_witness :
  let env := main_env (fun _ idx => match idx with
                                    | O => good_reply "first"
                                    | _ => good_reply "second"
                                    end)
                      (fun _ _ _ => false) (fun _ => [1; 0]%nat) in
  exists elapsed,
    fst (run_attempt ["A"; "B"]%string (u "hi") 0 1 0%N env main_start)
    = Ok (Returned (VStr (u "second")) "B" elapsed).
Proof.
  intros env.
  pose (fs := completed_of ["A"; "B"]%string (u "hi") 0 env 1 0%N 0%nat).
  destruct (C4_first_success_only ["A"; "B"]%string (u "hi") 0 1 0%N env
              main_start [] (hd (Build_Future "" 0 OutOfFuel []) fs) (tl fs)
              (Outcome true "B" (VStr (u "second")) (1 - 0) false))
    as [R _].
  - reflexivity.
  - constructor.
  - reflexivity.
  - reflexivity.
  - reflexivity.
  - exact R.
Defined.

(** C4 as the specification states it fails: both workers of this attempt
    complete with [ok = true], "A" first; the payload of "A" is returned,
    and the outcome of "B" is not recorded in the attempt's list. *)
Lemma C4_later_success_counterexample :
  let env := main_env (fun _ idx => match idx with
                                    | O => good_reply "first"
                                    | _ => good_reply "second"
                                    end)
                      (fun _ _ _ => false) (fun _ => [0; 1]%nat) in
  let run := run_attempt ["A"; "B"]%string (u "hi") 0 1 0%N env main_start in
  exists fa fb ob,
    completed_of ["A"; "B"]%string (u "hi") 0 env 1 0%N 0%nat = [fa; fb]
    /\ f_result fb = Ok ob
    /\ o_success ob = true /\ o_cancelled ob = false
    /\ fst run = Ok (Returned (VStr (u "first")) "A" (1 - 0))
    /\ ~ In (entry_of fb ob) (appended (mw_trace (snd run))).
Proof.
  intros env run.
  do 3 eexists. split; [reflexivity|]. split; [reflexivity|].
  split; [reflexivity|]. split; [reflexivity|]. split; [reflexivity|].
  intros [H|[]]. discriminate H.
Qed.

Lemma passed_over_quiet (fs : list Future) :
  Forall passed_over fs -> Forall quiet (map EAppend (entries_of fs)).
Proof.
  unfold entries_of.
  induction 1 as [|f rest [o [R C]] _ IH]; [constructor|].
  simpl. rewrite R.
  destruct (o_cancelled o) eqn:X; simpl; [exact IH|].
  destruct C as [C|C]; [discriminate|].
  constructor; [exact C | exact IH].
Qed.

Lemma submissions_quiet d : forall flows idx sid ev,
  Forall quiet (submissions d flows idx sid ev).
Proof.
  induction flows as [|f r IH]; intros; simpl; constructor; [exact I | apply IH].
Qed.

Lemma started_read_only input d : forall flows env attempt idx sid ev,
  Forall (fun th => Forall worker_effect (snd th))
         (started input d env attempt flows idx sid ev).
Proof.
  induction flows as [|f r IH]; intros; simpl; constructor; [|apply IH].
  unfold future_of. simpl.
  destruct (worker_spec f input sid (stagger d idx) (Some ev)
              (me_thread env attempt idx) thread_start)
    as (o & w' & tr & E & T & W & _).
  rewrite E. simpl. rewrite T. exact W.
Qed.

(** C7.  In every attempt the winner signal is a new event whose flag is
    clear; the scheduler sets it at most once, and only right after it has
    recorded the first successful outcome; nothing that follows in the
    attempt touches it, so that it stays set; the flags of all older events
    are left as they were; and the workers of the attempt only poll, sleep,
    read the clock and post: they never write to the signal.  (At least
    one flow is configured.) *)
Theorem C7_winner_signal FLOW_IDS input d attempt sid
    (env : MainEnv) (w : Main) :
  FLOW_IDS <> [] ->
  let ev := List.length (mw_events w) in
  let run := run_attempt FLOW_IDS input d attempt sid env w in
  (fst (Event_new env w) = Ok ev
   /\ mw_events (snd (Event_new env w)) = mw_events w ++ [false])
  /\ (mw_threads (snd run)
      = mw_threads w ++ started input d env attempt FLOW_IDS 0 sid ev
      /\ Forall (fun th => Forall worker_effect (snd th))
                (started input d env attempt FLOW_IDS 0 sid ev))
  /\ exists tr,
       Forall quiet tr
       /\ ((exists all,
              fst run = Ok (Fallthrough all)
              /\ mw_trace (snd run)
                 = mw_trace w ++ ETime (me_time env (mw_clock w))
                              :: ENewEvent ev :: tr
              /\ mw_events (snd run) = mw_events w ++ [false])
           \/ (exists r message flow_id elapsed now,
                 fst run = Ok (Returned message flow_id elapsed)
                 /\ r_success r = true
                 /\ mw_trace (snd run)
                    = mw_trace w ++ ETime (me_time env (mw_clock w))
                                 :: ENewEvent ev
                                 :: tr ++ [EAppend r; ESet ev; ETime now;
                                           ESleep (1#2); EShutdown]
                 /\ mw_events (snd run) = mw_events w ++ [true])).
Proof.
  intros H ev run.
  split; [split; reflexivity|].
  destruct (first_success _ (completed_of_ok FLOW_IDS input d env attempt sid ev))
    as [P|(pre & f & post & o & C & P & R & X & S)].
  - unfold run.
    rewrite (run_attempt_no_success FLOW_IDS H input d attempt sid env w P).
    cbn [fst snd mw_trace mw_threads mw_events].
    split; [split; [reflexivity | apply started_read_only]|].
    exists (submissions d FLOW_IDS 0 sid ev
            ++ map EAppend (entries_of (completed_of FLOW_IDS input d env attempt sid ev))
            ++ [EShutdown]).
    split.
    + apply Forall_app. split; [apply submissions_quiet|].
      apply Forall_app. split; [apply passed_over_quiet; exact P|].
      repeat constructor.
    + left. eexists. split; [reflexivity|]. split; reflexivity.
  - unfold run.
    rewrite (run_attempt_first_success FLOW_IDS H input d attempt sid env w
               pre f post o C P R X S).
    cbn [fst snd mw_trace mw_threads mw_events].
    split; [split; [reflexivity | apply started_read_only]|].
    exists (submissions d FLOW_IDS 0 sid ev ++ map EAppend (entries_of pre)).
    split.
    + apply Forall_app. split; [apply submissions_quiet|].
      apply passed_over_quiet; exact P.
    + right. exists (entry_of f o). do 4 eexists.
      split; [reflexivity|]. split; [exact S|].
      split; [|reflexivity].
      unfold opening. simpl. rewrite <- !app_assoc. reflexivity.
Qed.

Lemma C7_winner_signal_witness :
  let env := main_env (fun _ _ => good_reply "hello") (fun _ _ _ => true)
                      (fun _ => [0]%nat) in
  ["A"]%string <> []
  /\ Forall (fun th => Forall worker_effect (snd th))
            (started (u "hi") 0 env 1 ["A"]%string 0 0%N 0%nat).
Proof.
  intros env.
  destruct (C7_winner_signal ["A"]%string (u "hi") 0 1 0%N env main_start)
    as (_ & [_ W] & _).
  - discriminate.
  - split; [discriminate | exact W].
Defined.

(* ===================================================================== *)
(** ** The retry loop: failed attempts, exhaustion, errors *)
(* ===================================================================== *)

Lemma attempt_range_In (max_retries a : Z) :
  In a (attempt_range max_retries) -> (1 <= a <= max_retries)%Z.
Proof.
  unfold attempt_range. rewrite in_map_iff. intros [n [<- H]].
  apply in_seq in H. lia.
Qed.

Lemma attempt_range_length (max_retries : Z) :
  List.length (attempt_range max_retries) = Z.to_nat max_retries.
Proof. unfold attempt_range. rewrite length_map, length_seq. reflexivity. Qed.

Lemma race_eq FLOW_IDS input d max_retries retry_delay (env : MainEnv) (w : Main) :
  call_langflow_staggered_race FLOW_IDS input d max_retries retry_delay env w
  = retry_loop FLOW_IDS input d max_retries retry_delay
      (attempt_range max_retries) (me_uuid4 env (mw_uuids w)) env
      {| mw_clock := mw_clock w; mw_uuids := S (mw_uuids w);
         mw_events := mw_events w; mw_threads := mw_threads w;
         mw_trace := mw_trace w ++ [EUuid4 (me_uuid4 env (mw_uuids w))] |}.
Proof. reflexivity. Qed.

(** C6.  When no request of any of the [max_retries] attempts brings a
    usable answer, the race ends in the final failure, whose message gives
    as total [len(FLOW_IDS) * max_retries]; exactly [max_retries] attempts
    were made, each with one worker per flow, and none follows.  (At
    least one flow is configured.) *)
Theorem C6_exhaustion FLOW_IDS input d max_retries retry_delay
    (env : MainEnv) (w : Main) :
  FLOW_IDS <> [] ->
  (forall a, (1 <= a <= max_retries)%Z -> all_fail FLOW_IDS env a) ->
  let run :=
    call_langflow_staggered_race FLOW_IDS input d max_retries retry_delay env w in
  fst run
  = Raised (AllFlowsFailed max_retries (Z.of_nat (List.length FLOW_IDS))
              (Z.of_nat (List.length FLOW_IDS) * max_retries))
  /\ count is_new_event (mw_trace (snd run))
     = (count is_new_event (mw_trace w) + Z.to_nat max_retries)%nat
  /\ List.length (mw_threads (snd run))
     = (List.length (mw_threads w)
        + Z.to_nat max_retries * List.length FLOW_IDS)%nat.
Proof.
  intros H A run. unfold run. rewrite race_eq.
  match goal with
  | |- context [retry_loop _ _ _ _ _ _ ?s env ?w0] =>
      destruct (retry_exhausted FLOW_IDS H input d max_retries retry_delay
                  (attempt_range max_retries) s env w0
                  (fun a H => A a (attempt_range_In max_retries a H)))
        as (w' & E & C & T)
  end.
  rewrite E. cbn [fst snd]. split; [reflexivity|].
  rewrite C, T, attempt_range_length. cbn [mw_trace mw_threads].
  rewrite count_app, count_cons, count_nil. simpl. split; lia.
Qed.

Lemma C6_exhaustion_witness :
  let env := main_env (fun _ _ => PostRaises Timeout) (fun _ _ _ => false)
                      (fun _ => [0; 1; 2]%nat) in
  fst (call_langflow_staggered_race configured_FLOW_IDS (u "hi") 0 3 2 env
         main_start)
  = Raised (AllFlowsFailed 3 3 9).
Proof.
  intros env.
  destruct (C6_exhaustion configured_FLOW_IDS (u "hi") 0 3 2 env main_start)
    as [R _].
  - discriminate.
  - intros a _ idx _. reflexivity.
  - exact R.
Defined.

(** C5.  When no request of attempt [k] (and of the attempts before it)
    brings a usable answer and [k] is not the last attempt, attempt [k],
    whose workers were all submitted with the session id [old_id], is
    reported as failed with no success; the loop sleeps [retry_delay]
    without any condition, draws a new session id with [uuid4()] and runs
    attempt [k + 1] with it: every worker of attempt [k + 1] is submitted
    with the new id, every request of these workers carries it, and these
    submissions are part of the trace of the race.  The new id differs
    from the one of attempt [k], given that [uuid4()] does not return the
    same value twice in a row.  Whatever happens, the race makes at most
    [max_retries] attempts.  (At least one flow is configured.) *)
Theorem C5_all_fail_retries FLOW_IDS input d max_retries retry_delay
    (env : MainEnv) (w : Main) (k : nat) :
  FLOW_IDS <> [] ->
  (forall i, me_uuid4 env (S i) <> me_uuid4 env i) ->
  (1 <= k)%nat -> (Z.of_nat k < max_retries)%Z ->
  (forall a, (1 <= a <= Z.of_nat k)%Z -> all_fail FLOW_IDS env a) ->
  let race :=
    call_langflow_staggered_race FLOW_IDS input d max_retries retry_delay in
  let loop := retry_loop FLOW_IDS input d max_retries retry_delay in
  let old_id := me_uuid4 env (mw_uuids w + k - 1) in
  let new_id := me_uuid4 env (mw_uuids w + k) in
  let schedule (session_id : N) :=
    map (fun p => (fst p, snd p, session_id, stagger d (fst p)))
        (combine (seq 0 (List.length FLOW_IDS)) FLOW_IDS) in
  (exists w_k all w_failed w_next later,
      race env w = loop (Z.of_nat k :: Z.of_nat (S k) :: later) old_id env w_k
      /\ run_attempt FLOW_IDS input d (Z.of_nat k) old_id env w_k
         = (Ok (Fallthrough all), w_failed)
      /\ (exists tr_k,
            mw_trace w_failed = mw_trace w_k ++ tr_k
            /\ submitted tr_k = schedule old_id)
      /\ mw_trace w_next
         = mw_trace w_failed
           ++ [ETime (me_time env (mw_clock w_failed));
               EReport (Z.of_nat k) 0 (List.length all);
               ESleep retry_delay; EUuid4 new_id]
      /\ race env w = loop (Z.of_nat (S k) :: later) new_id env w_next
      /\ exists exit w_sub tr threads rest,
           run_attempt FLOW_IDS input d (Z.of_nat (S k)) new_id env w_next
           = (Ok exit, w_sub)
           /\ mw_trace w_sub = mw_trace w_next ++ tr
           /\ submitted tr = schedule new_id
           /\ mw_threads w_sub = mw_threads w_next ++ threads
           /\ List.length threads = List.length FLOW_IDS
           /\ Forall (fun th =>
                        forall e, In e (filter is_post (snd th)) ->
                          exists flow_id, In flow_id FLOW_IDS
                            /\ e = EPost (BASE_URL ++ "/" ++ flow_id) input
                                         new_id)
                     threads
           /\ mw_trace (snd (race env w)) = mw_trace w_sub ++ rest)
  /\ new_id <> old_id
  /\ (count is_new_event (mw_trace (snd (race env w)))
      <= count is_new_event (mw_trace w) + Z.to_nat max_retries)%nat.
Proof.
  intros H U K1 K2 A race loop old_id new_id schedule.
  assert (Hn : (k < Z.to_nat max_retries)%nat) by lia.
  assert (R : attempt_range max_retries
              = map Z.of_nat (seq 1 (k - 1))
                ++ Z.of_nat k :: Z.of_nat (S k)
                   :: map Z.of_nat (seq (S (S k)) (Z.to_nat max_retries - k - 1))).
  { unfold attempt_range.
    replace (Z.to_nat max_retries)
      with ((k - 1) + S (S (Z.to_nat max_retries - k - 1)))%nat at 1 by lia.
    rewrite seq_app, map_app. f_equal.
    replace (1 + (k - 1))%nat with k by lia. reflexivity. }
  split; [|split].
  - unfold race. rewrite race_eq, R.
    match goal with
    | |- context [retry_loop _ _ _ _ _ (?pre ++ ?rest) ?s env ?w0] =>
        destruct (retry_prefix FLOW_IDS H input d max_retries retry_delay
                    pre rest s env w0) as (w_k & E & Uk)
    end.
    { intros a Ha. apply in_map_iff in Ha. destruct Ha as [n [<- Ha]].
      apply in_seq in Ha. split; [apply A; lia | lia]. }
    cbn [mw_uuids] in E, Uk. rewrite length_map, length_seq in E, Uk.
    assert (S1 : match map Z.of_nat (seq 1 (k - 1)) with
                 | [] => me_uuid4 env (mw_uuids w)
                 | _ => me_uuid4 env (S (mw_uuids w) + (k - 1) - 1)
                 end = old_id).
    { unfold old_id. destruct (k - 1)%nat as [|m] eqn:Km; simpl; f_equal; lia. }
    rewrite S1 in E.
    destruct (failed_turn FLOW_IDS H input d max_retries retry_delay
                (Z.of_nat k)
                (Z.of_nat (S k)
                 :: map Z.of_nat (seq (S (S k)) (Z.to_nat max_retries - k - 1)))
                old_id env w_k)
      as (all & w_failed & w_next & Er & _ & El & Tr & _ & _ & _).
    { apply A. lia. }
    assert (L : (Z.of_nat k <? max_retries)%Z = true) by (apply Z.ltb_lt; lia).
    rewrite L in El, Tr.
    assert (N1 : me_uuid4 env (mw_uuids w_k) = new_id).
    { unfold new_id. f_equal. lia. }
    rewrite N1 in El, Tr.
    destruct (run_attempt_submits FLOW_IDS input d (Z.of_nat k) old_id env w_k H)
      as (exit_k & w_k' & tr_k & Ek & Tk & Sk & _).
    rewrite Er in Ek. injection Ek as _ <-.
    destruct (run_attempt_submits FLOW_IDS input d (Z.of_nat (S k)) new_id env
                w_next H)
      as (exit & w_sub & tr & En & Tn & Sn & Thn).
    exists w_k, all, w_failed, w_next.
    eexists. split; [exact E|]. split; [exact Er|].
    split; [exists tr_k; split; [exact Tk | exact Sk]|].
    split; [exact Tr|].
    split; [rewrite E; exact El|].
    assert (X : exists rest,
               mw_trace (snd (retry_loop FLOW_IDS input d max_retries retry_delay
                                (Z.of_nat (S k)
                                 :: map Z.of_nat
                                      (seq (S (S k))
                                           (Z.to_nat max_retries - k - 1)))
                                new_id env w_next))
               = mw_trace w_sub ++ rest).
    { cbn [retry_loop]. unfold bind at 1. rewrite En.
      destruct exit as [m f el | all'].
      - exists []. unfold ret. cbn [snd]. rewrite app_nil_r. reflexivity.
      - unfold bind at 1. rewrite after_failure_eq.
        match goal with
        | |- context [retry_loop _ _ _ _ _ ?l ?s env ?w2] =>
            destruct (retry_loop_extends FLOW_IDS input d max_retries
                        retry_delay H l s env w2) as (tr' & E')
        end.
        rewrite E'. cbn [mw_trace]. eexists.
        rewrite <- !app_assoc. reflexivity. }
    destruct X as (rest & X).
    exists exit, w_sub, tr. eexists. exists rest.
    split; [exact En|]. split; [exact Tn|]. split; [exact Sn|].
    split; [exact Thn|]. split; [apply started_length|].
    split; [apply started_posts|].
    rewrite E, El. exact X.
  - unfold new_id, old_id. specialize (U (mw_uuids w + k - 1)%nat).
    replace (S (mw_uuids w + k - 1)) with (mw_uuids w + k)%nat in U by lia.
    exact U.
  - unfold race. rewrite race_eq.
    match goal with
    | |- context [retry_loop _ _ _ _ _ ?l ?s env ?w0] =>
        destruct (retry_loop_bound FLOW_IDS H input d max_retries retry_delay
                    l s env w0) as (r & w' & E & _ & B & _)
    end.
    rewrite E. cbn [snd]. cbn [mw_trace] in B.
    rewrite attempt_range_length, count_app, count_cons, count_nil in B.
    simpl in B. lia.
Qed.

Lemma C5_all_fail_retries_witness :
  let env := main_env (fun _ _ => PostRaises Timeout) (fun _ _ _ => false)
                      (fun _ => [0]%nat) in
  let race := call_langflow_staggered_race ["A"]%string (u "hi") 0 2 2 in
  me_uuid4 env 1 <> me_uuid4 env 0
  /\ (count is_new_event (mw_trace (snd (race env main_start))) <= 2)%nat
  /\ exists before tr rest,
       mw_trace (snd (race env main_start))
       = before ++ [ESleep 2; EUuid4 (me_uuid4 env 1)] ++ tr ++ rest
       /\ submitted tr = [(0%nat, "A"%string, me_uuid4 env 1, stagger 0 0)].
Proof.
  intros env race.
  destruct (C5_all_fail_retries ["A"]%string (u "hi") 0 2 2 env main_start 1)
    as ((w_k & all & w_failed & w_next & later & _ & _ & _ & Tr & _
         & exit & w_sub & tr & threads & rest & _ & Tn & Sn & _ & _ & _ & X)
        & F & B).
  - discriminate.
  - intros i H. pose proof (Nat2N.inj (S i) i H). lia.
  - lia.
  - lia.
  - intros a _ idx _. reflexivity.
  - split; [exact F|]. split; [exact B|].
    exists (mw_trace w_failed
            ++ [ETime (me_time env (mw_clock w_failed));
                EReport (Z.of_nat 1) 0 (List.length all)]), tr, rest.
    split; [|exact Sn].
    unfold race. rewrite X, Tn, Tr. rewrite <- !app_assoc. reflexivity.
Defined.

Lemma missing_path_unusable (data : value) (x : exc) :
  subscripts data message_path = Raised x ->
  usable (Response true (Some data)) = false.
Proof.
  intros H. unfold usable, reply_text, extract_message_from_response.
  destruct (subscripts_cases message_path data) as [[v E]|[y [E L]]];
    rewrite E in H; [discriminate|].
  rewrite E. simpl. destruct L as [-> | [-> | ->]]; reflexivity.
Qed.

(** C8.  The errors of one backend call never leave the worker or the
    scheduler as exceptions.  The worker returns exactly one outcome
    whatever [requests.post] does, neither raising nor looping; it sent one
    request unless it was cancelled; and when the call timed out, failed in
    transport or with an HTTP error status, or the body was not JSON or
    lacked the expected path, the outcome has [ok = false] and the empty
    payload.  The race as a whole ends with a result or with its own final
    failure, never with the exception of a worker (provided that at least
    one flow is configured: the executor cannot be created for none). *)
Theorem C8_errors_are_outcomes :
  (forall flow_id input sid delay ev (env : ThreadEnv) (w : Thread),
      exists o w' tr,
        call_single_flow_with_delay flow_id input sid delay ev env w = (Ok o, w')
        /\ th_trace w' = th_trace w ++ tr
        /\ o_flow_id o = flow_id
        /\ count is_post tr = (if o_cancelled o then 0 else 1)%nat
        /\ (usable (te_http env) = false ->
            o_success o = false /\ o_message o = VStr []))
  /\ (forall x status body data y,
        usable (PostRaises x) = false
        /\ usable (Response false body) = false
        /\ usable (Response status None) = false
        /\ (subscripts data message_path = Raised y ->
            usable (Response true (Some data)) = false))
  /\ (forall FLOW_IDS input d max_retries retry_delay (env : MainEnv) (w : Main),
        FLOW_IDS <> [] ->
        exists r w',
          call_langflow_staggered_race FLOW_IDS input d max_retries retry_delay
            env w = (r, w')
          /\ ((exists x, r = Ok x)
              \/ r = Raised (AllFlowsFailed max_retries
                               (Z.of_nat (List.length FLOW_IDS))
                               (Z.of_nat (List.length FLOW_IDS) * max_retries)))).
Proof.
  split; [|split].
  - intros flow_id input sid delay ev env w.
    destruct (worker_spec flow_id input sid delay ev env w)
      as (o & w' & tr & E & T & _ & I & _ & P & S & M).
    exists o, w', tr. split; [exact E|]. split; [exact T|].
    split; [exact I|]. split; [exact P|].
    intros H. rewrite H, andb_false_r in S. rewrite S in M. auto.
  - intros x status body data y.
    split; [reflexivity|]. split; [reflexivity|].
    split; [destruct status; reflexivity|].
    apply missing_path_unusable.
  - intros FLOW_IDS input d max_retries retry_delay env w H.
    rewrite race_eq.
    match goal with
    | |- context [retry_loop _ _ _ _ _ ?l ?s env ?w0] =>
        destruct (retry_loop_bound FLOW_IDS H input d max_retries retry_delay
                    l s env w0) as (r & w' & E & R & _)
    end.
    exists r, w'. split; [exact E | exact R].
Qed.

Lemma C8_errors_are_outcomes_witness :
  exists o w' tr,
    call_single_flow_with_delay "flow" (u "hi") 1%N 0 None
      (thread_env (fun _ => false) (PostRaises Timeout)) thread_start
    = (Ok o, w')
    /\ th_trace w' = th_trace thread_start ++ tr
    /\ o_success o = false /\ o_message o = VStr [].
Proof.
  destruct C8_errors_are_outcomes as [W _].
  destruct (W "flow"%string (u "hi") 1%N 0 None
              (thread_env (fun _ => false) (PostRaises Timeout)) thread_start)
    as (o & w' & tr & E & T & _ & _ & F).
  exists o, w', tr. split; [exact E|]. split; [exact T|].
  apply F. reflexivity.
Defined.

(* ===================================================================== *)
(** ** Concrete runs *)
(* ===================================================================== *)

(** Flows A, B, C staggered by 7 seconds: A fails, B answers "hello", and C,
    still in its delay, sees the signal at its 19th poll and never posts.
    The race returns B's answer in the first attempt. *)
Example race_second_flow_wins :
  let env :=
    main_env (fun _ idx => match idx with
                           | O => PostRaises ConnectionError
                           | _ => good_reply "hello"
                           end)
             (fun _ idx k => match idx with
                             | 2%nat => (18 <=? k)%nat
                             | _ => false
                             end)
             (fun _ => [0; 1; 2]%nat) in
  let run :=
    call_langflow_staggered_race ["A"; "B"; "C"]%string (u "hi") 7 3 2 env
      main_start in
  fst run = Ok (VStr (u "hello"), "B"%string, 1 - 0)
  /\ map (fun th => count is_post (snd th)) (mw_threads (snd run))
     = [1; 1; 0]%nat
  /\ mw_events (snd run) = [true]
  /\ count is_new_event (mw_trace (snd run)) = 1%nat.
Proof. vm_compute. repeat split. Qed.

(** Flows A and B staggered by 7 seconds: A answers after 6.75 seconds and
    wins, B misses the signal in its last half second and posts as well. *)
Example race_late_signal_posts_twice :
  let env :=
    main_env (fun _ _ => good_reply "hello")
             (fun _ _ => signal_at (27#4))
             (fun _ => [0; 1]%nat) in
  let run :=
    call_langflow_staggered_race ["A"; "B"]%string (u "hi") 7 3 2 env
      main_start in
  fst run = Ok (VStr (u "hello"), "A"%string, 1 - 0)
  /\ map (fun th => count is_post (snd th)) (mw_threads (snd run))
     = [1; 1]%nat.
Proof. vm_compute. repeat split. Qed.

(** Three attempts without a usable answer: three session ids, two
    cool-down sleeps of [retry_delay], then the final failure. *)
Example race_exhausted :
  let env :=
    main_env (fun _ _ => Response true (Some (body_with (VStr (u "  ")))))
             (fun _ _ _ => false) (fun _ => [1; 0]%nat) in
  let run :=
    call_langflow_staggered_race ["A"; "B"]%string (u "hi") 0 3 2 env
      main_start in
  fst run = Raised (AllFlowsFailed 3 2 6)
  /\ filter (fun e => match e with
                      | EUuid4 _ | ESleep _ | EReport _ _ _ => true
                      | _ => false
                      end) (mw_trace (snd run))
     = [EUuid4 0; EReport 1 0 2; ESleep 2; EUuid4 1;
        EReport 2 0 2; ESleep 2; EUuid4 2; EReport 3 0 2].
Proof. vm_compute. repeat split. Qed.

(* ===================================================================== *)
(** ** Further properties: extraction and the worker's wait *)
(* ===================================================================== *)

(** X1.  [extract_message_from_response] never raises: it gives the value
    found along ["outputs"][0]["outputs"][0]["results"]["message"]["text"],
    of whatever type, and the empty string as soon as one step of the path
    fails, be it a missing key, an empty list or a value that cannot be
    subscripted. *)
Theorem extract_defaults_to_empty (data : value) :
  extract_message_from_response data
  = Ok (match subscripts data message_path with
        | Ok text => text
        | _ => VStr []
        end).
Proof.
  unfold extract_message_from_response.
  destruct (subscripts_cases message_path data) as [[v E]|[x [E L]]];
    rewrite E; simpl; [reflexivity|].
  destruct L as [-> | [-> | ->]]; reflexivity.
Qed.

(** X2.  Only the first element of each ["outputs"] list is read: when
    the path leads to [text] through the first elements, [text] is the
    result, whatever else the dicts and lists hold. *)
Theorem extract_reads_first_outputs d0 d1 r1 d2 r2 d3 d4 text :
  dict_get d0 (u "outputs") = Some (VList (VDict d1 :: r1)) ->
  dict_get d1 (u "outputs") = Some (VList (VDict d2 :: r2)) ->
  dict_get d2 (u "results") = Some (VDict d3) ->
  dict_get d3 (u "message") = Some (VDict d4) ->
  dict_get d4 (u "text") = Some text ->
  extract_message_from_response (VDict d0) = Ok text.
Proof.
  intros H0 H1 H2 H3 H4.
  unfold extract_message_from_response, message_path.
  cbn [subscripts getitem rbind].
  rewrite H0. cbn [subscripts getitem rbind].
  rewrite H1. cbn [subscripts getitem rbind].
  rewrite H2. cbn [subscripts getitem rbind].
  rewrite H3. cbn [subscripts getitem rbind].
  rewrite H4. reflexivity.
Qed.

Lemma slept_app (a b : list effect) : slept (a ++ b) == slept a + slept b.
Proof.
  induction a as [|e a IH]; simpl; [lra|].
  destruct e; try exact IH. rewrite IH. lra.
Qed.

Lemma slept_clock (tr : list effect) : Forall clock_reading tr -> slept tr == 0.
Proof.
  induction 1 as [|e tr [t ->] _ IH]; simpl; [lra | exact IH].
Qed.

Lemma wait_loop_done (n : nat) ev delay waited (env : ThreadEnv) (w : Thread) :
  delay <= waited ->
  wait_loop (S n) ev delay waited env w = (Ok Elapsed, w).
Proof.
  intros H. rewrite wait_loop_eq. apply Qltb_false in H. rewrite H. reflexivity.
Qed.

Lemma wait_loop_slept : forall (n : nat) ev delay waited (env : ThreadEnv) w,
  (delay - waited) * 2 <= inject_Z (Z.of_nat n) ->
  waited <= delay ->
  slept (th_trace (snd (wait_loop (S n) ev delay waited env w)))
    <= slept (th_trace w) + (delay - waited)
  /\ (fst (wait_loop (S n) ev delay waited env w) = Ok Elapsed ->
      slept (th_trace (snd (wait_loop (S n) ev delay waited env w)))
      == slept (th_trace w) + (delay - waited)).
Proof.
  induction n as [|m IH]; intros ev delay waited env w B L.
  - change (inject_Z (Z.of_nat 0)) with 0 in B.
    rewrite wait_loop_done by lra. simpl. split; [lra | intros _; lra].
  - rewrite wait_loop_eq.
    destruct (Qltb waited delay) eqn:D.
    + apply Qltb_true in D.
      assert (B' : (delay - (waited + (1#2))) * 2 <= inject_Z (Z.of_nat m)).
      { rewrite inject_succ in B. lra. }
      assert (step : forall w0 : Thread,
                 slept (th_trace w0) == slept (th_trace w) ->
                 let w1 := th_emit (ESleep (Qmin (1#2) (delay - waited))) w0 in
                 slept (th_trace (snd (wait_loop (S m) ev delay (waited + (1#2)) env w1)))
                   <= slept (th_trace w) + (delay - waited)
                 /\ (fst (wait_loop (S m) ev delay (waited + (1#2)) env w1) = Ok Elapsed ->
                     slept (th_trace (snd (wait_loop (S m) ev delay (waited + (1#2)) env w1)))
                     == slept (th_trace w) + (delay - waited))).
      { intros w0 E0 w1.
        assert (S1 : slept (th_trace w1)
                     == slept (th_trace w) + Qmin (1#2) (delay - waited)).
        { unfold w1, th_emit. cbn [th_trace]. rewrite slept_app. simpl. lra. }
        destruct (Qlt_le_dec delay (waited + (1#2))) as [Short|Long].
        - rewrite wait_loop_done by lra. cbn [fst snd].
          assert (M : Qmin (1#2) (delay - waited) == delay - waited).
          { apply Q.min_r. lra. }
          rewrite S1, M. split; [lra | intros _; lra].
        - destruct (IH ev delay (waited + (1#2)) env w1 B' Long) as [I1 I2].
          assert (M : Qmin (1#2) (delay - waited) == 1#2).
          { apply Q.min_l. lra. }
          rewrite S1, M in I1. split; [lra|].
          intros E. rewrite (I2 E), S1, M. lra. }
      destruct ev as [e|].
      * unfold bind at 1 3 5. unfold is_set at 1 2 3.
        destruct (te_is_set env (th_polls w)).
        -- unfold ret. cbn [fst snd th_trace]. rewrite slept_app. simpl.
           split; [lra | discriminate].
        -- unfold bind, th_sleep.
           apply (step {| th_polls := S (th_polls w); th_clock := th_clock w;
                          th_trace := th_trace w ++ [EIsSet e false] |}).
           cbn [th_trace]. rewrite slept_app. simpl. lra.
      * unfold bind, ret, th_sleep. apply (step w). reflexivity.
    + apply Qltb_false in D. unfold ret. simpl. split; [lra | intros _; lra].
Qed.

Lemma wait_loop_polls : forall (n : nat) e delay waited (env : ThreadEnv) w (k : nat),
  (delay - waited) * 2 <= inject_Z (Z.of_nat n) ->
  fst (wait_loop (S n) (Some e) delay waited env w) = Ok Elapsed ->
  inject_Z (Z.of_nat k) - 1 < (delay - waited) * 2 ->
  (delay - waited) * 2 <= inject_Z (Z.of_nat k) ->
  th_polls (snd (wait_loop (S n) (Some e) delay waited env w))
  = (th_polls w + k)%nat.
Proof.
  induction n as [|m IH]; intros e delay waited env w k B E K1 K2.
  - change (inject_Z (Z.of_nat 0)) with 0 in B.
    rewrite wait_loop_done by lra. simpl.
    destruct k as [|k']; [lia|]. rewrite inject_succ in K1.
    assert (0 <= inject_Z (Z.of_nat k')) by (rewrite <- (Zle_Qle 0); lia). lra.
  - rewrite wait_loop_eq in E |- *.
    destruct (Qltb waited delay) eqn:D.
    + apply Qltb_true in D.
      destruct k as [|k'].
      { change (inject_Z (Z.of_nat 0)) with 0 in K2. lra. }
      rewrite inject_succ in K1, K2, B.
      unfold bind at 1 in E. unfold bind at 1. unfold is_set at 1 in E.
      unfold is_set at 1.
      destruct (te_is_set env (th_polls w)); [discriminate E|].
      unfold bind, th_sleep, th_emit in E |- *. cbn beta iota in E |- *.
      rewrite (IH e delay (waited + (1#2)) env _ k'); try lra.
      * cbn [th_polls]. lia.
      * exact E.
    + apply Qltb_false in D. unfold ret. simpl.
      destruct k as [|k']; [lia|]. rewrite inject_succ in K1.
      assert (0 <= inject_Z (Z.of_nat k')) by (rewrite <- (Zle_Qle 0); lia). lra.
Qed.

Lemma poll_count_ceiling (delay : Q) :
  0 < delay ->
  inject_Z (Z.of_nat (poll_count delay)) - 1 < (delay - 0) * 2.
Proof.
  intros H. unfold poll_count.
  pose proof (Qceiling_lt (delay * 2)) as C.
  pose proof (Qle_ceiling (delay * 2)) as C'.
  rewrite Z2Nat.id.
  - unfold Z.sub in C. rewrite inject_Z_plus in C.
    assert (X : inject_Z (- (1)) = (-1#1)) by reflexivity.
    rewrite X in C. lra.
  - destruct (Z_lt_le_dec (Qceiling (delay * 2)) 0) as [N|N]; [|exact N].
    exfalso. assert (inject_Z (Qceiling (delay * 2)) < 0).
    { rewrite <- (Zlt_Qlt _ 0). exact N. }
    lra.
Qed.

(** X3.  A worker with a positive start delay never sleeps longer than
    that delay in total, and one that is not cancelled sleeps exactly the
    delay, also when the delay is not a multiple of half a second (the last
    sleep is then shorter). *)
Theorem worker_sleeps_its_delay flow_id input sid delay ev (env : ThreadEnv)
    (w : Thread) :
  0 < delay ->
  exists o w',
    call_single_flow_with_delay flow_id input sid delay ev env w = (Ok o, w')
    /\ slept (th_trace w') <= slept (th_trace w) + delay
    /\ (o_cancelled o = false ->
        slept (th_trace w') == slept (th_trace w) + delay).
Proof.
  intros D.
  pose proof (wait_loop_slept (poll_count delay) ev delay 0 env w
                (poll_count_enough delay D) (Qlt_le_weak _ _ D)) as [S1 S2].
  destruct (wait_loop_spec (poll_count delay) ev delay 0 env w
              (poll_count_enough delay D))
    as (r & w1 & tr & E & _ & _ & _ & _ & _).
  unfold call_single_flow_with_delay.
  rewrite (proj2 (Qltb_true 0 delay) D).
  unfold bind at 1. rewrite E. rewrite E in S1, S2. cbn [fst snd] in S1, S2.
  destruct r.
  - unfold ret. do 2 eexists. split; [reflexivity|].
    cbn [o_cancelled]. split; [lra | discriminate].
  - destruct (send_request_spec flow_id input sid env w1)
      as (o & w2 & tr2 & E2 & _ & T2 & F2 & _).
    rewrite E2. exists o, w2. split; [reflexivity|].
    assert (X : slept (th_trace w2) == slept (th_trace w1)).
    { rewrite T2, slept_app. simpl. rewrite (slept_clock tr2 F2). lra. }
    rewrite X. specialize (S2 eq_refl). split; [lra | intros _; lra].
Qed.

(** X4.  A worker with a positive start delay [d] that is not cancelled
    has polled the event exactly [ceil(2 * d)] times before its request. *)
Theorem worker_polls_every_half_second flow_id input sid delay e
    (env : ThreadEnv) (w : Thread) :
  0 < delay ->
  exists o w',
    call_single_flow_with_delay flow_id input sid delay (Some e) env w
    = (Ok o, w')
    /\ (o_cancelled o = false ->
        th_polls w' = (th_polls w + poll_count delay)%nat).
Proof.
  intros D.
  pose proof (fun E => wait_loop_polls (poll_count delay) e delay 0 env w
                (poll_count delay) (poll_count_enough delay D) E
                (poll_count_ceiling delay D) (poll_count_enough delay D)) as P.
  destruct (wait_loop_spec (poll_count delay) (Some e) delay 0 env w
              (poll_count_enough delay D))
    as (r & w1 & tr & E & _ & _ & _ & _ & _).
  unfold call_single_flow_with_delay.
  rewrite (proj2 (Qltb_true 0 delay) D).
  unfold bind at 1. rewrite E. rewrite E in P. cbn [fst snd] in P.
  destruct r.
  - unfold ret. do 2 eexists. split; [reflexivity|]. discriminate.
  - destruct (send_request_spec flow_id input sid env w1)
      as (o & w2 & tr2 & E2 & P2 & _).
    rewrite E2. exists o, w2. split; [reflexivity|].
    intros _. rewrite P2. apply P. reflexivity.
Qed.

(** X5.  A worker that is not cancelled posts exactly once, to
    [BASE_URL/flow_id], with the query and the session id it was given; a
    cancelled worker posts nothing. *)
Theorem worker_posts_once_to_its_flow flow_id input sid delay ev
    (env : ThreadEnv) (w : Thread) :
  exists o w' tr,
    call_single_flow_with_delay flow_id input sid delay ev env w = (Ok o, w')
    /\ th_trace w' = th_trace w ++ tr
    /\ filter is_post tr
       = (if o_cancelled o then []
          else [EPost (BASE_URL ++ "/" ++ flow_id) input sid]).
Proof. exact (worker_posts flow_id input sid delay ev env w). Qed.

(** X6.  Called without an event ([winner_event=None], the default), the
    worker cannot be cancelled: whatever its delay, it polls nothing and
    sends its request. *)
Theorem worker_without_event_always_posts flow_id input sid delay
    (env : ThreadEnv) (w : Thread) :
  exists o w' tr,
    call_single_flow_with_delay flow_id input sid delay None env w = (Ok o, w')
    /\ th_trace w' = th_trace w ++ tr
    /\ o_cancelled o = false
    /\ count is_poll tr = 0%nat
    /\ count is_post tr = 1%nat.
Proof.
  unfold call_single_flow_with_delay.
  destruct (Qltb 0 delay) eqn:D.
  - apply Qltb_true in D.
    destruct (wait_loop_spec (poll_count delay) None delay 0 env w
                (poll_count_enough delay D))
      as (r & w1 & tr & E & _ & T & F & _ & N).
    destruct (N eq_refl) as [-> Np].
    unfold bind at 1. rewrite E.
    destruct (send_request_spec flow_id input sid env w1)
      as (o & w2 & tr2 & E2 & _ & T2 & F2 & C2 & _).
    rewrite E2. exists o, w2. eexists. split; [reflexivity|].
    split; [rewrite T2, T, <- app_assoc; reflexivity|].
    split; [exact C2|].
    rewrite !count_app, !count_cons, Np, (waiting_no_post tr F).
    rewrite (proj1 (clock_counts is_poll tr2 (fun _ => eq_refl) F2)).
    rewrite (proj1 (clock_counts is_post tr2 (fun _ => eq_refl) F2)).
    split; reflexivity.
  - unfold bind at 1, ret at 1.
    destruct (send_request_spec flow_id input sid env w)
      as (o & w2 & tr2 & E2 & _ & T2 & F2 & C2 & _).
    rewrite E2. exists o, w2. eexists. split; [reflexivity|].
    split; [exact T2|]. split; [exact C2|].
    rewrite !count_cons.
    rewrite (proj1 (clock_counts is_poll tr2 (fun _ => eq_refl) F2)).
    rewrite (proj1 (clock_counts is_post tr2 (fun _ => eq_refl) F2)).
    split; reflexivity.
Qed.

(* ===================================================================== *)
(** ** Further properties: attempts and races *)
(* ===================================================================== *)

(** *** Submissions *)

(** X8.  Every attempt hands every flow of [FLOW_IDS] to one worker, in
    the order of the list, with the session id of the attempt and the
    delay of its position; every request that these workers send carries
    that session id and the query, and goes to one of the flows. *)
Theorem attempt_submits_every_flow FLOW_IDS input d attempt sid
    (env : MainEnv) (w : Main) :
  FLOW_IDS <> [] ->
  exists exit w' tr,
    run_attempt FLOW_IDS input d attempt sid env w = (Ok exit, w')
    /\ mw_trace w' = mw_trace w ++ tr
    /\ submitted tr
       = map (fun p => (fst p, snd p, sid, stagger d (fst p)))
             (combine (seq 0 (List.length FLOW_IDS)) FLOW_IDS)
    /\ exists threads,
         mw_threads w' = mw_threads w ++ threads
         /\ List.length threads = List.length FLOW_IDS
         /\ Forall (fun th =>
                      forall e, In e (filter is_post (snd th)) ->
                        exists flow_id, In flow_id FLOW_IDS
                          /\ e = EPost (BASE_URL ++ "/" ++ flow_id) input sid)
                   threads.
Proof.
  intros H.
  pose (ev := List.length (mw_events w)).
  destruct (first_success _ (completed_of_ok FLOW_IDS input d env attempt sid ev))
    as [P|(pre & f & post & o & C & P & R & X & Hs)].
  - rewrite (run_attempt_no_success FLOW_IDS H input d attempt sid env w P).
    do 3 eexists. split; [reflexivity|].
    cbn [mw_trace mw_threads]. split; [reflexivity|].
    split.
    + apply submitted_opening.
      rewrite submitted_app, submitted_appends. reflexivity.
    + eexists. split; [reflexivity|].
      split; [apply started_length | apply started_posts].
  - rewrite (run_attempt_first_success FLOW_IDS H input d attempt sid env w
               pre f post o C P R X Hs).
    do 3 eexists. split; [reflexivity|].
    cbn [mw_trace mw_threads]. split; [reflexivity|].
    split.
    + apply submitted_opening.
      rewrite submitted_app, submitted_appends. reflexivity.
    + eexists. split; [reflexivity|].
      split; [apply started_length | apply started_posts].
Qed.

(** *** The shape of a race *)

Lemma report_of_weaken (a : Z) (attempts : list Z) (tr : list effect) :
  Forall (report_of attempts) tr -> Forall (report_of (a :: attempts)) tr.
Proof.
  apply Forall_impl. intros [] H; simpl in *; auto.
  destruct H. auto.
Qed.

Lemma report_of_appends attempts (l : list result_entry) :
  Forall (report_of attempts) (map EAppend l).
Proof.
  apply Forall_forall. intros e H. apply in_map_iff in H.
  destruct H as [r [<- _]]. exact I.
Qed.

Lemma report_of_submissions attempts d : forall flows idx sid ev,
  Forall (report_of attempts) (submissions d flows idx sid ev).
Proof.
  induction flows as [|f r IH]; intros; simpl; constructor; [exact I | apply IH].
Qed.

Lemma report_of_opening attempts FLOW_IDS d (env : MainEnv) (w : Main) sid :
  Forall (report_of attempts) (opening FLOW_IDS d env w sid).
Proof.
  unfold opening. repeat constructor. apply report_of_submissions.
Qed.

Section Shape.

Variable FLOW_IDS : list string.
Hypothesis flows_configured : FLOW_IDS <> [].
Variable input_message : str.
Variables (stagger_delay : Q) (max_retries : Z) (retry_delay : Q).

#[local] Abbreviation loop :=
  (retry_loop FLOW_IDS input_message stagger_delay max_retries retry_delay).

#[local] Abbreviation exhausted :=
  (AllFlowsFailed max_retries (Z.of_nat (List.length FLOW_IDS))
     (Z.of_nat (List.length FLOW_IDS) * max_retries)).

(** The events of a race: one per attempt, all clear but the last one of a
    race that returns a result. *)
Lemma retry_loop_shape : forall attempts sid (env : MainEnv) (w : Main),
  exists r w' tr m,
    loop attempts sid env w = (r, w')
    /\ mw_trace w' = mw_trace w ++ tr
    /\ Forall (report_of attempts) tr
    /\ (((exists x, r = Ok x)
         /\ (m < List.length attempts)%nat
         /\ mw_events w' = mw_events w ++ repeat false m ++ [true]
         /\ count is_new_event tr = S m)
        \/ (r = Raised exhausted
            /\ m = List.length attempts
            /\ mw_events w' = mw_events w ++ repeat false m
            /\ count is_new_event tr = m)).
Proof.
  induction attempts as [|a rest IH]; intros sid env w.
  - exists (Raised exhausted), w, [], 0%nat. simpl. unfold raise.
    rewrite !app_nil_r. split; [reflexivity|]. split; [reflexivity|].
    split; [constructor|]. right. auto.
  - destruct (first_success _ (completed_of_ok FLOW_IDS input_message
                                 stagger_delay env a sid
                                 (List.length (mw_events w))))
      as [P|(pre & f & post & o & C & P & R & X & Hs)].
    + pose proof (run_attempt_no_success FLOW_IDS flows_configured
                    input_message stagger_delay a sid env w P) as E.
      cbn [retry_loop]. unfold bind at 1. rewrite E.
      unfold bind at 1. rewrite after_failure_eq.
      rewrite (passed_over_no_success _ P).
      match goal with
      | |- context [retry_loop _ _ _ _ _ rest ?s env ?w2] =>
          destruct (IH s env w2) as (r & w' & tr & m & E' & T & F & D)
      end.
      cbn [mw_trace mw_events] in T, D.
      exists r, w'. eexists. exists (S m).
      split; [exact E'|].
      split; [rewrite T, <- !app_assoc; reflexivity|].
      split.
      * apply Forall_app. split; [apply report_of_opening|].
        apply Forall_app. split; [apply report_of_appends|].
        constructor; [exact I|].
        apply Forall_app. split.
        -- constructor; [exact I|]. constructor.
           ++ simpl. split; [reflexivity | left; reflexivity].
           ++ destruct (a <? max_retries)%Z; repeat constructor.
        -- apply report_of_weaken. exact F.
      * assert (N : forall t,
                  count is_new_event
                    (opening FLOW_IDS stagger_delay env w sid
                     ++ map EAppend (entries_of (completed_of FLOW_IDS input_message stagger_delay env a sid (List.length (mw_events w))))
                     ++ [EShutdown]
                     ++ (ETime (me_time env (S (mw_clock w)))
                         :: EReport a 0 (List.length (entries_of (completed_of FLOW_IDS input_message stagger_delay env a sid (List.length (mw_events w)))))
                         :: (if (a <? max_retries)%Z
                             then [ESleep retry_delay; EUuid4 (me_uuid4 env (mw_uuids w))]
                             else []))
                     ++ t) = S (count is_new_event t)).
        { intros t. unfold opening.
          rewrite ?count_app, ?count_cons, ?count_nil, ?count_submissions,
            ?count_appends by reflexivity.
          destruct (a <? max_retries)%Z;
            rewrite ?count_cons, ?count_nil; simpl; lia. }
        destruct D as [(Hx & Hm & He & Hc)|(Hx & Hm & He & Hc)].
        -- left. split; [exact Hx|]. split; [simpl; lia|].
           split; [rewrite He, <- app_assoc; reflexivity|].
           rewrite N, Hc. reflexivity.
        -- right. split; [exact Hx|]. split; [simpl; lia|].
           split; [rewrite He, <- app_assoc; reflexivity|].
           rewrite N, Hc. reflexivity.
    + pose proof (run_attempt_first_success FLOW_IDS flows_configured
                    input_message stagger_delay a sid env w pre f post o
                    C P R X Hs) as E.
      cbn [retry_loop]. unfold bind at 1. rewrite E. unfold ret.
      do 3 eexists. exists 0%nat.
      split; [reflexivity|]. cbn [mw_trace mw_events].
      split; [reflexivity|].
      split.
      * apply Forall_app. split; [apply report_of_opening|].
        apply Forall_app. split; [apply report_of_appends|].
        repeat constructor.
      * left. split; [eexists; reflexivity|]. split; [simpl; lia|].
        split; [reflexivity|].
        unfold opening.
        rewrite ?count_app, ?count_cons, ?count_nil, ?count_submissions,
          ?count_appends by reflexivity. reflexivity.
Qed.

End Shape.

Section RaceShape.

Variable FLOW_IDS : list string.
Hypothesis flows_configured : FLOW_IDS <> [].
Variable input_message : str.
Variables (stagger_delay : Q) (max_retries : Z) (retry_delay : Q).

#[local] Abbreviation loop :=
  (retry_loop FLOW_IDS input_message stagger_delay max_retries retry_delay).

(** One [uuid4()] follows every failed attempt but the last. *)
Lemma loop_uuid_per_attempt : forall (len a : nat),
  Z.of_nat (a + len) = max_retries ->
  forall sid (env : MainEnv) (w : Main),
  exists r w' tr,
    loop (map Z.of_nat (seq a (S len))) sid env w = (r, w')
    /\ mw_trace w' = mw_trace w ++ tr
    /\ count is_new_event tr = S (count is_uuid4 tr).
Proof.
  induction len as [|len IH]; intros a M sid env w.
  - destruct (first_success _ (completed_of_ok FLOW_IDS input_message
                                 stagger_delay env (Z.of_nat a) sid
                                 (List.length (mw_events w))))
      as [P|(pre & f & post & o & C & P & R & X & Hs)].
    + pose proof (run_attempt_no_success FLOW_IDS flows_configured
                    input_message stagger_delay (Z.of_nat a) sid env w P) as E.
      cbn [seq map retry_loop]. unfold bind at 1. rewrite E.
      unfold bind at 1. rewrite after_failure_eq.
      assert (L : (Z.of_nat a <? max_retries)%Z = false) by (apply Z.ltb_ge; lia).
      rewrite L. unfold raise. do 3 eexists.
      split; [reflexivity|]. cbn [mw_trace].
      split; [rewrite <- !app_assoc; reflexivity|].
      unfold opening.
      rewrite ?count_app, ?count_cons, ?count_nil, ?count_submissions,
        ?count_appends by reflexivity. reflexivity.
    + pose proof (run_attempt_first_success FLOW_IDS flows_configured
                    input_message stagger_delay (Z.of_nat a) sid env w
                    pre f post o C P R X Hs) as E.
      cbn [seq map retry_loop]. unfold bind at 1. rewrite E. unfold ret.
      do 3 eexists. split; [reflexivity|]. cbn [mw_trace].
      split; [reflexivity|].
      unfold opening.
      rewrite ?count_app, ?count_cons, ?count_nil, ?count_submissions,
        ?count_appends by reflexivity. reflexivity.
  - destruct (first_success _ (completed_of_ok FLOW_IDS input_message
                                 stagger_delay env (Z.of_nat a) sid
                                 (List.length (mw_events w))))
      as [P|(pre & f & post & o & C & P & R & X & Hs)].
    + pose proof (run_attempt_no_success FLOW_IDS flows_configured
                    input_message stagger_delay (Z.of_nat a) sid env w P) as E.
      change (seq a (S (S len))) with (a :: seq (S a) (S len)).
      cbn [map retry_loop]. unfold bind at 1. rewrite E.
      unfold bind at 1. rewrite after_failure_eq.
      assert (L : (Z.of_nat a <? max_retries)%Z = true) by (apply Z.ltb_lt; lia).
      rewrite L.
      match goal with
      | |- context [retry_loop _ _ _ _ _ _ ?s env ?w2] =>
          destruct (IH (S a) ltac:(lia) s env w2) as (r & w' & tr & E' & T & K)
      end.
      cbn [mw_trace] in T. exists r, w'. eexists.
      split; [exact E'|].
      split; [rewrite T, <- !app_assoc; reflexivity|].
      unfold opening.
      rewrite ?count_app, ?count_cons, ?count_nil, ?count_submissions,
        ?count_appends by reflexivity.
      rewrite K. simpl. lia.
    + pose proof (run_attempt_first_success FLOW_IDS flows_configured
                    input_message stagger_delay (Z.of_nat a) sid env w
                    pre f post o C P R X Hs) as E.
      change (seq a (S (S len))) with (a :: seq (S a) (S len)).
      cbn [map retry_loop]. unfold bind at 1. rewrite E. unfold ret.
      do 3 eexists. split; [reflexivity|]. cbn [mw_trace].
      split; [reflexivity|].
      unfold opening.
      rewrite ?count_app, ?count_cons, ?count_nil, ?count_submissions,
        ?count_appends by reflexivity. reflexivity.
Qed.

End RaceShape.

(** X9.  With [max_retries >= 1], a race calls [uuid4()] exactly once per
    attempt that it makes, and it makes at least one: no session id is
    drawn that no attempt uses. *)
Theorem race_draws_one_session_per_attempt FLOW_IDS input d max_retries
    retry_delay (env : MainEnv) (w : Main) :
  FLOW_IDS <> [] -> (1 <= max_retries)%Z ->
  exists tr,
    mw_trace (snd (call_langflow_staggered_race FLOW_IDS input d max_retries
                     retry_delay env w))
    = mw_trace w ++ tr
    /\ count is_uuid4 tr = count is_new_event tr
    /\ (1 <= count is_new_event tr)%nat.
Proof.
  intros H M. rewrite race_eq.
  assert (R : attempt_range max_retries
              = map Z.of_nat (seq 1 (S (Z.to_nat max_retries - 1)))).
  { unfold attempt_range. f_equal. f_equal. lia. }
  rewrite R.
  match goal with
  | |- context [retry_loop _ _ _ _ _ _ ?s env ?w0] =>
      destruct (loop_uuid_per_attempt FLOW_IDS H input d max_retries retry_delay
                  (Z.to_nat max_retries - 1) 1 ltac:(lia) s env w0)
        as (r & w' & tr & E & T & K)
  end.
  rewrite E. cbn [snd]. cbn [mw_trace] in T.
  exists (EUuid4 (me_uuid4 env (mw_uuids w)) :: tr).
  split; [rewrite T, <- app_assoc; reflexivity|].
  rewrite !count_cons, K. simpl. split; lia.
Qed.

(** X10.  Every failure report of a race ("Attempt n failed: k/m
    succeeded") has [k = 0] and an attempt number [n] between 1 and
    [max_retries]: an attempt with a success returns and is never
    reported. *)
Theorem race_reports_count_no_success FLOW_IDS input d max_retries
    retry_delay (env : MainEnv) (w : Main) :
  FLOW_IDS <> [] ->
  exists tr,
    mw_trace (snd (call_langflow_staggered_race FLOW_IDS input d max_retries
                     retry_delay env w))
    = mw_trace w ++ tr
    /\ Forall (report_of (attempt_range max_retries)) tr.
Proof.
  intros H. rewrite race_eq.
  match goal with
  | |- context [retry_loop _ _ _ _ _ ?l ?s env ?w0] =>
      destruct (retry_loop_shape FLOW_IDS H input d max_retries retry_delay
                  l s env w0) as (r & w' & tr & m & E & T & F & _)
  end.
  rewrite E. cbn [snd]. cbn [mw_trace] in T.
  exists (EUuid4 (me_uuid4 env (mw_uuids w)) :: tr).
  split; [rewrite T, <- app_assoc; reflexivity|].
  constructor; [exact I | exact F].
Qed.

(** X11.  A race creates one event per attempt.  The events of its failed
    attempts stay clear; a race that returns a result has set exactly the
    event of its last attempt, after fewer than [max_retries] failed
    ones; a race that ends in the final failure has set none. *)
Theorem race_sets_only_the_last_event FLOW_IDS input d max_retries
    retry_delay (env : MainEnv) (w : Main) :
  FLOW_IDS <> [] ->
  exists r w' m,
    call_langflow_staggered_race FLOW_IDS input d max_retries retry_delay env w
    = (r, w')
    /\ (((exists x, r = Ok x)
         /\ (m < Z.to_nat max_retries)%nat
         /\ mw_events w' = mw_events w ++ repeat false m ++ [true])
        \/ (r = Raised (AllFlowsFailed max_retries
                          (Z.of_nat (List.length FLOW_IDS))
                          (Z.of_nat (List.length FLOW_IDS) * max_retries))
            /\ m = Z.to_nat max_retries
            /\ mw_events w' = mw_events w ++ repeat false m)).
Proof.
  intros H. rewrite race_eq.
  match goal with
  | |- context [retry_loop _ _ _ _ _ ?l ?s env ?w0] =>
      destruct (retry_loop_shape FLOW_IDS H input d max_retries retry_delay
                  l s env w0) as (r & w' & tr & m & E & _ & _ & D)
  end.
  exists r, w', m. split; [exact E|].
  rewrite attempt_range_length in D. cbn [mw_events] in D.
  destruct D as [(Hx & Hm & He & _)|(Hx & Hm & He & _)]; [left | right]; auto.
Qed.

(** The race whose range of attempts is empty. *)
Lemma race_no_attempt FLOW_IDS input d max_retries retry_delay
    (env : MainEnv) (w : Main) :
  (max_retries <= 0)%Z ->
  call_langflow_staggered_race FLOW_IDS input d max_retries retry_delay env w
  = (Raised (AllFlowsFailed max_retries (Z.of_nat (List.length FLOW_IDS))
               (Z.of_nat (List.length FLOW_IDS) * max_retries)),
     {| mw_clock := mw_clock w; mw_uuids := S (mw_uuids w);
        mw_events := mw_events w; mw_threads := mw_threads w;
        mw_trace := mw_trace w ++ [EUuid4 (me_uuid4 env (mw_uuids w))] |}).
Proof.
  intros M. rewrite race_eq. unfold attempt_range.
  replace (Z.to_nat max_retries) with 0%nat by lia. reflexivity.
Qed.

(** X12.  With [max_retries <= 0] the race makes no attempt at all: it
    draws a session id and raises the final failure at once, whose total
    [len(FLOW_IDS) * max_retries] is then zero or negative. *)
Theorem race_without_attempts FLOW_IDS input d max_retries retry_delay
    (env : MainEnv) (w : Main) :
  (max_retries <= 0)%Z ->
  call_langflow_staggered_race FLOW_IDS input d max_retries retry_delay env w
  = (Raised (AllFlowsFailed max_retries (Z.of_nat (List.length FLOW_IDS))
               (Z.of_nat (List.length FLOW_IDS) * max_retries)),
     {| mw_clock := mw_clock w; mw_uuids := S (mw_uuids w);
        mw_events := mw_events w; mw_threads := mw_threads w;
        mw_trace := mw_trace w ++ [EUuid4 (me_uuid4 env (mw_uuids w))] |}).
Proof. exact (race_no_attempt FLOW_IDS input d max_retries retry_delay env w). Qed.

(** The race over an empty list of flows. *)
Lemma race_no_flows input d max_retries retry_delay
    (env : MainEnv) (w : Main) :
  (1 <= max_retries)%Z ->
  call_langflow_staggered_race [] input d max_retries retry_delay env w
  = (Raised ValueError,
     {| mw_clock := S (mw_clock w); mw_uuids := S (mw_uuids w);
        mw_events := mw_events w ++ [false]; mw_threads := mw_threads w;
        mw_trace := mw_trace w
                    ++ [EUuid4 (me_uuid4 env (mw_uuids w));
                        ETime (me_time env (mw_clock w));
                        ENewEvent (List.length (mw_events w))] |}).
Proof.
  intros M. rewrite race_eq. unfold attempt_range.
  replace (Z.to_nat max_retries) with (S (Z.to_nat max_retries - 1)) by lia.
  cbn [seq map retry_loop].
  unfold bind, run_attempt, time_time, Event_new, ThreadPoolExecutor, raise.
  simpl. rewrite <- !app_assoc. reflexivity.
Qed.

(** X13.  With an empty [FLOW_IDS] and [max_retries >= 1] the race does
    not end in its final failure: the first attempt raises the
    [ValueError] of [ThreadPoolExecutor(max_workers=0)], which leaves the
    race; no worker is started and no further attempt is made. *)
Theorem race_without_flows input d max_retries retry_delay
    (env : MainEnv) (w : Main) :
  (1 <= max_retries)%Z ->
  call_langflow_staggered_race [] input d max_retries retry_delay env w
  = (Raised ValueError,
     {| mw_clock := S (mw_clock w); mw_uuids := S (mw_uuids w);
        mw_events := mw_events w ++ [false]; mw_threads := mw_threads w;
        mw_trace := mw_trace w
                    ++ [EUuid4 (me_uuid4 env (mw_uuids w));
                        ETime (me_time env (mw_clock w));
                        ENewEvent (List.length (mw_events w))] |}).
Proof. exact (race_no_flows input d max_retries retry_delay env w). Qed.

(* ===================================================================== *)
(** ** Further properties: the driver *)
(* ===================================================================== *)

(** *** The driver *)

Lemma race_ends FLOW_IDS input d max_retries retry_delay
    (env : MainEnv) (w : Main) :
  (exists r,
     fst (call_langflow_staggered_race FLOW_IDS input d max_retries retry_delay
            env w) = Ok r)
  \/ (exists x,
        fst (call_langflow_staggered_race FLOW_IDS input d max_retries
               retry_delay env w) = Raised x
        /\ is_Exception x = true).
Proof.
  destruct FLOW_IDS as [|f r] eqn:F.
  - destruct (Z_le_gt_dec max_retries 0) as [Hm|Hm].
    + rewrite race_no_attempt by exact Hm. right. eexists. split; reflexivity.
    + rewrite race_no_flows by lia. right. eexists. split; reflexivity.
  - assert (H : f :: r <> []) by discriminate.
    rewrite race_eq.
    match goal with
    | |- context [retry_loop _ _ _ _ _ ?l ?s env ?w0] =>
        destruct (retry_loop_bound (f :: r) H input d max_retries retry_delay
                    l s env w0) as (res & w' & E & [[x ->]| ->] & _)
    end; rewrite E; [left | right]; eexists; [|split]; reflexivity.
Qed.

Lemma positive_not_zero (n : nat) :
  (0 < n)%nat -> Qeq_bool (inject_Z (Z.of_nat n)) 0 = false.
Proof.
  intros H. destruct (Qeq_bool (inject_Z (Z.of_nat n)) 0) eqn:E; [|reflexivity].
  apply Qeq_bool_iff in E.
  assert (0 < inject_Z (Z.of_nat n)) by (rewrite <- (Zlt_Qlt 0); lia).
  lra.
Qed.

Lemma rate_bounds (s t : nat) :
  (0 < t)%nat -> (s <= t)%nat ->
  0 <= inject_Z (Z.of_nat s) / inject_Z (Z.of_nat t) * 100
  /\ inject_Z (Z.of_nat s) / inject_Z (Z.of_nat t) * 100 <= 100.
Proof.
  intros T L.
  assert (Tq : 0 < inject_Z (Z.of_nat t)) by (rewrite <- (Zlt_Qlt 0); lia).
  assert (Sq : 0 <= inject_Z (Z.of_nat s)) by (rewrite <- (Zle_Qle 0); lia).
  assert (Lq : inject_Z (Z.of_nat s) <= inject_Z (Z.of_nat t))
    by (rewrite <- Zle_Qle; lia).
  assert (A : 0 <= inject_Z (Z.of_nat s) / inject_Z (Z.of_nat t)).
  { apply Qle_shift_div_l; [exact Tq | lra]. }
  assert (B : inject_Z (Z.of_nat s) / inject_Z (Z.of_nat t) <= 1).
  { apply Qle_shift_div_r; [exact Tq | lra]. }
  split; lra.
Qed.

Section MainFacts.

Variable FLOW_IDS : list string.
Variable lower : str -> str.
Variable py_int : str -> option Z.
Variable race_env : nat -> MainEnv.
Variable interrupt : nat -> option moment.
Variable printable : value -> bool.
Variable all_inputs : list console.

#[local] Abbreviation ok := (session_ok lower py_int all_inputs).

Lemma show_ok (x : shown) (st : Driver) :
  is_answer x = false -> is_final_error x = false -> statistics_ok x ->
  ok st -> ok (show x st).
Proof.
  intros A E S (I1 & I2 & I3 & I4 & I5 & I6 & I7).
  unfold session_ok, answers, final_errors, show in *.
  cbn [d_stats d_shown d_races d_stagger_delay].
  rewrite !filter_app. cbn [filter]. rewrite A, E, !app_nil_r.
  repeat split; auto.
  apply Forall_app. split; [exact I5 | repeat constructor; exact S].
Qed.

Lemma show_counted (x : shown) (st : Driver) :
  is_answer x = false -> is_final_error x = false ->
  (all_counted st -> all_counted (show x st))
  /\ (all_shown st -> all_shown (show x st)).
Proof.
  intros A E.
  unfold all_counted, all_shown, answers, final_errors, show.
  cbn [d_stats d_shown d_races d_stagger_delay].
  rewrite !filter_app. cbn [filter]. rewrite A, E, !app_nil_r. auto.
Qed.

Lemma show_statistics_ok (st : Driver) :
  ok st ->
  exists st', show_statistics st = Ok st' /\ ok st'
    /\ (all_counted st -> all_counted st')
    /\ (all_shown st -> all_shown st').
Proof.
  intros I. pose proof I as (I1 & _).
  unfold show_statistics.
  destruct (0 <? total_queries (d_stats st))%nat eqn:T.
  - apply Nat.ltb_lt in T. unfold py_div.
    rewrite (positive_not_zero _ T). cbn [rbind].
    eexists. split; [reflexivity|].
    split; [|apply show_counted; reflexivity].
    apply show_ok; auto.
    cbn [statistics_ok]. split; [exact T|]. split; [exact I1|].
    apply rate_bounds; assumption.
  - exists st. auto.
Qed.

(** What the call of the race gives [main]. *)
Lemma race_call_cases (user_input : str) (pending : option moment)
    (st : Driver) :
  let st' :=
    {| d_stagger_delay := d_stagger_delay st; d_stats := d_stats st;
       d_shown := d_shown st;
       d_races := d_races st
                  ++ [{| rc_input := user_input;
                         rc_stagger_delay := d_stagger_delay st;
                         rc_max_retries := 3; rc_retry_delay := 2 |}] |} in
  (pending = Some DuringRace
   /\ race_call FLOW_IDS race_env user_input pending st
      = (Raised KeyboardInterrupt, st'))
  \/ (pending <> Some DuringRace
      /\ ((exists message winner_flow elapsed,
             race_call FLOW_IDS race_env user_input pending st
             = (Ok (message, winner_flow, elapsed), st'))
          \/ (exists x,
                race_call FLOW_IDS race_env user_input pending st
                = (Raised x, st')
                /\ is_Exception x = true))).
Proof.
  intros st'.
  assert (R : forall env,
            (exists message winner_flow elapsed,
               fst ((query_start <- time_time ;;
                     call_langflow_staggered_race FLOW_IDS user_input
                       (inject_Z (d_stagger_delay st)) 3 2) env main_start)
               = Ok (message, winner_flow, elapsed))
            \/ (exists x,
                  fst ((query_start <- time_time ;;
                        call_langflow_staggered_race FLOW_IDS user_input
                          (inject_Z (d_stagger_delay st)) 3 2) env main_start)
                  = Raised x /\ is_Exception x = true)).
  { intros env. unfold bind, time_time. cbn beta iota.
    match goal with
    | |- context [call_langflow_staggered_race ?a ?b ?c ?d ?e ?f ?g] =>
        destruct (race_ends a b c d e f g) as [[[[m f'] el] E]|[x [E X]]]
    end.
    - left. exists m, f', el. exact E.
    - right. exists x. split; [exact E | exact X]. }
  unfold race_call. cbn [rc_input rc_stagger_delay rc_max_retries rc_retry_delay].
  fold st'.
  destruct pending as [[]|];
    try (left; split; reflexivity);
    (right; split; [discriminate|]);
    (destruct (R (race_env (List.length (d_races st))))
       as [(m & f & el & E)|(x & E & X)];
     [left; exists m, f, el | right; exists x; split; [|exact X]];
     rewrite E; reflexivity).
Qed.

Lemma run_query_ok (raw : str) (pending : option moment) (st : Driver) :
  In (Line raw) all_inputs ->
  strip raw <> [] ->
  str_in (lower (strip raw)) exit_words = false ->
  str_in (lower (strip raw)) config_words = false ->
  ok st -> all_counted st ->
  exists r st',
    run_query FLOW_IDS race_env printable (strip raw) pending st = (r, st')
    /\ ok st'
    /\ d_stagger_delay st' = d_stagger_delay st
    /\ ((r = Ok tt /\ all_counted st'
         /\ (all_shown st -> (forall v, printable v = true) -> all_shown st'))
        \/ (r = Raised KeyboardInterrupt /\ pending <> None)).
Proof.
  intros Hin Hne Hex Hcf (I1 & I2 & I3 & I4 & I5 & I6 & I7) (J1 & J2).
  assert (C : call_from lower py_int all_inputs
                {| rc_input := strip raw; rc_stagger_delay := d_stagger_delay st;
                   rc_max_retries := 3; rc_retry_delay := 2 |}).
  { unfold call_from. cbn [rc_input rc_stagger_delay rc_max_retries rc_retry_delay].
    split; [reflexivity|]. split; [reflexivity|]. split; [exact I7|].
    exists raw. auto. }
  assert (F : Forall (call_from lower py_int all_inputs)
                (d_races st
                 ++ [{| rc_input := strip raw;
                        rc_stagger_delay := d_stagger_delay st;
                        rc_max_retries := 3; rc_retry_delay := 2 |}])).
  { apply Forall_app. split; [exact I6 | constructor; [exact C | constructor]]. }
  assert (G : forall x, statistics_ok x -> Forall statistics_ok (d_shown st ++ [x])).
  { intros x Hx. apply Forall_app. split; [exact I5 | constructor; [exact Hx | constructor]]. }
  unfold session_ok, all_counted, all_shown, answers, final_errors in *.
  unfold run_query, print_answer.
  destruct pending as [[]|];
    unfold bind, try_except, checkpoint, update_stats, print, raise, show;
    cbn [moment_eqb d_stats d_shown d_races d_stagger_delay total_queries
         successful_queries total_time];
    try (do 2 eexists; split; [reflexivity|];
         cbn [d_stats d_shown d_races d_stagger_delay total_queries
              successful_queries total_time];
         split; [repeat split; try lia; auto|];
         split; [reflexivity|]; right; split; [reflexivity | discriminate]).
  all: match goal with
       | |- context [race_call _ _ ?u ?p ?s] =>
           destruct (race_call_cases u p s)
             as [[P E]|[P [(m & f & el & E)|(x & E & X)]]];
           try discriminate; try congruence; rewrite E; clear E
       end;
       cbn [d_stats d_shown d_races d_stagger_delay total_queries
            successful_queries total_time];
       try rewrite X;
       try (destruct (printable m) eqn:Pm);
       cbn [is_Exception UnicodeEncodeError String.eqb Ascii.eqb Bool.eqb negb
            d_stats d_shown d_races d_stagger_delay total_queries
            successful_queries total_time moment_eqb].
  all: do 2 eexists; (split; [reflexivity|]);
       cbn [d_stats d_shown d_races d_stagger_delay total_queries
            successful_queries total_time];
       rewrite ?filter_app, ?length_app;
       cbn [filter is_answer is_final_error List.length].
  all: try (split; [repeat split; try lia; auto; apply G; exact I|];
            split; [reflexivity|]).
  all: try (right; split; [reflexivity | discriminate]).
  all: try (left; split; [reflexivity|]; split; [split; lia|]; intros; try lia).
  match goal with
  | Hp : forall v, printable v = true, Pm : printable _ = false |- _ =>
      rewrite Hp in Pm; discriminate
  end.
Qed.

Lemma main_loop_ok : forall (n : nat) (inputs : list console) (st : Driver),
  (List.length inputs <= n)%nat ->
  (forall c, In c inputs -> In c all_inputs) ->
  ok st -> all_counted st ->
  let run := main_loop FLOW_IDS lower py_int race_env interrupt printable
               inputs st in
  (fst run = Ok tt \/ fst run = Raised EOFError)
  /\ ok (snd run)
  /\ ((forall query, interrupt query = None) ->
      all_counted (snd run)
      /\ (all_shown st -> (forall v, printable v = true) -> all_shown (snd run))).
Proof.
  induction n as [|n IH]; intros inputs st L Sub I J.
  - destruct inputs; [|simpl in L; lia]. simpl. auto.
  - destruct inputs as [|[raw|] rest]; [simpl; auto | | ].
    2:{ simpl. split; [auto|]. split; [apply show_ok; simpl; auto|].
        intros _. split; [|intros A _; revert A]; apply show_counted; reflexivity || exact J. }
    cbn [main_loop].
    assert (Sub' : forall c, In c rest -> In c all_inputs).
    { intros c H. apply Sub. right. exact H. }
    assert (L' : (List.length rest <= n)%nat) by (simpl in L; lia).
    destruct (str_in (lower (strip raw)) exit_words) eqn:Ex.
    { destruct (show_statistics_ok st I) as (st' & E & I' & J' & A').
      rewrite E. cbn [fst snd]. split; [auto|].
      split; [apply show_ok; simpl; auto|].
      intros _. split; [|intros A _]; apply show_counted; auto. }
    destruct (str_in (lower (strip raw)) config_words) eqn:Cf.
    { destruct rest as [|[raw'|] rest']; [simpl; auto | | ].
      2:{ simpl. split; [auto|]. split; [apply show_ok; simpl; auto|].
          intros _. split; [|intros A _]; apply show_counted; auto. }
      assert (Sub'' : forall c, In c rest' -> In c all_inputs).
      { intros c H. apply Sub'. right. exact H. }
      assert (L'' : (List.length rest' <= n)%nat) by (simpl in L'; lia).
      destruct (truthy (VStr (strip raw'))) eqn:Tr.
      - destruct (py_int (strip raw')) as [z|] eqn:Pz.
        + match goal with
          | |- context [main_loop _ _ _ _ _ _ rest' ?s] =>
              destruct (IH rest' s L'' Sub'') as (R1 & R2 & R3)
          end.
          * destruct I as (I1 & I2 & I3 & I4 & I5 & I6 & I7).
            apply show_ok; simpl; auto.
            unfold session_ok, answers, final_errors.
            cbn [d_stats d_shown d_races d_stagger_delay].
            repeat split; auto.
            right. exists raw'. split; [apply Sub'; left; reflexivity | exact Pz].
          * apply show_counted; [reflexivity | reflexivity | exact J].
          * split; [exact R1|]. split; [exact R2|].
            intros N. destruct (R3 N) as (R4 & R5). split; [exact R4|].
            intros A P. apply R5; [|exact P].
            apply show_counted; [reflexivity | reflexivity | exact A].
        + match goal with
          | |- context [main_loop _ _ _ _ _ _ rest' ?s] =>
              destruct (IH rest' s L'' Sub'') as (R1 & R2 & R3)
          end.
          * apply show_ok; simpl; auto.
          * apply show_counted; [reflexivity | reflexivity | exact J].
          * split; [exact R1|]. split; [exact R2|].
            intros N. destruct (R3 N) as (R4 & R5). split; [exact R4|].
            intros A P. apply R5; [|exact P].
            apply show_counted; [reflexivity | reflexivity | exact A].
      - apply IH; auto. }
    destruct (truthy (VStr (strip raw))) eqn:Tr; cbn [negb].
    + assert (Hne : strip raw <> []).
      { intros E. rewrite E in Tr. discriminate. }
      destruct (run_query_ok raw (interrupt (List.length (d_races st))) st
                  (Sub _ (or_introl eq_refl)) Hne Ex Cf I J)
        as (r & st' & E & I' & _ & [(-> & J' & A')|(-> & P)]).
      * rewrite E.
        destruct (IH rest st' L' Sub' I' J') as (R1 & R2 & R3).
        split; [exact R1|]. split; [exact R2|].
        intros N. destruct (R3 N) as (R4 & R5). split; [exact R4|].
        intros A Hp. apply R5; [|exact Hp]. apply A'; assumption.
      * rewrite E. cbn [is_Exception KeyboardInterrupt String.eqb Ascii.eqb
                        Bool.eqb negb fst snd].
        split; [auto|]. split; [apply show_ok; simpl; auto|].
        intros N. rewrite N in P. contradiction.
    + match goal with
      | |- context [main_loop _ _ _ _ _ _ rest ?s] =>
          destruct (IH rest s L' Sub') as (R1 & R2 & R3)
      end.
      * apply show_ok; simpl; auto.
      * apply show_counted; [reflexivity | reflexivity | exact J].
      * split; [exact R1|]. split; [exact R2|].
        intros N. destruct (R3 N) as (R4 & R5). split; [exact R4|].
        intros A P. apply R5; [|exact P].
        apply show_counted; [reflexivity | reflexivity | exact A].
Qed.

End MainFacts.

Lemma main_ok FLOW_IDS lower py_int race_env interrupt printable
    (inputs : list console) :
  let run := main FLOW_IDS lower py_int race_env interrupt printable inputs in
  (fst run = Ok tt \/ fst run = Raised EOFError)
  /\ session_ok lower py_int inputs (snd run)
  /\ ((forall query, interrupt query = None) ->
      all_counted (snd run)
      /\ ((forall v, printable v = true) -> all_shown (snd run))).
Proof.
  unfold main.
  match goal with
  | |- context [main_loop _ _ _ _ _ _ _ ?s] =>
      destruct (main_loop_ok FLOW_IDS lower py_int race_env interrupt printable
                  inputs (List.length inputs) inputs s)
        as (R1 & R2 & R3)
  end; auto.
  - unfold session_ok, answers, final_errors. simpl. repeat split; auto.
  - split; reflexivity.
  - split; [exact R1|]. split; [exact R2|].
    intros N. destruct (R3 N) as (R4 & R5). split; [exact R4|].
    intros P. apply R5; [reflexivity | exact P].
Qed.



(** X15.  What the statistics of a session count.  Wherever [main] stops:
    [successful_queries] never exceeds [total_queries]; every race that
    was called is counted in [total_queries]; the answers shown never
    exceed [successful_queries] (a success is counted before its answer is
    printed); the answers and final errors shown never exceed
    [total_queries].  When no Ctrl-C arrives in the course of a query,
    [total_queries] is the number of races called, and every query has
    shown an answer or a final error; when moreover every answer can be
    printed, [successful_queries] is the number of answers shown. *)
Theorem main_counts_its_queries FLOW_IDS lower py_int race_env
    interrupt printable (inputs : list console) :
  let st :=
    snd (main FLOW_IDS lower py_int race_env interrupt printable inputs) in
  (successful_queries (d_stats st) <= total_queries (d_stats st))%nat
  /\ (List.length (d_races st) <= total_queries (d_stats st))%nat
  /\ (answers st <= successful_queries (d_stats st))%nat
  /\ (answers st + final_errors st <= total_queries (d_stats st))%nat
  /\ ((forall query, interrupt query = None) ->
      total_queries (d_stats st) = List.length (d_races st)
      /\ total_queries (d_stats st) = (answers st + final_errors st)%nat
      /\ ((forall message, printable message = true) ->
          successful_queries (d_stats st) = answers st)).
Proof.
  destruct (main_ok FLOW_IDS lower py_int race_env interrupt printable inputs)
    as (_ & (I1 & I2 & I3 & I4 & _) & R).
  intros st. repeat (split; [assumption|]).
  intros N. destruct (R N) as ((J1 & J2) & A).
  split; [exact J1|]. split; [exact J2 | exact A].
Qed.

(** X16.  Statistics are shown only after at least one query, with no more
    successes than queries and a success rate between 0 and 100. *)
Theorem main_statistics_in_range FLOW_IDS lower py_int race_env
    interrupt printable (inputs : list console) :
  Forall statistics_ok
         (d_shown (snd (main FLOW_IDS lower py_int race_env interrupt printable
                          inputs))).
Proof.
  destruct (main_ok FLOW_IDS lower py_int race_env interrupt printable inputs)
    as (_ & (_ & _ & _ & _ & I5 & _) & _).
  exact I5.
Qed.

(** X17.  Every race that [main] runs has three attempts and a cool-down
    of two seconds; its stagger delay is 7 or a number that [config] read
    from a line of the input (any integer, zero and negative ones
    included); its query is a line of the input, stripped, that is neither
    empty nor an exit or config word. *)
Theorem main_race_parameters FLOW_IDS lower py_int race_env
    interrupt printable (inputs : list console) :
  Forall (call_from lower py_int inputs)
         (d_races (snd (main FLOW_IDS lower py_int race_env interrupt printable
                          inputs))).
Proof.
  destruct (main_ok FLOW_IDS lower py_int race_env interrupt printable inputs)
    as (_ & (_ & _ & _ & _ & _ & I6 & _) & _).
  exact I6.
Qed.

(* ===================================================================== *)
(** ** Instances of the further properties *)
(* ===================================================================== *)

Lemma extract_reads_first_outputs_witness :
  extract_message_from_response
    (VDict [(u "session_id", VStr (u "s"));
            (u "outputs",
             VList [VDict [(u "inputs", VNone);
                           (u "outputs",
                            VList [VDict [(u "results",
                                           VDict [(u "message",
                                                   VDict [(u "sender", VStr (u "ai"));
                                                          (u "text", VInt 5)])])];
                                   VBool true])];
                    VNone])])
  = Ok (VInt 5).
Proof.
  eapply extract_reads_first_outputs; reflexivity.
Defined.

Lemma worker_sleeps_its_delay_witness :
  0 < 13#10
  /\ exists o w',
       call_single_flow_with_delay "flow" (u "hi") 1%N (13#10) (Some 0%nat)
         (thread_env (fun _ => false) (good_reply "hello")) thread_start
       = (Ok o, w')
       /\ slept (th_trace w') <= slept (th_trace thread_start) + (13#10)
       /\ (o_cancelled o = false ->
           slept (th_trace w') == slept (th_trace thread_start) + (13#10)).
Proof.
  split; [reflexivity|].
  apply (worker_sleeps_its_delay "flow" (u "hi") 1%N (13#10) (Some 0%nat)
           (thread_env (fun _ => false) (good_reply "hello")) thread_start).
  reflexivity.
Defined.

Lemma worker_polls_every_half_second_witness :
  0 < 13#10
  /\ exists o w',
       call_single_flow_with_delay "flow" (u "hi") 1%N (13#10) (Some 0%nat)
         (thread_env (fun _ => false) (good_reply "hello")) thread_start
       = (Ok o, w')
       /\ (o_cancelled o = false ->
           th_polls w' = (th_polls thread_start + poll_count (13#10))%nat).
Proof.
  split; [reflexivity|].
  apply (worker_polls_every_half_second "flow" (u "hi") 1%N (13#10) 0%nat
           (thread_env (fun _ => false) (good_reply "hello")) thread_start).
  reflexivity.
Defined.

Lemma signal_before_a_poll_cancels_witness :
  exists o w',
    call_single_flow_with_delay "flow" (u "hi") 1%N 7 (Some 0%nat)
      (thread_env (signal_at (3#4)) (good_reply "hello")) thread_start
    = (Ok o, w')
    /\ o = Outcome false "flow" (VStr []) 0 true
    /\ count is_post (th_trace w') = 0%nat.
Proof.
  apply (signal_before_a_poll_cancels "flow" (u "hi") 1%N 7 0%nat (3#4) 2
           (thread_env (signal_at (3#4)) (good_reply "hello"))).
  - reflexivity.
  - apply Qle_bool_iff. reflexivity.
  - reflexivity.
Defined.

Lemma attempt_submits_every_flow_witness :
  let env := main_env (fun _ _ => good_reply "hello") (fun _ _ _ => false)
                      (fun _ => [1; 0]%nat) in
  exists exit w' tr,
    run_attempt ["A"; "B"]%string (u "hi") 7 1 5%N env main_start = (Ok exit, w')
    /\ mw_trace w' = mw_trace main_start ++ tr
    /\ submitted tr = [(0%nat, "A"%string, 5%N, stagger 7 0);
                       (1%nat, "B"%string, 5%N, stagger 7 1)].
Proof.
  intros env.
  destruct (attempt_submits_every_flow ["A"; "B"]%string (u "hi") 7 1 5%N env
              main_start) as (exit & w' & tr & E & T & S & _).
  - discriminate.
  - exists exit, w', tr. split; [exact E|]. split; [exact T | exact S].
Defined.

Lemma race_draws_one_session_per_attempt_witness :
  let env := main_env (fun _ _ => PostRaises Timeout) (fun _ _ _ => false)
                      (fun _ => [0]%nat) in
  exists tr,
    mw_trace (snd (call_langflow_staggered_race ["A"]%string (u "hi") 0 3 2
                     env main_start))
    = mw_trace main_start ++ tr
    /\ count is_uuid4 tr = count is_new_event tr
    /\ (1 <= count is_new_event tr)%nat.
Proof.
  intros env.
  apply (race_draws_one_session_per_attempt ["A"]%string (u "hi") 0 3 2 env
           main_start).
  - discriminate.
  - lia.
Defined.

Lemma race_reports_count_no_success_witness :
  let env := main_env (fun _ _ => PostRaises Timeout) (fun _ _ _ => false)
                      (fun _ => [0]%nat) in
  exists tr,
    mw_trace (snd (call_langflow_staggered_race ["A"]%string (u "hi") 0 3 2
                     env main_start))
    = mw_trace main_start ++ tr
    /\ Forall (report_of (attempt_range 3)) tr.
Proof.
  intros env.
  apply (race_reports_count_no_success ["A"]%string (u "hi") 0 3 2 env
           main_start).
  discriminate.
Defined.

Lemma race_sets_only_the_last_event_witness :
  let env := main_env (fun attempt _ => match attempt with
                                        | 1%Z => PostRaises Timeout
                                        | _ => good_reply "hello"
                                        end)
                      (fun _ _ _ => false) (fun _ => [0]%nat) in
  exists r w' m,
    call_langflow_staggered_race ["A"]%string (u "hi") 0 3 2 env main_start
    = (r, w')
    /\ (((exists x, r = Ok x)
         /\ (m < Z.to_nat 3)%nat
         /\ mw_events w' = mw_events main_start ++ repeat false m ++ [true])
        \/ (r = Raised (AllFlowsFailed 3 (Z.of_nat (List.length ["A"]%string))
                          (Z.of_nat (List.length ["A"]%string) * 3))
            /\ m = Z.to_nat 3
            /\ mw_events w' = mw_events main_start ++ repeat false m)).
Proof.
  intros env.
  apply (race_sets_only_the_last_event ["A"]%string (u "hi") 0 3 2 env
           main_start).
  discriminate.
Defined.

Lemma race_without_attempts_witness :
  let env := main_env (fun _ _ => good_reply "hello") (fun _ _ _ => false)
                      (fun _ => [0]%nat) in
  fst (call_langflow_staggered_race ["A"; "B"]%string (u "hi") 7 (-2) 2 env
         main_start)
  = Raised (AllFlowsFailed (-2) 2 (-4)).
Proof.
  intros env.
  rewrite (race_without_attempts ["A"; "B"]%string (u "hi") 7 (-2) 2 env
             main_start).
  - reflexivity.
  - lia.
Defined.

Lemma race_without_flows_witness :
  let env := main_env (fun _ _ => good_reply "hello") (fun _ _ _ => false)
                      (fun _ => []) in
  fst (call_langflow_staggered_race [] (u "hi") 7 3 2 env main_start)
  = Raised ValueError.
Proof.
  intros env.
  rewrite (race_without_flows (u "hi") 7 3 2 env main_start).
  - reflexivity.
  - lia.
Defined.

Lemma main_counts_its_queries_witness :
  let good := main_env (fun _ _ => good_reply "hello") (fun _ _ _ => false)
                       (fun _ => [0; 1]%nat) in
  let bad := main_env (fun _ _ => PostRaises Timeout) (fun _ _ _ => false)
                      (fun _ => [0; 1]%nat) in
  let st :=
    snd (main ["A"; "B"]%string (fun s => s) (fun _ => None)
           (fun query => match query with O => good | _ => bad end)
           (fun _ => None) (fun _ => true)
           [Line (u "hi"); Line (u "again"); Line (u "q")]) in
  total_queries (d_stats st) = List.length (d_races st)
  /\ total_queries (d_stats st) = (answers st + final_errors st)%nat
  /\ successful_queries (d_stats st) = answers st.
Proof.
  intros good bad st.
  destruct (main_counts_its_queries ["A"; "B"]%string (fun s => s)
              (fun _ => None)
              (fun query => match query with O => good | _ => bad end)
              (fun _ => None) (fun _ => true)
              [Line (u "hi"); Line (u "again"); Line (u "q")])
    as (_ & _ & _ & _ & R).
  destruct R as (J1 & J2 & A); [reflexivity|].
  split; [exact J1|]. split; [exact J2|]. apply A. reflexivity.
Defined.

(** A session: [config] sets the stagger delay to 0, a first query is
    answered, an empty line is refused, a second query fails in all its
    attempts without ending the session, a second [config] gets a text that
    is no number, and [q] shows the statistics and leaves. *)
Example main_session :
  let good := main_env (fun _ _ => good_reply "hello") (fun _ _ _ => false)
                       (fun _ => [0; 1]%nat) in
  let bad := main_env (fun _ _ => PostRaises Timeout) (fun _ _ _ => false)
                      (fun _ => [0; 1]%nat) in
  let run :=
    main ["A"; "B"]%string (fun s => s)
      (fun s => if str_eqb s (u "0") then Some 0%Z else None)
      (fun query => match query with O => good | _ => bad end)
      (fun _ => None) (fun _ => true)
      [Line (u "config"); Line (u " 0 "); Line (u " hi "); Line (u "  ");
       Line (u "again"); Line (u "c"); Line (u "x"); Line (u "q")] in
  fst run = Ok tt
  /\ d_stagger_delay (snd run) = 0%Z
  /\ d_shown (snd run)
     = [SConfigUpdated 0; SAnswer (VStr (u "hello")); SEmptyWarning;
        SFinalError (AllFlowsFailed 3 2 6); SConfigInvalid;
        SStatistics 2 1 (100#2) (1#2); SGoodbye]
  /\ map rc_input (d_races (snd run)) = [u "hi"; u "again"].
Proof. vm_compute. repeat split. Qed.

(** An answer that the console cannot show: the query is counted as
    successful (line 283 runs before line 286), no answer is shown, and
    [except Exception] shows a final error; the session goes on. *)
Example main_answer_not_printed :
  let good := main_env (fun _ _ => good_reply "hello") (fun _ _ _ => false)
                       (fun _ => [0; 1]%nat) in
  let run :=
    main ["A"; "B"]%string (fun s => s) (fun _ => None) (fun _ => good)
      (fun _ => None) (fun _ => false)
      [Line (u "hi"); Line (u "q")] in
  fst run = Ok tt
  /\ d_shown (snd run)
     = [SFinalError UnicodeEncodeError; SStatistics 1 1 100 1; SGoodbye].
Proof. vm_compute. repeat split. Qed.

(** Ctrl-C while the race of the first query runs: the query is counted,
    neither an answer nor a final error is shown, and [main] ends
    normally, without statistics. *)
Example main_interrupted_race :
  let good := main_env (fun _ _ => good_reply "hello") (fun _ _ _ => false)
                       (fun _ => [0; 1]%nat) in
  let run :=
    main ["A"; "B"]%string (fun s => s) (fun _ => None) (fun _ => good)
      (fun query => match query with O => Some DuringRace | _ => None end)
      (fun _ => true)
      [Line (u "hi"); Line (u "again"); Line (u "q")] in
  fst run = Ok tt
  /\ total_queries (d_stats (snd run)) = 1%nat
  /\ successful_queries (d_stats (snd run)) = 0%nat
  /\ List.length (d_races (snd run)) = 1%nat
  /\ d_shown (snd run) = [SGoodbye].
Proof. vm_compute. repeat split. Qed.
